(** * Arch-I-Tect: the generation pipeline, embedded and verified

    A shallow embedding of the Python backend of Arch-I-Tect
    (backend/src): the response parser, the heuristic validators, the
    orchestration of the generation run, the upload boundary and the image
    preparer, followed by the theorems that settle the properties the
    specification states about them.

    Conventions of the embedding.
    - A Python [str] is a Rocq [string]: a sequence of code points below
      256.  On that range the character classes below ([isspace], [\s],
      [\w], [str.lower]) are the tables of CPython 3.
    - A function that can raise returns [exn + A]; code that talks to the
      provider or to the uploads directory runs in the monad [M] over an
      explicit [world].
    - Calls to the logger have no effect on results and are left out. *)

From Stdlib Require Import ZArith QArith Qpower Qround Lqa String Ascii List Lia
  DecimalString.
From Stdlib Require SpecFloat.
From stdpp Require Import gmap strings list.

Open Scope string_scope.

(** ** Python built-ins on strings *)

Module Py.

Definition ord (c : ascii) : N := N_of_ascii c.

Definition between (lo hi n : N) : bool := (N.leb lo n && N.leb n hi)%bool.

(** [str.isspace] on one character (also the class [\s] of [re]). *)
Definition isspace (c : ascii) : bool :=
  let n := ord c in
  (between 9 13 n || between 28 32 n || N.eqb n 133 || N.eqb n 160)%bool.

(** The class [\w] of [re] on a [str] pattern: alphanumerics and [_]. *)
Definition isword (c : ascii) : bool :=
  let n := ord c in
  (between 48 57 n || between 65 90 n || N.eqb n 95 || between 97 122 n
   || N.eqb n 170 || between 178 179 n || N.eqb n 181 || between 185 186 n
   || between 188 190 n || between 192 214 n || between 216 246 n
   || between 248 255 n)%bool.

Definition lower_char (c : ascii) : ascii :=
  let n := ord c in
  if (between 65 90 n || (between 192 222 n && negb (N.eqb n 215)))%bool
  then ascii_of_N (n + 32) else c.

(** [str.upper] stays inside the model except at 181, 223 and 255, whose
    upper-case forms are not code points below 256; they are left as
    they are. *)
Definition upper_char (c : ascii) : ascii :=
  let n := ord c in
  if (between 97 122 n || (between 224 254 n && negb (N.eqb n 247)))%bool
  then ascii_of_N (n - 32) else c.

Fixpoint lower (s : string) : string :=
  match s with
  | EmptyString => EmptyString
  | String c s' => String (lower_char c) (lower s')
  end.

Fixpoint upper (s : string) : string :=
  match s with
  | EmptyString => EmptyString
  | String c s' => String (upper_char c) (upper s')
  end.

Definition is_empty (s : string) : bool :=
  match s with EmptyString => true | String _ _ => false end.

Fixpoint lstrip (s : string) : string :=
  match s with
  | EmptyString => EmptyString
  | String c s' => if isspace c then lstrip s' else s
  end.

Fixpoint rstrip (s : string) : string :=
  match s with
  | EmptyString => EmptyString
  | String c s' =>
      let r := rstrip s' in
      if (is_empty r && isspace c)%bool then EmptyString else String c r
  end.

(** [s.strip()] *)
Definition strip (s : string) : string := rstrip (lstrip s).

(** [s.startswith(p)] *)
Fixpoint startswith (s p : string) : bool :=
  match p, s with
  | EmptyString, _ => true
  | String a p', String b s' => (Ascii.eqb a b && startswith s' p')%bool
  | String _ _, EmptyString => false
  end.

(** [s.endswith(p)] *)
Definition endswith (s p : string) : bool :=
  (Nat.leb (String.length p) (String.length s)
   && String.eqb (substring (String.length s - String.length p)
                            (String.length p) s) p)%bool.

(** [needle in s] *)
Fixpoint contains (needle s : string) : bool :=
  (startswith s needle
   || match s with
      | EmptyString => false
      | String _ s' => contains needle s'
      end)%bool.

(** [s.count(needle)] for a non-empty needle: occurrences that do not
    overlap, from the left.  [skip] characters of the last occurrence
    are still to be passed. *)
Fixpoint count_from (needle : string) (skip : nat) (s : string) : nat :=
  match s with
  | EmptyString => 0
  | String _ s' =>
      match skip with
      | S n => count_from needle n s'
      | O => if startswith s needle
             then S (count_from needle (String.length needle - 1) s')
             else count_from needle 0 s'
      end
  end.

Definition count (s needle : string) : nat := count_from needle 0 s.

(** [s.split(sep)] for a one-character separator. *)
Fixpoint split (sep : ascii) (s : string) : list string :=
  match s with
  | EmptyString => [EmptyString]
  | String c s' =>
      if Ascii.eqb c sep then EmptyString :: split sep s'
      else match split sep s' with
           | [] => [String c EmptyString]
           | w :: ws => String c w :: ws
           end
  end.

(** [sep.join(parts)] *)
Fixpoint join (sep : string) (parts : list string) : string :=
  match parts with
  | [] => EmptyString
  | [p] => p
  | p :: ps => p ++ sep ++ join sep ps
  end.

(** [s.replace(old, new)] for a non-empty [old]. *)
Fixpoint replace_from (old new : string) (skip : nat) (s : string) : string :=
  match s with
  | EmptyString => EmptyString
  | String c s' =>
      match skip with
      | S n => replace_from old new n s'
      | O => if startswith s old
             then new ++ replace_from old new (String.length old - 1) s'
             else String c (replace_from old new 0 s')
      end
  end.

Definition replace (s old new : string) : string := replace_from old new 0 s.

(** [s * n] *)
Fixpoint repeat_str (s : string) (n : nat) : string :=
  match n with
  | O => EmptyString
  | S n' => s ++ repeat_str s n'
  end.

(** [str(n)] for a non-negative integer. *)
Definition str_of_nat (n : nat) : string :=
  NilEmpty.string_of_uint (Nat.to_uint n).

Definition str_of_Z (z : Z) : string :=
  NilEmpty.string_of_int (Z.to_int z).

(** Rounding of a rational to the nearest integer, ties to
    even. *)
Definition round_half_even (q : Q) : Z :=
  let n := Qnum q in
  let d := Zpos (Qden q) in
  let k := (n / d)%Z in
  let r := (n mod d)%Z in
  if (2 * r <? d)%Z then k
  else if (d <? 2 * r)%Z then (k + 1)%Z
  else if Z.even k then k else (k + 1)%Z.

Definition nl : ascii := ascii_of_nat 10.
Definition cr : ascii := ascii_of_nat 13.
Definition dquote : ascii := ascii_of_nat 34.
Definition squote : ascii := ascii_of_nat 39.
Definition backslash : ascii := ascii_of_nat 92.

Definition chr (c : ascii) : string := String c EmptyString.

(** Exceptions, with the text [str(e)] gives. *)
Inductive exn : Type :=
| AssertionError (msg : string)
| ValueError (msg : string)
| HTTPException (status_code : Z) (detail : string)
| OtherError (msg : string).

Definition str_of_exn (e : exn) : string :=
  match e with
  | AssertionError m => m
  | ValueError m => m
  | HTTPException _ d => d
  | OtherError m => m
  end.

End Py.

(** ** The fragment of Python's [re] the program uses

    A backtracking matcher: alternatives are tried from the left, [*] and
    [+] first take as much as they can, [*?] as little.  Repetition only
    ever applies to a single character class in this program's patterns,
    and no pattern matches the empty string. *)

Module Re.
Import Py.

Inductive regex : Type :=
| Eps
| Chr (c : ascii)
| Cls (p : ascii -> bool)
| Seq (r1 r2 : regex)
| Alt (r1 r2 : regex)
| Star (greedy : bool) (p : ascii -> bool)
| Grp (r : regex)
| Bnd.

(** [.] under DOTALL *)
Definition any_char : ascii -> bool := fun _ => true.
(** [[\w-]] *)
Definition word_or_dash (c : ascii) : bool :=
  (isword c || Ascii.eqb c "-")%bool.

Fixpoint lit (s : string) : regex :=
  match s with
  | EmptyString => Eps
  | String c EmptyString => Chr c
  | String c s' => Seq (Chr c) (lit s')
  end.

Definition Opt (r : regex) : regex := Alt r Eps.
Definition Plus (p : ascii -> bool) : regex := Seq (Cls p) (Star true p).

Fixpoint alts (rs : list regex) : regex :=
  match rs with
  | [] => Eps
  | [r] => r
  | r :: rs' => Alt r (alts rs')
  end.

Fixpoint has_group (r : regex) : bool :=
  match r with
  | Grp _ => true
  | Seq a b | Alt a b => (has_group a || has_group b)%bool
  | _ => false
  end.

(** The state of a match attempt: the character before the position (for
    [\b]), the text still ahead, and what group 1 holds. *)
Record mstate : Type :=
  MState { prev : option ascii; rest : string; cap : option string }.

Definition orelse {A} (a b : option A) : option A :=
  match a with Some x => Some x | None => b end.

Definition chr_eq (ic : bool) (c d : ascii) : bool :=
  if ic then Ascii.eqb (lower_char c) (lower_char d) else Ascii.eqb c d.

Definition consumed (before after : string) : string :=
  substring 0 (String.length before - String.length after) before.

Definition word_before (pv : option ascii) : bool :=
  match pv with Some c => isword c | None => false end.
Definition word_ahead (s : string) : bool :=
  match s with String c _ => isword c | EmptyString => false end.

Definition step1 (p : ascii -> bool) (st : mstate)
    (k : mstate -> option mstate) : option mstate :=
  match rest st with
  | String d s' => if p d then k (MState (Some d) s' (cap st)) else None
  | EmptyString => None
  end.

(** [run ic r st k]: match [r] at [st], then continue with [k]; the first
    success in Python's order of preference.  [ic] is IGNORECASE. *)
Fixpoint run (ic : bool) (r : regex) (st : mstate)
    (k : mstate -> option mstate) {struct r} : option mstate :=
  match r with
  | Eps => k st
  | Chr c => step1 (chr_eq ic c) st k
  | Cls p => step1 p st k
  | Seq r1 r2 => run ic r1 st (fun st' => run ic r2 st' k)
  | Alt r1 r2 => orelse (run ic r1 st k) (run ic r2 st k)
  | Star greedy p =>
      (fix loop (pv : option ascii) (s : string) {struct s} : option mstate :=
         let stop := k (MState pv s (cap st)) in
         let more := match s with
                     | String d s' => if p d then loop (Some d) s' else None
                     | EmptyString => None
                     end in
         if greedy then orelse more stop else orelse stop more)
        (prev st) (rest st)
  | Grp r1 =>
      run ic r1 st
          (fun st' => k (MState (prev st') (rest st')
                                (Some (consumed (rest st) (rest st')))))
  | Bnd =>
      if xorb (word_before (prev st)) (word_ahead (rest st)) then k st else None
  end.

Definition match_at (ic : bool) (r : regex) (pv : option ascii) (s : string)
  : option mstate :=
  run ic r (MState pv s None) Some.

(** [re.search(r, s) is not None] *)
Fixpoint search_from (ic : bool) (r : regex) (pv : option ascii) (s : string)
  : bool :=
  match match_at ic r pv s with
  | Some _ => true
  | None => match s with
            | String c s' => search_from ic r (Some c) s'
            | EmptyString => false
            end
  end.

Definition search (ic : bool) (r : regex) (s : string) : bool :=
  search_from ic r None s.

(** The matches of [r] in [s], from the left and not overlapping, each as
    (whole match, group 1).  [skip] characters of the last match are
    still to be passed. *)
Fixpoint scan (ic : bool) (r : regex) (skip : nat) (pv : option ascii)
    (s : string) {struct s} : list (string * option string) :=
  match skip with
  | S n => match s with
           | String c s' => scan ic r n (Some c) s'
           | EmptyString => []
           end
  | O =>
      match match_at ic r pv s with
      | Some st' =>
          let n := String.length s - String.length (rest st') in
          (substring 0 n s, cap st')
            :: match s with
               | String c s' => scan ic r (n - 1) (Some c) s'
               | EmptyString => []
               end
      | None => match s with
                | String c s' => scan ic r 0 (Some c) s'
                | EmptyString => []
                end
      end
  end.

(** [re.findall(r, s)]: group 1 of every match when the pattern has a
    group, the whole match otherwise. *)
Definition findall (ic : bool) (r : regex) (s : string) : list string :=
  map (fun m => if has_group r
                then match snd m with Some g => g | None => EmptyString end
                else fst m)
      (scan ic r 0 None s).

(** [re.sub(r, repl, s)] for a replacement without group references. *)
Fixpoint sub_from (ic : bool) (r : regex) (repl : string) (skip : nat)
    (pv : option ascii) (s : string) {struct s} : string :=
  match s with
  | EmptyString => EmptyString
  | String c s' =>
      match skip with
      | S n => sub_from ic r repl n (Some c) s'
      | O =>
          match match_at ic r pv s with
          | Some st' =>
              match String.length s - String.length (rest st') with
              | O => repl ++ String c (sub_from ic r repl 0 (Some c) s')
              | S n => repl ++ sub_from ic r repl n (Some c) s'
              end
          | None => String c (sub_from ic r repl 0 (Some c) s')
          end
      end
  end.

Definition sub (ic : bool) (r : regex) (repl s : string) : string :=
  sub_from ic r repl 0 None s.

(** [t] is what is left of [s] after some prefix. *)
Definition is_suffix (t s : string) : Prop := exists pre : string, s = pre ++ t.

(** [s[n:]] *)
Fixpoint drop (n : nat) (s : string) : string :=
  match n, s with
  | O, _ => s
  | S n', String _ s' => drop n' s'
  | S _, EmptyString => EmptyString
  end.

(** The character before the position reached after reading [p]. *)
Fixpoint last_of (p : string) (pv : option ascii) : option ascii :=
  match p with
  | EmptyString => pv
  | String c p' => last_of p' (Some c)
  end.

(** The state after the literal [p] has been read off the front. *)
Definition after_lit (p : string) (st : mstate) : mstate :=
  MState (last_of p (prev st)) (drop (String.length p) (rest st)) (cap st).

(** [r] matches at no position of [s] ([pv] is the character before [s]). *)
Fixpoint no_match (ic : bool) (r : regex) (pv : option ascii) (s : string)
  : Prop :=
  match_at ic r pv s = None
  /\ match s with
     | String c s' => no_match ic r (Some c) s'
     | EmptyString => True
     end.

End Re.

(** ** utils/formatters.py: [CodeFormatter] *)

Module CodeFormatter.
Import Py Re.

Definition fence : string := "```".

Fixpoint seqs (rs : list regex) : regex :=
  match rs with
  | [] => Eps
  | [r] => r
  | r :: rs' => Seq r (seqs rs')
  end.

(** The shape shared by the block patterns:
    [```<hint>\n(.*?)```] under DOTALL. *)
Definition block_pattern (hint : regex) : regex :=
  seqs [lit fence; hint; Chr nl; Grp (Star false any_char); lit fence].

(** A text made of word characters only. *)
Fixpoint plain_identifier (s : string) : bool :=
  match s with
  | EmptyString => true
  | String c s' => (isword c && plain_identifier s')%bool
  end.

(** [extract_code_block] splices [language] into its pattern as it is, so
    that a hint is read as a piece of regular expression: one with
    special characters matches something else than its own text, or
    does not compile.  The hints of this model are the plain
    identifiers, which stand for themselves in a pattern; no other hint
    can be passed. *)
Record language_hint : Type :=
  { hint_text : string;
    hint_plain : plain_identifier hint_text = true }.

(** [extract_code_block(text, language=None)] *)
Definition extract_code_block (text : string)
    (language : option language_hint) : string :=
  let pattern :=
    match language with
    | Some l => if is_empty (hint_text l)
                then block_pattern (Opt (Plus isword))
                else block_pattern (lit (hint_text l))
    | None => block_pattern (Opt (Plus isword))
    end in
  match findall false pattern text with
  | m :: _ => strip m
  | [] =>
      match findall false (block_pattern Eps) text with
      | m :: _ => strip m
      | [] => strip text
      end
  end.

(** [resource\s+Q[\w-]+Q\s+Q[\w-]+Q], writing Q for the double quote. *)
Definition resource_pattern : regex :=
  seqs [lit "resource"; Plus isspace; Chr dquote; Plus word_or_dash;
        Chr dquote; Plus isspace; Chr dquote; Plus word_or_dash; Chr dquote].

(** [validate_terraform_syntax(code)] returns [(is_valid, error_message)]. *)
Definition validate_terraform_syntax (code : string) : bool * option string :=
  let open_braces := count code "{" in
  let close_braces := count code "}" in
  if negb (Nat.eqb open_braces close_braces) then
    (false, Some ("Unbalanced braces: " ++ str_of_nat open_braces
                  ++ " open, " ++ str_of_nat close_braces ++ " close"))
  else if (negb (contains "resource" code) && negb (contains "data" code)
           && negb (contains "module" code))%bool then
    (false, Some "No resources, data sources, or modules defined")
  else if (contains "resource" code
           && negb (search false resource_pattern code))%bool then
    (false, Some "Invalid resource declaration syntax")
  else
    let quote_count :=
      (Z.of_nat (count code (chr dquote))
       - Z.of_nat (count code (String backslash (chr dquote))))%Z in
    if negb (Z.eqb (quote_count mod 2) 0) then
      (false, Some "Unclosed quotes detected")
    else (true, None).

Definition required_keys : list string :=
  ["AWSTemplateFormatVersion"; "Resources"].

(** The loop over [required_keys]: the first key that is not in [code]. *)
Fixpoint first_missing (keys : list string) (code : string) : option string :=
  match keys with
  | [] => None
  | key :: keys' =>
      if negb (contains key code) then Some key else first_missing keys' code
  end.

(** [validate_cloudformation_syntax(code)].  The indentation scan that
    follows the two checks only logs a warning. *)
Definition validate_cloudformation_syntax (code : string)
  : bool * option string :=
  match first_missing required_keys code with
  | Some key => (false, Some ("Missing required key: " ++ key))
  | None =>
      if negb (startswith (strip code) "AWSTemplateFormatVersion:") then
        (false, Some "Template must start with AWSTemplateFormatVersion")
      else (true, None)
  end.

(** [list(set(xs))]: the members of [xs] once each, in an order Python
    leaves open. *)
Definition list_of_set (xs : list string) : list string :=
  elements (list_to_set xs : gset string).

(** [resource\s+Q([\w-]+)Q] and [data\s+Q([\w-]+)Q], writing Q for the
    double quote. *)
Definition quoted_type_after (keyword : string) : regex :=
  seqs [lit keyword; Plus isspace; Chr dquote; Grp (Plus word_or_dash);
        Chr dquote].

(** [Type:\s*[Qq]?(AWS::\w+::\w+)], writing Q and q for the double and
    the single quote. *)
Definition cfn_type_pattern : regex :=
  seqs [lit "Type:"; Star true isspace;
        Opt (Cls (fun c => (Ascii.eqb c dquote || Ascii.eqb c squote)%bool));
        Grp (seqs [lit "AWS::"; Plus isword; lit "::"; Plus isword])].

(** [extract_resources_from_code(code, format_type)] *)
Definition extract_resources_from_code (code format_type : string)
  : list string :=
  let resources :=
    if String.eqb (lower format_type) "terraform" then
      app (findall false (quoted_type_after "resource") code)
          (map (fun m => "data." ++ m)
               (findall false (quoted_type_after "data") code))
    else findall false cfn_type_pattern code in
  list_of_set resources.

End CodeFormatter.

(** ** utils/validators.py: [validate_llm_response] *)

Module Validators.
Import Py.

Definition in_list (x : string) (xs : list string) : bool :=
  existsb (String.eqb x) xs.

Definition formats : list string := ["terraform"; "cloudformation"].

(** [validate_llm_response(response, expected_format)]: the two [assert]
    statements raise [AssertionError]; otherwise a verdict
    [(is_valid, error_message)] is returned. *)
Definition validate_llm_response (response expected_format : string)
  : exn + (bool * option string) :=
  if is_empty response then inl (AssertionError "Response cannot be empty")
  else if negb (in_list expected_format formats) then
    inl (AssertionError ("Invalid format: " ++ expected_format))
  else if negb (contains "```" response) then
    inr (false, Some "Response does not contain code blocks")
  else if String.eqb expected_format "terraform" then
    let terraform_keywords := ["resource"; "provider"; "variable"; "output"] in
    let has_terraform_syntax :=
      existsb (fun keyword => contains keyword (lower response))
              terraform_keywords in
    if negb has_terraform_syntax then
      inr (false,
           Some "Response does not appear to contain valid Terraform code")
    else inr (true, None)
  else if String.eqb expected_format "cloudformation" then
    let cf_keywords :=
      ["AWSTemplateFormatVersion"; "Resources"; "Type:"; "Properties:"] in
    let has_cf_syntax :=
      existsb (fun keyword => contains keyword response) cf_keywords in
    if negb has_cf_syntax then
      inr (false,
           Some "Response does not appear to contain valid CloudFormation code")
    else inr (true, None)
  else inr (true, None).

End Validators.

(** ** models/llm_interface.py *)

Module LLMInterface.
Import Py Re CodeFormatter.

Record image_metadata : Type :=
  { img_format : option string; img_mode : string;
    img_width : Z; img_height : Z }.

(** [LLMResponse]; the provider's own payload ([raw_response]) is not
    looked at by the pipeline and is left out. *)
Record LLMResponse : Type :=
  { content : string;
    usage : option (list (string * Z));
    model : option string;
    provider : option string }.

Record ImageInput : Type :=
  { base64 : string; mime_type : string;
    metadata : option image_metadata }.

(** The dict [_parse_architecture_response] builds; [explanation] is
    later overwritten with [None] by the generator, hence the option. *)
Record parsed : Type :=
  { code : string;
    explanation : option string;
    detected_resources : list string;
    format : string;
    raw_response : string }.

(** [```(?:hcl|terraform|yaml|json)?\n(.*?)```] *)
Definition code_pattern : regex :=
  block_pattern (Opt (alts (map lit ["hcl"; "terraform"; "yaml"; "json"]))).

(** [\b(EC2|S3|...)\b] *)
Definition keyword_pattern (keywords : list string) : regex :=
  seqs [Bnd; Grp (alts (map lit keywords)); Bnd].

Definition parser_keywords : list string :=
  ["EC2"; "S3"; "RDS"; "Lambda"; "VPC"; "ALB"; "ELB"; "DynamoDB"; "SNS";
   "SQS"; "CloudFront"; "Route53"].

(** [```.*?```] under DOTALL: a fenced block. *)
Definition fenced_pattern : regex :=
  seqs [lit fence; Star false any_char; lit fence].

(** [_parse_architecture_response(response, output_format)] *)
Definition _parse_architecture_response (response output_format : string)
  : parsed :=
  let code_matches := findall false code_pattern response in
  let code_matches :=
    match code_matches with
    | [] => findall false (block_pattern Eps) response
    | _ :: _ => code_matches
    end in
  let code := match code_matches with
              | m :: _ => strip m
              | [] => EmptyString
              end in
  let detected_resources :=
    list_of_set (findall true (keyword_pattern parser_keywords) response) in
  let explanation := strip (sub false fenced_pattern EmptyString response) in
  {| code := code;
     explanation := Some explanation;
     detected_resources := detected_resources;
     format := output_format;
     raw_response := response |}.

End LLMInterface.

(** ** services/prompt_manager.py *)

Module PromptManager.
Import Py.

(** The four fixed template texts of [_load_templates]. *)
Record templates : Type :=
  { terraform_base : string;
    cloudformation_base : string;
    resource_identification : string;
    architecture_explanation : string }.

Definition NL : string := chr nl.

(** [get_architecture_prompt(output_format, additional_context=None)] *)
Definition get_architecture_prompt (t : templates) (output_format : string)
    (additional_context : option string) : exn + string :=
  let with_context (base_prompt : string) : string :=
    match additional_context with
    | Some ctx =>
        if is_empty ctx then base_prompt
        else base_prompt ++ NL ++ NL ++ "Additional Requirements:" ++ NL ++ ctx
    | None => base_prompt
    end in
  if String.eqb (lower output_format) "terraform" then
    inr (with_context (terraform_base t))
  else if String.eqb (lower output_format) "cloudformation" then
    inr (with_context (cloudformation_base t))
  else inl (ValueError ("Unsupported output format: " ++ output_format)).

Definition get_resource_identification_prompt (t : templates) : string :=
  resource_identification t.

(** [create_refinement_prompt(original_code, feedback, output_format)] *)
Definition create_refinement_prompt
    (original_code feedback output_format : string) : string :=
  "Please refine the following " ++ upper output_format
    ++ " code based on the feedback provided." ++ NL ++ NL
    ++ "Original Code:" ++ NL
    ++ "```" ++ NL
    ++ original_code ++ NL
    ++ "```" ++ NL ++ NL
    ++ "Feedback:" ++ NL
    ++ feedback ++ NL ++ NL
    ++ "Generate an improved version that addresses the feedback while maintaining all the original functionality."
    ++ NL
    ++ "Ensure the code remains valid and follows best practices."
    ++ NL ++ NL
    ++ "Output the refined code within appropriate code blocks.".

End PromptManager.

(** ** The world the pipeline runs in

    The provider is an oracle with a state of its own; every call made to
    it is appended to [calls].  [uploads] holds the files as they are
    seen from the uploads directory, under their paths relative to it;
    [tasks] are the background tasks registered so far. *)

Module World.
Import Py LLMInterface.

Inductive event : Type :=
| EvIsAvailable
| EvGenerate (prompt : string) (images : option (list ImageInput))
             (temperature : Q) (max_tokens : option Z).

Definition bytes : Type := list Byte.byte.

Record world (W : Type) : Type :=
  { provider_state : W;
    calls : list event;
    uploads : gmap string bytes;
    tasks : list (string * string) }.
Arguments provider_state {W} _.
Arguments calls {W} _.
Arguments uploads {W} _.
Arguments tasks {W} _.

(** The capability set of a provider client ([LLMInterface]'s abstract
    methods). *)
Record LLMClient (W : Type) : Type :=
  { provider_name : string;
    is_available : W -> bool * W;
    supports_images : bool;
    generate : string -> option (list ImageInput) -> Q -> option Z
               -> W -> (exn + LLMResponse) * W }.
Arguments provider_name {W} _.
Arguments is_available {W} _.
Arguments supports_images {W} _.
Arguments generate {W} _.

Definition M (W A : Type) : Type := world W -> (exn + A) * world W.

Definition ret {W A} (a : A) : M W A := fun w => (inr a, w).
Definition raise {W A} (e : exn) : M W A := fun w => (inl e, w).
Definition bind {W A B} (c : M W A) (k : A -> M W B) : M W B :=
  fun w => match c w with
           | (inr a, w') => k a w'
           | (inl e, w') => (inl e, w')
           end.
(** [try: c  except Exception as e: h e] *)
Definition try_except {W A} (c : M W A) (h : exn -> M W A) : M W A :=
  fun w => match c w with
           | (inr a, w') => (inr a, w')
           | (inl e, w') => h e w'
           end.
Definition lift {W A} (r : exn + A) : M W A := fun w => (r, w).

Declare Scope pipeline_scope.
Delimit Scope pipeline_scope with pipeline.
Notation "x <- c ;; k" := (bind c (fun x => k))
  (at level 100, c at next level, right associativity) : pipeline_scope.

Definition log_call {W} (ev : event) (p : W) (w : world W) : world W :=
  {| provider_state := p; calls := calls w ++ [ev];
     uploads := uploads w; tasks := tasks w |}.

Definition is_generate (ev : event) : bool :=
  match ev with EvGenerate _ _ _ _ => true | EvIsAvailable => false end.

(** The calls to [generate] among the provider calls made. *)
Definition generate_calls (evs : list event) : list event :=
  List.filter is_generate evs.

End World.

(** ** services/iac_generator.py: [IaCGenerator] *)

Module IaCGenerator.
Import Py Re CodeFormatter Validators LLMInterface PromptManager World.
Local Open Scope pipeline_scope.

(** What [ImageProcessor.prepare_for_llm] hands back (the [regions] entry
    is not used by the pipeline). *)
Record image_data : Type :=
  { d_base64 : string; d_mime_type : string; d_metadata : image_metadata }.

(** [_format_terraform_code]: the loop over the lines, carrying
    [indent_level]. *)
Fixpoint indent_lines (lines : list string) (indent_level : nat)
  : list string :=
  match lines with
  | [] => []
  | line :: lines' =>
      let stripped := strip line in
      let indent_level :=
        if startswith stripped "}" then Nat.max 0 (indent_level - 1)
        else indent_level in
      let formatted :=
        if negb (is_empty stripped)
        then repeat_str "  " indent_level ++ stripped
        else EmptyString in
      let indent_level :=
        if endswith stripped "{" then indent_level + 1 else indent_level in
      formatted :: indent_lines lines' indent_level
  end.

Definition _format_terraform_code (code : string) : string :=
  join (chr nl) (indent_lines (split nl code) 0).

Definition _format_cloudformation_code (code : string) : string :=
  strip (replace code (String cr (chr nl)) (chr nl)).

(** [_post_process_code(code, output_format)] *)
Definition _post_process_code (code output_format : string) : string :=
  if is_empty code then EmptyString
  else
    let code := strip code in
    let code :=
      if startswith code "```" then
        let lines := split nl code in
        if Nat.ltb 2 (List.length lines)
        then join (chr nl) (removelast (tl lines))
        else code
      else code in
    if String.eqb output_format "terraform" then _format_terraform_code code
    else if String.eqb output_format "cloudformation"
         then _format_cloudformation_code code
    else code.

(** How an f-string renders an optional message. *)
Definition str_of_optional (o : option string) : string :=
  match o with Some s => s | None => "None" end.

Definition identify_keywords : list string :=
    ["EC2"; "S3"; "RDS"; "Lambda"; "VPC"; "ALB"; "ELB"; "DynamoDB";
     "SNS"; "SQS"; "CloudFront"; "Route53"; "ECS"; "EKS"; "API Gateway";
     "Kinesis"; "Redshift"; "ElastiCache"; "Neptune"; "Athena"; "Glue";
     "Step Functions"; "EventBridge"; "Cognito"; "Secrets Manager";
     "Systems Manager"; "CloudWatch"; "CloudTrail"; "WAF"; "Shield";
     "GuardDuty"; "Inspector"; "Macie"; "Config"; "Organizations";
     "Control Tower"; "Service Catalog"; "AppSync"; "Amplify";
     "Elastic Beanstalk"; "Fargate"; "Batch"; "SageMaker"; "Comprehend";
     "Rekognition"; "Polly"; "Transcribe"; "Translate"; "Lex";
     "Personalize"; "Forecast"; "Textract"; "Kendra"; "QuickSight";
     "Managed Blockchain"; "Quantum Ledger"; "Ground Station";
     "RoboMaker"; "IoT Core"; "IoT Analytics"; "IoT Events";
     "IoT Things Graph"; "IoT Device Defender"; "IoT Device Management";
     "IoT 1-Click"; "IoT Greengrass"; "Timestream"; "DocumentDB";
     "Keyspaces"; "QLDB"; "Managed Apache Cassandra"; "FSx"; "EFS";
     "Storage Gateway"; "DataSync"; "Transfer Family"; "Backup";
     "CloudEndure"; "Application Discovery"; "Migration Hub";
     "Server Migration"; "Database Migration"; "Snow Family";
     "Direct Connect"; "VPN"; "Transit Gateway"; "PrivateLink";
     "Global Accelerator"; "CloudFront"; "Route 53"; "API Gateway";
     "App Mesh"; "Cloud Map"; "X-Ray"; "CloudFormation"; "CDK"; "SAM";
     "OpsWorks"; "Service Catalog"; "Control Tower"; "Organizations";
     "Resource Access Manager"; "License Manager"; "Compute Optimizer";
     "Trusted Advisor"; "Well-Architected Tool";
     "Personal Health Dashboard"].

Section Generator.
Context {W : Type}.
Variable llm_client : LLMClient W.
Variable prompt_templates : templates.
(** [ImageProcessor.prepare_for_llm] on the bytes of the image file:
    decoding, region extraction and base64 encoding belong to the
    imaging libraries. *)
Variable prepare_for_llm : bytes -> exn + image_data.

Definition call_is_available : M W bool :=
  fun w =>
    let (b, p) := is_available llm_client (provider_state w) in
    (inr b, log_call EvIsAvailable p w).

Definition call_generate (prompt : string)
    (images : option (list ImageInput)) (temperature : Q)
    (max_tokens : option Z) : M W LLMResponse :=
  fun w =>
    let (r, p) := generate llm_client prompt images temperature max_tokens
                           (provider_state w) in
    (r, log_call (EvGenerate prompt images temperature max_tokens) p w).

Definition read_image (image_path : string) : M W image_data :=
  fun w =>
    match uploads w !! image_path with
    | Some data => (prepare_for_llm data, w)
    | None => (inl (OtherError ("No such file: " ++ image_path)), w)
    end.

(** [LLMInterface.analyze_architecture_diagram(image_path, output_format)] *)
Definition analyze_architecture_diagram (image_path output_format : string)
  : M W parsed :=
  image_data <- read_image image_path ;;
  let image_input :=
    {| base64 := d_base64 image_data;
       mime_type := d_mime_type image_data;
       metadata := Some (d_metadata image_data) |} in
  prompt <- lift (get_architecture_prompt prompt_templates output_format None) ;;
  response <- call_generate prompt (Some [image_input]) (1 # 10) (Some 4000%Z) ;;
  ret (_parse_architecture_response (content response) output_format).

(** [_refine_output(initial_result, error_message, output_format)] *)
Definition _refine_output (initial_result : parsed)
    (error_message : option string) (output_format : string) : M W parsed :=
  let refinement_prompt :=
    create_refinement_prompt (code initial_result)
                             (str_of_optional error_message)
                             output_format in
  response <- call_generate refinement_prompt None (1 # 10) (Some 4000%Z) ;;
  let refined_result :=
    _parse_architecture_response (content response) output_format in
  ret {| code := code refined_result;
         explanation := explanation refined_result;
         detected_resources := detected_resources initial_result;
         format := format refined_result;
         raw_response := raw_response refined_result |}.

(** The body of the [try] block of [generate_from_image]. *)
Definition generate_body (image_path output_format : string)
    (include_explanation : bool) : M W parsed :=
  available <- call_is_available ;;
  if negb available then raise (ValueError "LLM service is not available")
  else if negb (supports_images llm_client) then
    raise (ValueError (provider_name llm_client
                       ++ " does not support image analysis"))
  else
    result <- analyze_architecture_diagram image_path output_format ;;
    verdict <-
      lift (validate_llm_response (raw_response result) output_format) ;;
    let (is_valid, error_msg) := verdict : bool * option string in
    result <- (if negb is_valid
               then _refine_output result error_msg output_format
               else ret result) ;;
    let result :=
      if negb include_explanation
      then {| code := code result; explanation := None;
              detected_resources := detected_resources result;
              format := format result;
              raw_response := raw_response result |}
      else result in
    ret {| code := _post_process_code (code result) output_format;
           explanation := explanation result;
           detected_resources := detected_resources result;
           format := format result;
           raw_response := raw_response result |}.

(** [generate_from_image(image_path, output_format, include_explanation)] *)
Definition generate_from_image (image_path output_format : string)
    (include_explanation : bool) : M W parsed :=
  fun w =>
    match uploads w !! image_path with
    | None =>
        raise (AssertionError ("Image file not found: " ++ image_path)) w
    | Some _ =>
        if negb (in_list output_format formats) then
          raise (AssertionError ("Invalid format: " ++ output_format)) w
        else
          try_except
            (generate_body image_path output_format include_explanation)
            (fun e => raise (ValueError
               ("Failed to generate Infrastructure as Code: "
                ++ str_of_exn e)))
            w
    end.

(** [identify_resources(image_path)] *)
Definition identify_resources (image_path : string) : M W (list string) :=
  image_data <- read_image image_path ;;
  let image_input :=
    {| base64 := d_base64 image_data;
       mime_type := d_mime_type image_data;
       metadata := None |} in
  let prompt := get_resource_identification_prompt prompt_templates in
  response <- call_generate prompt (Some [image_input]) (1 # 10) (Some 1000%Z) ;;
  ret (list_of_set (findall true (keyword_pattern identify_keywords)
                            (content response))).

End Generator.

(** Names for the values the statements about a run speak of. *)

(** The image handed to the provider. *)
Definition as_image_input (d : image_data) : ImageInput :=
  {| base64 := d_base64 d; mime_type := d_mime_type d;
     metadata := Some (d_metadata d) |}.

(** The last two steps of [generate_from_image] on a result. *)
Definition finished (output_format : string) (include_explanation : bool)
    (result : parsed) : parsed :=
  {| code := _post_process_code (code result) output_format;
     explanation := if include_explanation then explanation result else None;
     detected_resources := detected_resources result;
     format := format result;
     raw_response := raw_response result |}.

(** What [_refine_output] makes of the initial result and the parsed
    second answer. *)
Definition merged (initial refined : parsed) : parsed :=
  {| code := code refined;
     explanation := explanation refined;
     detected_resources := detected_resources initial;
     format := format refined;
     raw_response := raw_response refined |}.

End IaCGenerator.

(** ** utils/validators.py: the upload checks *)

Module UploadValidators.
Import Py LLMInterface World.

(** The two settings read from the environment:
    [int(os.getenv("MAX_IMAGE_SIZE_MB", "10"))] and
    [os.getenv("ALLOWED_IMAGE_TYPES", ...).split(",")]. *)
Record config : Type :=
  { max_size_mb : Z; allowed_types : list string }.

Record upload_metadata : Type :=
  { m_format : option string; m_mode : string; m_size : Z * Z;
    m_width : Z; m_height : Z; m_file_size_mb : Q }.

(** [Path(p).name]: the last component of the path. *)
Definition path_parts (p : string) : list string :=
  List.filter (fun part => negb (is_empty part || String.eqb part "."))
              (split "/" p).

Definition path_name (p : string) : string :=
  List.last (path_parts p) EmptyString.

(** [s.rfind(c)] *)
Fixpoint rfind (c : ascii) (s : string) : option nat :=
  match s with
  | EmptyString => None
  | String d s' =>
      match rfind c s' with
      | Some i => Some (S i)
      | None => if Ascii.eqb d c then Some 0 else None
      end
  end.

(** [Path(p).suffix] *)
Definition path_suffix (p : string) : string :=
  let name := path_name p in
  match rfind "." name with
  | Some i =>
      if (Nat.ltb 0 i && Nat.ltb i (String.length name - 1))%bool
      then substring i (String.length name - i) name
      else EmptyString
  | None => EmptyString
  end.

Fixpoint lstrip_char (c : ascii) (s : string) : string :=
  match s with
  | EmptyString => EmptyString
  | String d s' => if Ascii.eqb d c then lstrip_char c s' else s
  end.

Fixpoint rstrip_char (c : ascii) (s : string) : string :=
  match s with
  | EmptyString => EmptyString
  | String d s' =>
      let r := rstrip_char c s' in
      if (is_empty r && Ascii.eqb d c)%bool then EmptyString else String d r
  end.

(** [s.strip(".")] *)
Definition strip_dots (s : string) : string :=
  rstrip_char "." (lstrip_char "." s).

(** [f"{x:.2f}"] for a non-negative [x].  [len / (1024 * 1024)] is exact
    in binary floating point for every length below 2^53, so the value
    formatted is the rational itself. *)
Definition format_2f (x : Q) : string :=
  let h := round_half_even (x * 100)%Q in
  let cents := (h mod 100)%Z in
  str_of_Z (h / 100) ++ "."
    ++ (if (cents <? 10)%Z then "0" else EmptyString) ++ str_of_Z cents.

Definition min_dimension : Z := 100.
Definition max_dimension : Z := 4096.

Section Validate.
Variable cfg : config.
(** [Image.open(io.BytesIO(file_content))]: the header the imaging
    library decodes, or the exception it raises. *)
Variable Image_open : bytes -> exn + image_metadata.

(** [validate_image_file(file_content, filename)] returns
    [(is_valid, error_message, metadata)]. *)
Definition validate_image_file (file_content : bytes) (filename : string)
  : bool * option string * option upload_metadata :=
  let file_size_mb : Q := Z.of_nat (List.length file_content) # 1048576 in
  if negb (Qle_bool file_size_mb (inject_Z (max_size_mb cfg))) then
    (false,
     Some ("File size (" ++ format_2f file_size_mb
           ++ "MB) exceeds maximum (" ++ str_of_Z (max_size_mb cfg)
           ++ "MB)"),
     None)
  else
    let file_ext := strip_dots (lower (path_suffix filename)) in
    if negb (Validators.in_list file_ext (allowed_types cfg)) then
      (false,
       Some ("File type '" ++ file_ext ++ "' not allowed. Allowed types: "
             ++ join ", " (allowed_types cfg)),
       None)
    else
      match Image_open file_content with
      | inr image =>
          let metadata :=
            {| m_format := img_format image; m_mode := img_mode image;
               m_size := (img_width image, img_height image);
               m_width := img_width image; m_height := img_height image;
               m_file_size_mb := file_size_mb |} in
          if ((img_width image <? min_dimension)
              || (img_height image <? min_dimension))%Z%bool then
            (false,
             Some ("Image too small. Minimum dimension: "
                   ++ str_of_Z min_dimension ++ "px"),
             None)
          else if ((max_dimension <? img_width image)
                   || (max_dimension <? img_height image))%Z%bool then
            (false,
             Some ("Image too large. Maximum dimension: "
                   ++ str_of_Z max_dimension ++ "px"),
             None)
          else (true, None, Some metadata)
      | inl _ =>
          (false, Some "Invalid image file or corrupted content", None)
      end.
End Validate.

(** [os.path.splitext] on a bare file name. *)
Definition all_dots (s : string) : bool := is_empty (lstrip_char "." s).

Definition splitext (p : string) : string * string :=
  match rfind "." p with
  | Some i =>
      if all_dots (substring 0 i p) then (p, EmptyString)
      else (substring 0 i p, substring i (String.length p - i) p)
  | None => (p, EmptyString)
  end.

(** [s[:k]] for an integer [k] of either sign. *)
Definition slice_to (s : string) (k : Z) : string :=
  if (k <? 0)%Z
  then substring 0 (Z.to_nat (Z.of_nat (String.length s) + k)) s
  else substring 0 (Z.to_nat k) s.

Definition replace_chars (invalid : list ascii) (s : string) : string :=
  fold_left (fun acc c => replace acc (chr c) "_") invalid s.

(** [sanitize_filename(filename)] *)
Definition sanitize_filename (filename : string) : string :=
  let filename := path_name filename in
  let filename :=
    replace_chars ["<"; ">"; ":"; dquote; "|"; "?"; "*"]%char filename in
  let max_length := 255%Z in
  if (max_length <? Z.of_nat (String.length filename))%Z then
    let (name, ext) := splitext filename in
    slice_to name (max_length - Z.of_nat (String.length ext)) ++ ext
  else filename.

End UploadValidators.

(** ** api/routes.py *)

Module Routes.
Import Py Validators LLMInterface PromptManager World IaCGenerator
       UploadValidators.
Local Open Scope pipeline_scope.

Record GenerateCodeRequest : Type :=
  { image_id : string; output_format : string; include_explanation : bool }.

Record GenerateCodeResponse : Type :=
  { r_code : string; r_explanation : option string;
    r_detected_resources : list string; r_format : string }.

Record UploadResponse : Type :=
  { u_image_id : string; u_filename : string;
    u_metadata : option upload_metadata; u_preview_url : string }.

(** The patterns [Path.glob] refuses, with the exception it raises
    (pathlib of CPython 3.11): the empty pattern; a pattern that is not
    relative; a pattern without any component; and [**] inside a longer
    component. *)
Definition glob_refusal (pattern : string) : option exn :=
  if is_empty pattern then
    Some (ValueError "Unacceptable pattern: ''")
  else if startswith pattern "/" then
    Some (OtherError
            "NotImplementedError: Non-relative patterns are unsupported")
  else
    match path_parts pattern with
    | [] =>
        if endswith pattern "/" then
          Some (OtherError
                  "AttributeError: '_TerminatingSelector' object has no attribute 'select_from'")
        else Some (OtherError "IndexError: tuple index out of range")
    | parts =>
        if existsb (fun part => (contains "**" part
                                 && negb (String.eqb part "**"))%bool) parts
        then Some (ValueError
                     "Invalid pattern: '**' can only be an entire path component")
        else None
    end.

Section Routes.
Context {W : Type}.
Variable llm_client : LLMClient W.
Variable prompt_templates : templates.
Variable prepare_for_llm : bytes -> exn + image_data.
Variable cfg : config.
Variable Image_open : bytes -> exn + image_metadata.
(** [fnmatch name pattern]: the pattern matching behind [Path.glob]. *)
Variable fnmatch : string -> string -> bool.
(** Whether the file system refuses to create the named file. *)
Variable storage_fails : string -> bool.

(** [list(Path("uploads").glob(pattern))]: the exception of
    [glob_refusal] when the pattern is refused, the matching names
    otherwise. *)
Definition glob_uploads (pattern : string) : M W (list string) :=
  fun w =>
    match glob_refusal pattern with
    | Some e => (inl e, w)
    | None =>
        (inr (List.filter (fun name => fnmatch name pattern)
                          (elements (dom (uploads w)))), w)
    end.

(** [open(file_path, "wb")] followed by [f.write(content)] *)
Definition write_file (file_path : string) (content : bytes) : M W unit :=
  fun w =>
    if storage_fails file_path
    then (inl (OtherError ("cannot open " ++ file_path)), w)
    else (inr tt,
          {| provider_state := provider_state w; calls := calls w;
             uploads := <[file_path := content]> (uploads w);
             tasks := tasks w |}).

(** [background_tasks.add_task(image_processor.preprocess_image,
    file_path, image_id)] *)
Definition add_task (file_path image_id : string) : M W unit :=
  fun w =>
    (inr tt,
     {| provider_state := provider_state w; calls := calls w;
        uploads := uploads w;
        tasks := tasks w ++ [(file_path, image_id)] |}).

(** [upload_image(file)]: [file_read] is what [await file.read()]
    gives, [uuid4] the identifier [uuid.uuid4()] draws. *)
Definition upload_image (file_read : exn + bytes) (filename uuid4 : string)
  : M W UploadResponse :=
  match file_read with
  | inl _ => raise (HTTPException 400 "Failed to read file")
  | inr content =>
      match validate_image_file cfg Image_open content filename with
      | (false, error_message, _) =>
          raise (HTTPException 400 (str_of_optional error_message))
      | (true, _, metadata) =>
          let image_id := uuid4 in
          let safe_filename := sanitize_filename filename in
          let file_path := image_id ++ "_" ++ safe_filename in
          _ <- try_except (write_file file_path content)
                 (fun _ => raise (HTTPException 500 "Failed to save file")) ;;
          _ <- add_task file_path image_id ;;
          ret {| u_image_id := image_id;
                 u_filename := safe_filename;
                 u_metadata := metadata;
                 u_preview_url := "/api/v1/preview/" ++ image_id |}
      end
  end.

(** [generate_code(request)] *)
Definition generate_code (request : GenerateCodeRequest)
  : M W GenerateCodeResponse :=
  image_files <- glob_uploads (image_id request ++ "_*") ;;
  match image_files with
  | [] =>
      raise (HTTPException 404
               ("Image with ID " ++ image_id request ++ " not found"))
  | image_path :: _ =>
      if negb (in_list (output_format request) formats) then
        raise (HTTPException 400
          "Invalid output format. Must be 'terraform' or 'cloudformation'")
      else
        try_except
          (result <- generate_from_image llm_client prompt_templates
                       prepare_for_llm image_path (output_format request)
                       (include_explanation request) ;;
           ret {| r_code := code result;
                  r_explanation := explanation result;
                  r_detected_resources := detected_resources result;
                  r_format := output_format request |})
          (fun e =>
             match e with
             | ValueError msg => raise (HTTPException 400 msg)
             | _ => raise (HTTPException 500
                             "Failed to generate code. Please try again.")
             end)
  end.

End Routes.

End Routes.

(** ** services/image_processor.py: [ImageProcessor] *)

Module ImageProcessor.
Import Py LLMInterface World.

(** *** Binary floating point

    A Python [float] is an IEEE 754 binary64 number.  Away from overflow
    and underflow, which the pixel counts of an image never reach, its
    operations return the exact result rounded to 53 significant bits,
    ties to even; [round_binary64] is that rounding on the rationals. *)

Definition two_pow (e : Z) : Q := Qpower 2 e.

Definition round_pos (q : Q) : Q :=
  let e0 := (Z.log2 (Qnum q) - Z.log2 (Zpos (Qden q)) - 52)%Z in
  let s0 := (q * two_pow (- e0))%Q in
  let (e, s) := if Qle_bool (two_pow 52) s0 then (e0, s0)
                else ((e0 - 1)%Z, (s0 * 2)%Q) in
  (inject_Z (round_half_even s) * two_pow e)%Q.

Definition round_binary64 (q : Q) : Q :=
  if Qeq_bool q 0 then 0%Q
  else if Qle_bool q 0 then (- round_pos (- q))%Q
  else round_pos q.

(** The unit roundoff of binary64, 2^-53. *)
Definition u64 : Q := 1 # 9007199254740992.

(** [a / b] on two integers: the quotient, correctly rounded. *)
Definition int_truediv (a b : Z) : Q :=
  round_binary64 (inject_Z a / inject_Z b)%Q.

(** [n * x] for an integer [n] below 2^53 (its conversion is exact) and a
    float [x]. *)
Definition int_times_float (n : Z) (x : Q) : Q :=
  round_binary64 (inject_Z n * x)%Q.

(** [int(x)]: truncation toward zero. *)
Definition int_of_float (x : Q) : Z := Z.quot (Qnum x) (Zpos (Qden x)).

(** The same product on the Standard Library's specification of IEEE 754
    arithmetic ([SpecFloat], precision 53, maximal exponent 1024), against
    which [round_binary64] is checked on sample values below. *)
Definition sf_of_Z (z : Z) : SpecFloat.spec_float :=
  match z with
  | Zpos p => SpecFloat.binary_normalize 53 1024 (Zpos p) 0 false
  | Zneg p => SpecFloat.binary_normalize 53 1024 (Zpos p) 0 true
  | Z0 => SpecFloat.S754_zero false
  end.

Definition Q_of_sf (x : SpecFloat.spec_float) : Q :=
  match x with
  | SpecFloat.S754_finite s m e =>
      ((if s then - (1) else 1) * inject_Z (Zpos m) * two_pow e)%Q
  | _ => 0%Q
  end.

Definition sf_int_times_quotient (n a b : Z) : Q :=
  Q_of_sf (SpecFloat.SFmul 53 1024 (sf_of_Z n)
             (SpecFloat.SFdiv 53 1024 (sf_of_Z a) (sf_of_Z b))).

(** *** The imaging library

    Pillow is outside the repository.  Its images are an abstract type
    observed through [mode] and [size]; every operation may raise. *)

Record PIL : Type :=
  { Img : Type;
    mode : Img -> string;
    size : Img -> Z * Z;
    Image_open : bytes -> exn + Img;
    convert : Img -> string -> exn + Img;
    resize_lanczos : Img -> Z * Z -> exn + Img;
    enhance_contrast : Img -> Q -> exn + Img;
    enhance_sharpness : Img -> Q -> exn + Img;
    autocontrast : Img -> Z -> exn + Img;
    new_image : string -> Z * Z -> Z * Z * Z -> Img;
    (** [background.paste(img, mask=img.split()[3])] *)
    paste_alpha : Img -> Img -> exn + Img;
    save_png : Img -> exn + bytes }.

(** [img.width] and [img.height] *)
Definition width (P : PIL) (i : Img P) : Z := fst (size P i).
Definition height (P : PIL) (i : Img P) : Z := snd (size P i).

(** What Pillow documents about modes and sizes; the sides of an image it
    has opened fit a C [int]. *)
Record PIL_contract (P : PIL) : Prop :=
  { open_range : forall data i, Image_open P data = inr i ->
      (0 <= fst (size P i) < 2 ^ 31)%Z /\ (0 <= snd (size P i) < 2 ^ 31)%Z;
    convert_ok : forall i m i', convert P i m = inr i' ->
      mode P i' = m /\ size P i' = size P i;
    resize_ok : forall i sz i', resize_lanczos P i sz = inr i' ->
      mode P i' = mode P i /\ size P i' = sz;
    contrast_ok : forall i f i', enhance_contrast P i f = inr i' ->
      mode P i' = mode P i /\ size P i' = size P i;
    sharpness_ok : forall i f i', enhance_sharpness P i f = inr i' ->
      mode P i' = mode P i /\ size P i' = size P i;
    autocontrast_ok : forall i c i', autocontrast P i c = inr i' ->
      mode P i' = mode P i /\ size P i' = size P i;
    (** [ImageOps.autocontrast] ends in a lookup table, which Pillow
        applies to the modes L and RGB and to no other: on every other
        mode it raises. *)
    autocontrast_modes : forall i c i', autocontrast P i c = inr i' ->
      mode P i = "L" \/ mode P i = "RGB";
    new_ok : forall m sz c,
      mode P (new_image P m sz c) = m /\ size P (new_image P m sz c) = sz;
    paste_ok : forall bg i r, paste_alpha P bg i = inr r ->
      mode P r = mode P bg /\ size P r = size P bg }.

Definition bindE {A B} (r : exn + A) (k : A -> exn + B) : exn + B :=
  match r with inr a => k a | inl e => inl e end.

(** [self.max_dimension] *)
Definition max_dimension : Z := 2048.

(** [int(side * (self.max_dimension / longest))] *)
Definition scaled (side longest : Z) : Z :=
  int_of_float (int_times_float side (int_truediv max_dimension longest)).

Section Processor.
Variable P : PIL.

(** [_resize_image(img)] *)
Definition _resize_image (img : Img P) : exn + Img P :=
  let (width, height) := size P img in
  if ((width <=? max_dimension) && (height <=? max_dimension))%Z%bool
  then inr img
  else
    let new_size :=
      if (height <? width)%Z
      then (max_dimension, scaled height width)
      else (scaled width height, max_dimension) in
    resize_lanczos P img new_size.

(** [_enhance_image(img)] *)
Definition _enhance_image (img : Img P) : exn + Img P :=
  bindE (enhance_contrast P img (12 # 10)) (fun img =>
  bindE (enhance_sharpness P img (11 # 10)) (fun img =>
  autocontrast P img 1)).

(** [_remove_transparency(img)] *)
Definition _remove_transparency (img : Img P) : exn + Img P :=
  if negb (String.eqb (mode P img) "RGBA") then inr img
  else
    let background := new_image P "RGB" (size P img) (255, 255, 255)%Z in
    paste_alpha P background img.

(** The steps of [preprocess_image] between opening and saving. *)
Definition process (img : Img P) : exn + Img P :=
  bindE (if negb (Validators.in_list (mode P img) ["RGB"; "RGBA"])
         then convert P img "RGB" else inr img) (fun img =>
  bindE (_resize_image img) (fun img =>
  bindE (_enhance_image img) (fun img =>
  _remove_transparency img))).

(** [preprocess_image(image_path, image_id)]: any exception is logged
    and raised again. *)
Definition preprocess_image {W} (image_path image_id : string)
  : M W string :=
  fun w =>
    match uploads w !! image_path with
    | None => (inl (OtherError ("No such file: " ++ image_path)), w)
    | Some data =>
        let processed_path := image_id ++ "_processed.png" in
        match bindE (bindE (Image_open P data) process) (save_png P) with
        | inr encoded =>
            (inr processed_path,
             {| provider_state := provider_state w; calls := calls w;
                uploads := <[processed_path := encoded]> (uploads w);
                tasks := tasks w |})
        | inl e => (inl e, w)
        end
    end.

End Processor.

End ImageProcessor.

(** ** Concrete inputs used by the examples below *)

Module Samples.
Import Py CodeFormatter LLMInterface PromptManager World IaCGenerator
       UploadValidators Routes ImageProcessor.

Definition NL : string := chr nl.
Definition DQ : string := chr dquote.

(** [resource "x" "y" {\n a = 1\n}] *)
Definition tf_block : string :=
  "resource " ++ DQ ++ "x" ++ DQ ++ " " ++ DQ ++ "y" ++ DQ ++ " {" ++ NL
    ++ " a = 1" ++ NL ++ "}".

(** The same text without its opening brace. *)
Definition tf_block_unbalanced : string :=
  "resource " ++ DQ ++ "x" ++ DQ ++ " " ++ DQ ++ "y" ++ DQ ++ " " ++ NL
    ++ " a = 1" ++ NL ++ "}".

(** Both required keys, in the right order. *)
Definition cfn_template : string :=
  "AWSTemplateFormatVersion: 2010-09-09" ++ NL ++ "Resources:" ++ NL
    ++ "  Bucket:" ++ NL ++ "    Type: AWS::S3::Bucket".

(** Only [Resources]. *)
Definition cfn_without_version : string :=
  "Resources:" ++ NL ++ "  Bucket:" ++ NL ++ "    Type: AWS::S3::Bucket".

(** Both required keys, but [Resources] comes first. *)
Definition cfn_resources_first : string :=
  "Resources:" ++ NL ++ "  Bucket:" ++ NL ++ "    Type: AWS::S3::Bucket"
    ++ NL ++ "AWSTemplateFormatVersion: 2010-09-09".

(** An answer in prose only, with blanks around it. *)
Definition plain_answer : string :=
  "  Use an S3 bucket behind CloudFront.  ".

(** The hint [hcl]. *)
Definition hcl_hint : language_hint :=
  {| hint_text := "hcl"; hint_plain := eq_refl |}.

(** The same keyword in two spellings. *)
Definition two_spellings : string := "An EC2 instance; the ec2 instance.".

Definition answer (text : string) : LLMResponse :=
  {| content := text; usage := None; model := None;
     provider := Some "scripted" |}.

(** A provider that reads its answers off a script and fails when the
    script is used up. *)
Definition scripted : LLMClient (list string) :=
  {| provider_name := "scripted";
     is_available := fun script => (true, script);
     supports_images := true;
     generate := fun _ _ _ _ script =>
       match script with
       | text :: script' => (inr (answer text), script')
       | [] => (inl (ValueError "Scripted generation failed: no answer left"),
                [])
       end |}.

Definition sample_templates : templates :=
  {| terraform_base := "Generate Terraform for this diagram.";
     cloudformation_base := "Generate CloudFormation for this diagram.";
     resource_identification := "List the resources in this diagram.";
     architecture_explanation := "Explain this diagram." |}.

Definition sample_data : image_data :=
  {| d_base64 := "iVBORw0KGgo=";
     d_mime_type := "image/png";
     d_metadata := {| img_format := Some "PNG"; img_mode := "RGB";
                      img_width := 500; img_height := 400 |} |}.

Definition sample_prepare (data : bytes) : exn + image_data :=
  inr sample_data.

Definition sample_image : string := "7f3a_diagram.png".

(** One uploaded image, nothing called yet. *)
Definition sample_world (script : list string) : world (list string) :=
  {| provider_state := script; calls := [];
     uploads := {[ sample_image := [] ]}; tasks := [] |}.

(** A first answer without any code block, mentioning S3. *)
Definition prose_answer : string := "I would use an S3 bucket.".

(** A second answer, again without a code block, mentioning RDS. *)
Definition second_prose_answer : string := "Then add an RDS database.".

(** A second answer with a Terraform block, mentioning RDS. *)
Definition refined_answer : string :=
  "Refined, now with RDS:" ++ NL ++ "```" ++ NL ++ tf_block ++ NL ++ "```".

Definition sample_config : config :=
  {| max_size_mb := 10; allowed_types := ["png"; "jpg"; "jpeg"; "webp"] |}.

(** A stand-in decoder: the first two bytes of the file are taken as its
    width and height in units of 64 pixels. *)
Definition sample_decoder (data : bytes) : exn + image_metadata :=
  match data with
  | bw :: bh :: _ =>
      inr {| img_format := Some "PNG"; img_mode := "RGB";
             img_width := 64 * Z.of_N (Byte.to_N bw);
             img_height := 64 * Z.of_N (Byte.to_N bh) |}
  | _ => inl (OtherError "cannot identify image file")
  end.

(** The glob patterns of the routes end in a star: a prefix test. *)
Definition prefix_glob (name pattern : string) : bool :=
  startswith name (substring 0 (String.length pattern - 1) pattern).

Definition never_fails (file_path : string) : bool := false.

(** A request for a format the service does not offer. *)
Definition json_request : GenerateCodeRequest :=
  {| image_id := "7f3a"; output_format := "json";
     include_explanation := true |}.

(** The same request for an identifier under which nothing is stored. *)
Definition unknown_json_request : GenerateCodeRequest :=
  {| image_id := "0000"; output_format := "json";
     include_explanation := true |}.

(** A request whose identifier makes the lookup pattern absolute. *)
Definition rooted_request : GenerateCodeRequest :=
  {| image_id := "/x"; output_format := "terraform";
     include_explanation := true |}.

(** A file whose header says 64 by 320 pixels. *)
Definition narrow_image : bytes := [Byte.x01; Byte.x05; Byte.x00].

(** A stand-in for Pillow whose images are a mode and a size only.  A
    file is five bytes: width and height, two bytes each, and a mode
    byte.  As in Pillow, [autocontrast] raises on every mode but L and
    RGB. *)
Definition toy_mode (b : Byte.byte) : string :=
  match Byte.to_N b with
  | 0%N => "RGB"
  | 1%N => "RGBA"
  | _ => "LA"
  end.

Definition toy_open (data : bytes) : exn + string * (Z * Z) :=
  match data with
  | [w1; w0; h1; h0; m] =>
      inr (toy_mode m,
           (256 * Z.of_N (Byte.to_N w1) + Z.of_N (Byte.to_N w0),
            256 * Z.of_N (Byte.to_N h1) + Z.of_N (Byte.to_N h0)))%Z
  | _ => inl (OtherError "cannot identify image file")
  end.

Definition toy_pil : PIL :=
  {| Img := string * (Z * Z);
     mode := fst;
     size := snd;
     Image_open := toy_open;
     convert := fun i m => inr (m, snd i);
     resize_lanczos := fun i sz => inr (fst i, sz);
     enhance_contrast := fun i _ => inr i;
     enhance_sharpness := fun i _ => inr i;
     autocontrast := fun i _ =>
       if Validators.in_list (fst i) ["L"; "RGB"] then inr i
       else inl (OtherError ("OSError: not supported for mode " ++ fst i));
     new_image := fun m sz _ => (m, sz);
     paste_alpha := fun bg _ => inr bg;
     save_png := fun i => inr [] |}.

(** 4096 by 1500 pixels, RGBA. *)
Definition wide_rgba_file : bytes :=
  [Byte.x10; Byte.x00; Byte.x05; Byte.xdc; Byte.x01].

(** 4096 by 1500 pixels, RGB. *)
Definition wide_rgb_file : bytes :=
  [Byte.x10; Byte.x00; Byte.x05; Byte.xdc; Byte.x00].

(** 4096 by 1500 pixels, grey with an alpha band. *)
Definition wide_la_file : bytes :=
  [Byte.x10; Byte.x00; Byte.x05; Byte.xdc; Byte.x02].

(** 2215 by 2215 pixels, RGB. *)
Definition square_file : bytes :=
  [Byte.x08; Byte.xa7; Byte.x08; Byte.xa7; Byte.x00].

Definition image_world (data : bytes) : world unit :=
  {| provider_state := tt; calls := [];
     uploads := {[ sample_image := data ]}; tasks := [] |}.

End Samples.

(** ** Characters of a string *)

Module Chars.

(** Every character of [s] satisfies [p]. *)
Fixpoint all_chars (p : ascii -> bool) (s : string) : bool :=
  match s with
  | EmptyString => true
  | String c s' => (p c && all_chars p s')%bool
  end.

(** [s] with [f] applied to each character. *)
Fixpoint map_chars (f : ascii -> ascii) (s : string) : string :=
  match s with
  | EmptyString => EmptyString
  | String c s' => String (f c) (map_chars f s')
  end.

(** The characters [sanitize_filename] replaces, and the path separator. *)
Definition unsafe_in_filename (c : ascii) : bool :=
  existsb (Ascii.eqb c) ["/"; "<"; ">"; ":"; Py.dquote; "|"; "?"; "*"]%char.

(** Any character but the line feed. *)
Definition not_nl (c : ascii) : bool := negb (Ascii.eqb c Py.nl).

(** [p] differs from [s] at a position both have: [s], whatever is
    appended to it, does not start with [p]. *)
Fixpoint clash (p s : string) : bool :=
  match p, s with
  | String a p', String b s' => if Ascii.eqb a b then clash p' s' else true
  | _, _ => false
  end.

(** No occurrence of [p] starts inside [h], whatever text follows [h]. *)
Fixpoint inert (p h : string) : bool :=
  match h with
  | EmptyString => true
  | String _ h' => (clash p h && inert p h')%bool
  end.

(** What the seven replacements of [sanitize_filename] make of one
    character. *)
Definition cleaned_char (d : ascii) : ascii :=
  fold_left (fun acc c => if Ascii.eqb c acc then "_"%char else acc)
            ["<"; ">"; ":"; Py.dquote; "|"; "?"; "*"]%char d.

(** The file name as [sanitize_filename] has it before the length check. *)
Definition cleaned_name (filename : string) : string :=
  UploadValidators.replace_chars
    ["<"; ">"; ":"; Py.dquote; "|"; "?"; "*"]%char
    (UploadValidators.path_name filename).

End Chars.

(** ** utils/formatters.py: the other tools of [CodeFormatter] *)

Module FormatterTools.
Import Py Re CodeFormatter.

(** [str.isalpha] on one character. *)
Definition isalpha (c : ascii) : bool :=
  let n := ord c in
  (between 65 90 n || between 97 122 n || N.eqb n 170 || N.eqb n 181
   || N.eqb n 186 || between 192 214 n || between 216 246 n
   || between 248 255 n)%bool.

(** The class [[a-zA-Z0-9_-]]; the pattern of [sanitize_resource_name] is
    its complement. *)
Definition name_char (c : ascii) : bool :=
  let n := ord c in
  (between 97 122 n || between 65 90 n || between 48 57 n
   || Ascii.eqb c "_" || Ascii.eqb c "-")%bool.

Definition invalid_name_char (c : ascii) : bool := negb (name_char c).

(** One of the 52 letters a-z, A-Z. *)
Definition ascii_letter (c : ascii) : bool :=
  (between 65 90 (ord c) || between 97 122 (ord c))%bool.

(** [sanitize_resource_name(name)] *)
Definition sanitize_resource_name (name : string) : string :=
  let sanitized := sub false (Cls invalid_name_char) "_" name in
  let sanitized :=
    match sanitized with
    | String c _ =>
        if negb (isalpha c) then "resource_" ++ sanitized else sanitized
    | EmptyString => sanitized
    end in
  let max_length := 63 in
  let sanitized :=
    if Nat.ltb max_length (String.length sanitized)
    then substring 0 max_length sanitized
    else sanitized in
  if is_empty sanitized then "resource" else sanitized.

(** [<<(\w+)] *)
Definition heredoc_pattern : regex := seqs [lit "<<"; Grp (Plus isword)].

(** [re.search(r, s)]: group 1 of the leftmost match, if there is one. *)
Definition search_group (ic : bool) (r : regex) (s : string) : option string :=
  match scan ic r 0 None s with
  | m :: _ => Some (match snd m with Some g => g | None => EmptyString end)
  | [] => None
  end.

(** The loop of [format_terraform] over the lines, carrying
    [indent_level] and, inside a heredoc, its marker. *)
Fixpoint format_lines (lines : list string) (indent_level : nat)
    (heredoc_marker : option string) : list string :=
  match lines with
  | [] => []
  | line :: lines' =>
      let stripped := strip line in
      match heredoc_marker with
      | Some marker =>
          line :: format_lines lines' indent_level
                    (if String.eqb stripped marker then None else Some marker)
      | None =>
          match (if contains "<<" line
                 then search_group false heredoc_pattern line
                 else None) with
          | Some marker =>
              (repeat_str "  " indent_level ++ stripped)
                :: format_lines lines' indent_level (Some marker)
          | None =>
              if is_empty stripped
              then EmptyString :: format_lines lines' indent_level None
              else
                let indent_level :=
                  if (startswith stripped "}" || startswith stripped "]")%bool
                  then Nat.max 0 (indent_level - 1)
                  else indent_level in
                (repeat_str "  " indent_level ++ stripped)
                  :: format_lines lines'
                       (if (endswith stripped "{" || endswith stripped "[")%bool
                        then indent_level + 1 else indent_level)
                       None
          end
      end
  end.

(** [format_terraform(code)] *)
Definition format_terraform (code : string) : string :=
  join (chr nl) (format_lines (split nl code) 0 None).

Definition NL : string := chr nl.

Definition terraform_header : string :=
  "# Generated by Arch-I-Tect" ++ NL
  ++ "# This Terraform configuration was automatically generated from an architecture diagram."
  ++ NL
  ++ "# Please review and modify as needed before applying." ++ NL ++ NL.

Definition cloudformation_header : string :=
  "# Generated by Arch-I-Tect" ++ NL
  ++ "# This CloudFormation template was automatically generated from an architecture diagram."
  ++ NL
  ++ "# Please review and modify as needed before deploying." ++ NL ++ NL.

(** [add_header_comment(code, format_type)] *)
Definition add_header_comment (code format_type : string) : string :=
  let header :=
    if String.eqb (lower format_type) "terraform" then terraform_header
    else cloudformation_header in
  header ++ code.

End FormatterTools.

(** ** services/prompt_manager.py: [enhance_prompt_with_examples] *)

Module PromptExamples.
Import Py PromptManager.

(** The dict [resource_guidance]. *)
Definition resource_guidance_items : list (string * string) :=
  [("EC2", "Include instance type, AMI, security groups, and key pair");
   ("RDS", "Include engine, instance class, storage, and backup configuration");
   ("S3", "Include bucket policies, versioning, and lifecycle rules");
   ("Lambda", "Include runtime, handler, timeout, and memory settings");
   ("VPC", "Include CIDR blocks, subnets, route tables, and gateways");
   ("ALB", "Include target groups, listeners, and health checks");
   ("ECS", "Include task definitions, services, and cluster configuration")].

Definition resource_guidance : gmap string string :=
  list_to_map resource_guidance_items.

(** The loop that collects the example lines. *)
Fixpoint example_lines (resource_types : list string) : list string :=
  match resource_types with
  | [] => []
  | resource :: rest =>
      match resource_guidance !! upper resource with
      | Some guidance =>
          ("- " ++ resource ++ ": " ++ guidance) :: example_lines rest
      | None => example_lines rest
      end
  end.

(** [enhance_prompt_with_examples(base_prompt, resource_types)] *)
Definition enhance_prompt_with_examples (base_prompt : string)
    (resource_types : list string) : string :=
  match resource_types with
  | [] => base_prompt
  | _ :: _ =>
      match example_lines resource_types with
      | [] => base_prompt
      | examples =>
          base_prompt
            ++ (NL ++ NL ++ "For the detected resources, ensure you include:"
                ++ NL ++ join NL examples)
      end
  end.

End PromptExamples.

(** ** Configuration: [validate_environment] and the choice of the client *)

Module Environment.
Import Py Validators UploadValidators.

(** [os.getenv(name)] on the process environment [e]. *)
Definition getenv (e : gmap string string) (name : string) : option string :=
  e !! name.

(** [os.getenv(name, default)] *)
Definition getenv_or (e : gmap string string) (name default : string) : string :=
  match e !! name with Some v => v | None => default end.

(** Truth of an optional string: set and not empty. *)
Definition truthy (o : option string) : bool :=
  match o with Some v => negb (is_empty v) | None => false end.

(** [a or b] *)
Definition or_ (a b : option string) : option string :=
  if truthy a then a else b.

Definition required_vars : list string :=
  ["LLM_PROVIDER"; "MAX_IMAGE_SIZE_MB"; "ALLOWED_IMAGE_TYPES"].

(** [validate_environment()] *)
Definition validate_environment (e : gmap string string) : exn + unit :=
  let missing_vars :=
    List.filter (fun var => negb (truthy (getenv e var))) required_vars in
  match missing_vars with
  | _ :: _ =>
      inl (ValueError ("Missing required environment variables: "
                       ++ join ", " missing_vars))
  | [] =>
      let llm_provider := lower (getenv_or e "LLM_PROVIDER" EmptyString) in
      if String.eqb llm_provider "ollama" then
        if negb (truthy (getenv e "OLLAMA_BASE_URL")) then
          inl (ValueError "OLLAMA_BASE_URL is required when using Ollama provider")
        else if negb (truthy (getenv e "OLLAMA_MODEL")) then
          inl (ValueError "OLLAMA_MODEL is required when using Ollama provider")
        else inr tt
      else if String.eqb llm_provider "openai" then
        if negb (truthy (getenv e "OPENAI_API_KEY")) then
          inl (ValueError "OPENAI_API_KEY is required when using OpenAI provider")
        else inr tt
      else if String.eqb llm_provider "anthropic" then
        if negb (truthy (getenv e "ANTHROPIC_API_KEY")) then
          inl (ValueError "ANTHROPIC_API_KEY is required when using Anthropic provider")
        else inr tt
      else
        inl (ValueError ("Invalid LLM_PROVIDER: " ++ llm_provider
                         ++ ". Must be one of: ollama, openai, anthropic"))
  end.

(** What the constructors of the three clients keep. *)
Inductive client : Type :=
| Ollama (base_url model_name : string)
| OpenAI (api_key model_name : string)
| Anthropic (api_key model_name : string).

Definition value_or (o : option string) (default : string) : string :=
  match o with
  | Some v => if is_empty v then default else v
  | None => default
  end.

(** [OllamaClient(base_url, model_name)] *)
Definition OllamaClient (base_url model_name : option string) : exn + client :=
  inr (Ollama (rstrip_char "/" (value_or base_url "http://localhost:11434"))
              (value_or model_name "llava")).

(** [OpenAIClient(api_key, model_name)] *)
Definition OpenAIClient (e : gmap string string)
    (api_key model_name : option string) : exn + client :=
  let model := value_or model_name "gpt-4-vision-preview" in
  let key := or_ api_key (getenv e "OPENAI_API_KEY") in
  if negb (truthy key) then inl (ValueError "OpenAI API key is required")
  else inr (OpenAI (value_or key EmptyString) model).

(** [AnthropicClient(api_key, model_name)] *)
Definition AnthropicClient (e : gmap string string)
    (api_key model_name : option string) : exn + client :=
  let model := value_or model_name "claude-3-opus-20240229" in
  let key := or_ api_key (getenv e "ANTHROPIC_API_KEY") in
  if negb (truthy key) then inl (ValueError "Anthropic API key is required")
  else inr (Anthropic (value_or key EmptyString) model).

(** [IaCGenerator._initialize_llm_client()] *)
Definition _initialize_llm_client (e : gmap string string) : exn + client :=
  let provider := lower (getenv_or e "LLM_PROVIDER" EmptyString) in
  if String.eqb provider "ollama" then
    OllamaClient (getenv e "OLLAMA_BASE_URL") (getenv e "OLLAMA_MODEL")
  else if String.eqb provider "openai" then
    OpenAIClient e (getenv e "OPENAI_API_KEY")
                 (Some (getenv_or e "OPENAI_MODEL" "gpt-4-vision-preview"))
  else if String.eqb provider "anthropic" then
    AnthropicClient e (getenv e "ANTHROPIC_API_KEY")
                    (Some (getenv_or e "ANTHROPIC_MODEL" "claude-3-opus-20240229"))
  else inl (ValueError ("Unknown LLM provider: " ++ provider)).

(** [supports_images()] of the three clients. *)
Definition client_supports_images (c : client) : bool :=
  match c with
  | Ollama _ model_name =>
      let model_base := lower (hd EmptyString (split ":" model_name)) in
      in_list model_base
              ["llava"; "bakllava"; "llava-v1.5"; "llava-v1.6"; "cogvlm"]
  | OpenAI _ model_name =>
      existsb (fun vm => contains vm model_name)
              ["gpt-4-vision-preview"; "gpt-4-turbo"; "gpt-4o"]
  | Anthropic _ model_name => contains "claude-3" model_name
  end.

End Environment.

(** ** api/routes.py and services/iac_generator.py: the other operations *)

Module Operations.
Import Py Re CodeFormatter LLMInterface PromptManager World IaCGenerator
       Routes.
Local Open Scope pipeline_scope.

Record StatusResponse : Type :=
  { s_image_id : string; s_status : string;
    s_original_exists : bool; s_processed_exists : bool }.

Section Operations.
Context {W : Type}.
Variable llm_client : LLMClient W.
Variable prompt_templates : templates.
Variable prepare_for_llm : bytes -> exn + image_data.
Variable fnmatch : string -> string -> bool.

(** [processed_path.exists()] *)
Definition processed_exists (image_id : string) (w : world W) : bool :=
  match uploads w !! (image_id ++ "_processed.png") with
  | Some _ => true
  | None => false
  end.

(** [check_status(image_id)] *)
Definition check_status (image_id : string) : M W StatusResponse :=
  original_files <- glob_uploads fnmatch (image_id ++ "_*") ;;
  match original_files with
  | [] =>
      raise (HTTPException 404 ("Image with ID " ++ image_id ++ " not found"))
  | _ :: _ =>
      fun w =>
        let is_processed := processed_exists image_id w in
        (inr {| s_image_id := image_id;
                s_status := if is_processed then "processed" else "processing";
                s_original_exists := true;
                s_processed_exists := is_processed |}, w)
  end.

(** [preview_image(image_id)]: the path of the file that is served. *)
Definition preview_image (image_id : string) : M W string :=
  image_files <- glob_uploads fnmatch (image_id ++ "_*") ;;
  match image_files with
  | [] =>
      raise (HTTPException 404 ("Image with ID " ++ image_id ++ " not found"))
  | image_path :: _ =>
      fun w =>
        (inr (if processed_exists image_id w
              then image_id ++ "_processed.png" else image_path), w)
  end.

(** [explain_architecture(image_path)] *)
Definition explain_architecture (image_path : string) : M W string :=
  image_data <- read_image prepare_for_llm image_path ;;
  let image_input :=
    {| base64 := d_base64 image_data;
       mime_type := d_mime_type image_data;
       metadata := None |} in
  let prompt := architecture_explanation prompt_templates in
  response <- call_generate llm_client prompt (Some [image_input]) (3 # 10)
                (Some 2000%Z) ;;
  ret (content response).

End Operations.

(** The metadata [validate_image_file] reports for a decoded header. *)
Definition reported_metadata (content : bytes) (image : image_metadata)
  : UploadValidators.upload_metadata :=
  {| UploadValidators.m_format := img_format image;
     UploadValidators.m_mode := img_mode image;
     UploadValidators.m_size := (img_width image, img_height image);
     UploadValidators.m_width := img_width image;
     UploadValidators.m_height := img_height image;
     UploadValidators.m_file_size_mb :=
       Z.of_nat (List.length content) # 1048576 |}.

(** A computation keeps the storage when it leaves the uploads directory
    and the registered background tasks as they were. *)
Definition keeps_storage {W A : Type} (c : M W A) : Prop :=
  forall w : world W,
    uploads (snd (c w)) = uploads w /\ tasks (snd (c w)) = tasks w.

End Operations.

(** ** More concrete inputs *)

Module MoreSamples.
Import Py CodeFormatter LLMInterface PromptManager World IaCGenerator
       UploadValidators Routes ImageProcessor Samples Environment.

(** A provider that reports itself unavailable. *)
Definition offline : LLMClient (list string) :=
  {| provider_name := "offline";
     is_available := fun script => (false, script);
     supports_images := true;
     generate := generate scripted |}.

(** A file whose header says 512 by 320 pixels. *)
Definition good_image : bytes := [Byte.x08; Byte.x05; Byte.x00].

Definition good_header : image_metadata :=
  {| img_format := Some "PNG"; img_mode := "RGB";
     img_width := 512; img_height := 320 |}.

Definition always_fails (file_path : string) : bool := true.

(** The first call of a run on the sample image, for Terraform. *)
Definition sample_first_call : event :=
  EvGenerate "Generate Terraform for this diagram."
             (Some [as_image_input sample_data]) (1 # 10) (Some 4000%Z).

End MoreSamples.

(** * Properties *)

Import Py Re CodeFormatter Validators LLMInterface PromptManager World
       IaCGenerator UploadValidators Routes ImageProcessor Samples.

(** ** Strings *)

Lemma is_empty_true (s : string) : is_empty s = true <-> s = EmptyString.
Proof. destruct s; simpl; split; congruence. Qed.

Lemma is_empty_false (s : string) : is_empty s = false <-> s <> EmptyString.
Proof. destruct s; simpl; split; congruence. Qed.

Lemma in_list_In (x : string) (xs : list string) :
  in_list x xs = true <-> In x xs.
Proof.
  unfold in_list. rewrite existsb_exists. split.
  - intros (y & Hy & He). apply String.eqb_eq in He. now subst.
  - intros H. exists x. split; [assumption | apply String.eqb_refl].
Qed.

Lemma in_list_not_In (x : string) (xs : list string) :
  in_list x xs = false <-> ~ In x xs.
Proof.
  rewrite <- in_list_In. destruct (in_list x xs); split; congruence.
Qed.

Lemma startswith_contains (p s : string) :
  startswith s p = true -> contains p s = true.
Proof. intros H. destruct s; simpl in *; rewrite H; reflexivity. Qed.

Lemma contains_tail (p : string) (c : ascii) (s : string) :
  contains p s = true -> contains p (String c s) = true.
Proof. intros H. simpl. rewrite H. apply orb_true_r. Qed.

Lemma contains_app_l (p pre s : string) :
  contains p s = true -> contains p (pre ++ s) = true.
Proof.
  intros H. induction pre as [|c pre IH]; [exact H|].
  simpl append. now apply contains_tail.
Qed.

(** ** C5: CloudFormation validation *)

Lemma first_missing_required (code : string) :
  first_missing required_keys code =
    if negb (contains "AWSTemplateFormatVersion" code)
    then Some "AWSTemplateFormatVersion"
    else if negb (contains "Resources" code) then Some "Resources"
    else None.
Proof. reflexivity. Qed.

(** C5, as stated, fails: a document that includes both required keys is
    rejected when it does not begin with [AWSTemplateFormatVersion:]. *)
Lemma cfn_both_keys_rejected :
  contains "AWSTemplateFormatVersion" cfn_resources_first = true
  /\ contains "Resources" cfn_resources_first = true
  /\ validate_cloudformation_syntax cfn_resources_first
     = (false, Some "Template must start with AWSTemplateFormatVersion").
Proof. repeat split; vm_compute; reflexivity. Qed.

(** C5 (amended): CloudFormation validation fails, citing the missing key,
    on every document that lacks [AWSTemplateFormatVersion]; it passes on
    every document that includes both required keys and, stripped of
    surrounding whitespace, begins with [AWSTemplateFormatVersion:]. *)
Theorem cloudformation_validation (code : string) :
  (contains "AWSTemplateFormatVersion" code = false ->
   validate_cloudformation_syntax code
   = (false, Some "Missing required key: AWSTemplateFormatVersion"))
  /\ (contains "AWSTemplateFormatVersion" code = true ->
      contains "Resources" code = true ->
      startswith (strip code) "AWSTemplateFormatVersion:" = true ->
      validate_cloudformation_syntax code = (true, None)).
Proof.
  unfold validate_cloudformation_syntax. rewrite first_missing_required.
  split.
  - intros ->. reflexivity.
  - intros -> -> ->. reflexivity.
Qed.

Lemma cloudformation_validation_witness :
  validate_cloudformation_syntax cfn_without_version
  = (false, Some "Missing required key: AWSTemplateFormatVersion")
  /\ validate_cloudformation_syntax cfn_template = (true, None).
Proof.
  split.
  - apply (proj1 (cloudformation_validation cfn_without_version)).
    vm_compute; reflexivity.
  - apply (proj2 (cloudformation_validation cfn_template));
      vm_compute; reflexivity.
Defined.

(** ** C6: Terraform validation on the two sample inputs *)

(** C6: Terraform validation passes on [resource "x" "y" {\n a = 1\n}];
    on the same text with the opening brace removed it fails and the
    reason reports the brace imbalance. *)
Theorem terraform_validation_samples :
  validate_terraform_syntax tf_block = (true, None)
  /\ tf_block_unbalanced = replace tf_block "{" EmptyString
  /\ validate_terraform_syntax tf_block_unbalanced
     = (false, Some "Unbalanced braces: 0 open, 1 close").
Proof. repeat split; vm_compute; reflexivity. Qed.

(** ** C10: the assertions of [validate_llm_response] *)

(** C10: on an empty response, or on a format other than terraform and
    cloudformation, [validate_llm_response] raises [AssertionError] and
    returns no verdict; on a non-empty response and one of the two formats
    no assertion fires and a verdict pair is returned. *)
Theorem validate_llm_response_assertions (response expected_format : string) :
  (response = EmptyString ->
   validate_llm_response response expected_format
   = inl (AssertionError "Response cannot be empty"))
  /\ (response <> EmptyString -> ~ In expected_format formats ->
      validate_llm_response response expected_format
      = inl (AssertionError ("Invalid format: " ++ expected_format)))
  /\ (response <> EmptyString -> In expected_format formats ->
      exists verdict : bool * option string,
        validate_llm_response response expected_format = inr verdict).
Proof.
  unfold validate_llm_response. split; [| split].
  - intros ->. reflexivity.
  - intros Hne Hfmt. apply is_empty_false in Hne. rewrite Hne.
    apply in_list_not_In in Hfmt. rewrite Hfmt. reflexivity.
  - intros Hne Hfmt. apply is_empty_false in Hne. rewrite Hne.
    apply in_list_In in Hfmt. rewrite Hfmt. cbn [negb].
    destruct (contains "```" response); cbn [negb];
      [| eexists; reflexivity].
    destruct (String.eqb expected_format "terraform").
    + match goal with
      | |- context [existsb ?f ?l] => destruct (existsb f l)
      end; eexists; reflexivity.
    + destruct (String.eqb expected_format "cloudformation");
        [| eexists; reflexivity].
      match goal with
      | |- context [existsb ?f ?l] => destruct (existsb f l)
      end; eexists; reflexivity.
Qed.

Lemma validate_llm_response_assertions_witness :
  validate_llm_response EmptyString "terraform"
  = inl (AssertionError "Response cannot be empty")
  /\ validate_llm_response "resource" "hcl"
     = inl (AssertionError "Invalid format: hcl")
  /\ exists verdict, validate_llm_response "resource" "terraform" = inr verdict.
Proof.
  split; [| split].
  - apply (proj1 (validate_llm_response_assertions EmptyString "terraform")).
    reflexivity.
  - apply (proj1 (proj2 (validate_llm_response_assertions "resource" "hcl"))).
    + discriminate.
    + vm_compute. intros [H | [H | []]]; discriminate.
  - apply (proj2 (proj2 (validate_llm_response_assertions "resource" "terraform"))).
    + discriminate.
    + vm_compute. left; reflexivity.
Defined.

(** ** The matcher *)

Lemma is_suffix_refl (s : string) : is_suffix s s.
Proof. exists EmptyString. reflexivity. Qed.

Lemma append_cons (c : ascii) (a b : string) :
  String c a ++ b = String c (a ++ b).
Proof. reflexivity. Qed.

Lemma append_assoc (a b c : string) : (a ++ b) ++ c = a ++ (b ++ c).
Proof.
  induction a as [|x a IH]; [reflexivity|].
  rewrite !append_cons. f_equal. exact IH.
Qed.

Lemma is_suffix_trans (a b c : string) :
  is_suffix a b -> is_suffix b c -> is_suffix a c.
Proof.
  intros [p ->] [q ->]. exists (q ++ p). symmetry. apply append_assoc.
Qed.

Lemma is_suffix_tail (c : ascii) (s : string) : is_suffix s (String c s).
Proof. exists (String c EmptyString). reflexivity. Qed.

Lemma suffix_startswith_contains (p t s : string) :
  is_suffix t s -> startswith t p = true -> contains p s = true.
Proof.
  intros [pre ->] H. apply contains_app_l. now apply startswith_contains.
Qed.

Lemma orelse_some {A} (a b : option A) (x : A) :
  orelse a b = Some x -> a = Some x \/ b = Some x.
Proof. destruct a; simpl; auto. Qed.

Lemma orelse_none {A} (a b : option A) :
  orelse a b = None <-> a = None /\ b = None.
Proof.
  destruct a; simpl; split.
  - discriminate.
  - intros [H _]. discriminate H.
  - auto.
  - intros [_ H]. exact H.
Qed.

Lemma step1_suffix (p : ascii -> bool) (st : mstate)
    (k : mstate -> option mstate) (res : mstate) :
  step1 p st k = Some res ->
  exists st', is_suffix (rest st') (rest st) /\ k st' = Some res.
Proof.
  unfold step1. destruct (rest st) as [|d s'] eqn:E; [discriminate|].
  destruct (p d); [|discriminate]. intros H.
  eexists. split; [|exact H]. simpl. apply is_suffix_tail.
Qed.

(** A successful run hands its continuation a state further on in the
    text. *)
Lemma run_suffix (ic : bool) (r : regex) :
  forall (st : mstate) (k : mstate -> option mstate) (res : mstate),
    run ic r st k = Some res ->
    exists st', is_suffix (rest st') (rest st) /\ k st' = Some res.
Proof.
  induction r as [|c|p|r1 IH1 r2 IH2|r1 IH1 r2 IH2|g p|r1 IH1|];
    intros st k res H; simpl in H.
  - exists st. split; [apply is_suffix_refl | exact H].
  - now apply step1_suffix in H.
  - now apply step1_suffix in H.
  - apply IH1 in H as (st1 & S1 & H). apply IH2 in H as (st2 & S2 & H).
    exists st2. split; [eapply is_suffix_trans; eassumption | exact H].
  - unfold orelse in H. destruct (run ic r1 st k) eqn:E1.
    + injection H as <-. now apply IH1 in E1.
    + now apply IH2 in H.
  - revert H. generalize (prev st). generalize (rest st) as s.
    induction s as [|d s' IHs]; intros pv H.
    + assert (Hk : k (MState pv EmptyString (cap st)) = Some res)
        by (destruct g; apply orelse_some in H as [H | H];
            (exact H || discriminate H)).
      exists (MState pv EmptyString (cap st)).
      split; [apply is_suffix_refl | exact Hk].
    + assert (Hor : (if p d
                     then (fix loop (pv : option ascii) (s : string) {struct s}
                             : option mstate :=
                             let stop := k (MState pv s (cap st)) in
                             let more :=
                               match s with
                               | String d s' =>
                                   if p d then loop (Some d) s' else None
                               | EmptyString => None
                               end in
                             if g then orelse more stop else orelse stop more)
                            (Some d) s'
                     else None) = Some res
                    \/ k (MState pv (String d s') (cap st)) = Some res)
        by (destruct g; apply orelse_some in H as [H | H]; auto).
      destruct Hor as [Hmore | Hstop].
      * destruct (p d); [|discriminate].
        apply IHs in Hmore as (st' & S' & E).
        exists st'. split; [|exact E].
        eapply is_suffix_trans; [exact S' | apply is_suffix_tail].
      * exists (MState pv (String d s') (cap st)).
        split; [apply is_suffix_refl | exact Hstop].
  - apply IH1 in H as (st1 & S1 & H). eexists. split; [|exact H]. exact S1.
  - destruct (xorb _ _); [|discriminate].
    exists st. split; [apply is_suffix_refl | exact H].
Qed.

Lemma run_seq (ic : bool) (r1 r2 : regex) (st : mstate)
    (k : mstate -> option mstate) :
  run ic (Seq r1 r2) st k = run ic r1 st (fun st' => run ic r2 st' k).
Proof. reflexivity. Qed.

Lemma ascii_eqb_true (a b : ascii) : Ascii.eqb a b = true -> a = b.
Proof. apply Ascii.eqb_eq. Qed.

(** Reading a literal (case-sensitively) is a prefix test. *)
Lemma run_lit_eq (p : string) :
  forall (st : mstate) (k : mstate -> option mstate),
    run false (lit p) st k
    = if startswith (rest st) p then k (after_lit p st) else None.
Proof.
  induction p as [|c p IH]; intros [pv s cp] k.
  - destruct s; reflexivity.
  - destruct p as [|c2 p'].
    + cbn [lit run]. unfold step1, after_lit. cbn [rest prev cap].
      destruct s as [|d s']; [reflexivity|].
      cbn [startswith chr_eq String.length drop last_of].
      destruct (Ascii.eqb c d) eqn:E; [|reflexivity].
      apply ascii_eqb_true in E. subst d. destruct s'; reflexivity.
    + change (lit (String c (String c2 p')))
        with (Seq (Chr c) (lit (String c2 p'))).
      cbn [run]. unfold step1. cbn [rest prev cap].
      destruct s as [|d s']; [reflexivity|].
      cbn [chr_eq]. change (startswith (String d s') (String c (String c2 p')))
        with (Ascii.eqb c d && startswith s' (String c2 p'))%bool.
      destruct (Ascii.eqb c d) eqn:E; [|reflexivity].
      apply ascii_eqb_true in E. subst d.
      rewrite IH. reflexivity.
Qed.

(** A lazy [.*?] followed by a literal finds the literal wherever it next
    occurs. *)
Lemma lazy_until_none (p : string) (cp : option string) :
  forall (s : string) (pv : option ascii),
    run false (Seq (Star false any_char) (lit p)) (MState pv s cp) Some = None
    <-> contains p s = false.
Proof.
  cbn [run rest prev cap].
  induction s as [|d s' IH]; intros pv.
  - rewrite orelse_none, run_lit_eq. cbn [rest contains].
    destruct (startswith EmptyString p); split; intros; try tauto;
      try discriminate; destruct H; discriminate.
  - rewrite orelse_none, run_lit_eq. cbn [rest contains any_char].
    rewrite (IH (Some d)).
    destruct (startswith (String d s') p); cbn [orb].
    + split; [intros [H _]; discriminate H | discriminate].
    + tauto.
Qed.

Lemma fenced_none_iff (pv : option ascii) (s : string) :
  match_at false fenced_pattern pv s = None
  <-> startswith s fence = false \/ contains fence (drop 3 s) = false.
Proof.
  unfold match_at, fenced_pattern.
  change (seqs [lit fence; Star false any_char; lit fence])
    with (Seq (lit fence) (Seq (Star false any_char) (lit fence))).
  change (run false (Seq (lit fence) (Seq (Star false any_char) (lit fence)))
              (MState pv s None) Some)
    with (run false (lit fence) (MState pv s None)
              (fun st' => run false (Seq (Star false any_char) (lit fence))
                              st' Some)).
  rewrite run_lit_eq. cbn [rest].
  destruct (startswith s fence).
  - unfold after_lit. cbn [rest prev cap]. rewrite lazy_until_none.
    change (String.length fence) with 3. split; [auto | intros [H | H]].
    + discriminate H.
    + exact H.
  - split; auto.
Qed.

(** A block pattern only matches where a fenced block starts. *)
Lemma block_none (hint : regex) (pv : option ascii) (s : string) :
  match_at false fenced_pattern pv s = None ->
  match_at false (block_pattern hint) pv s = None.
Proof.
  rewrite fenced_none_iff. intros Hno.
  destruct (match_at false (block_pattern hint) pv s) as [res|] eqn:E;
    [exfalso | reflexivity].
  unfold match_at, block_pattern in E.
  change (seqs [lit fence; hint; Chr nl; Grp (Star false any_char); lit fence])
    with (Seq (lit fence)
              (Seq hint (Seq (Chr nl)
                             (Seq (Grp (Star false any_char)) (lit fence)))))
    in E.
  rewrite run_seq, run_lit_eq in E. cbn [rest] in E.
  destruct (startswith s fence) eqn:Hs; [|discriminate E].
  destruct Hno as [Hno | Hno]; [discriminate Hno|].
  rewrite run_seq in E. apply run_suffix in E as (st1 & S1 & E).
  rewrite run_seq in E. apply run_suffix in E as (st2 & S2 & E).
  rewrite run_seq in E. apply run_suffix in E as (st3 & S3 & E).
  rewrite run_lit_eq in E.
  destruct (startswith (rest st3) fence) eqn:Hf; [|discriminate E].
  assert (Hc : contains fence (drop 3 s) = true).
  { apply (suffix_startswith_contains fence (rest st3)); [|exact Hf].
    eapply is_suffix_trans; [exact S3|].
    eapply is_suffix_trans; [exact S2|]. exact S1. }
  congruence.
Qed.

Lemma no_match_block (hint : regex) :
  forall (s : string) (pv : option ascii),
    no_match false fenced_pattern pv s ->
    no_match false (block_pattern hint) pv s.
Proof.
  induction s as [|c s IH]; intros pv [H Hs]; split;
    try (now apply block_none); auto.
Qed.

Lemma scan_nil (ic : bool) (r : regex) :
  forall (s : string) (pv : option ascii),
    scan ic r 0 pv s = [] <-> no_match ic r pv s.
Proof.
  induction s as [|c s IH]; intros pv; cbn [scan no_match].
  - destruct (match_at ic r pv EmptyString); split.
    + discriminate.
    + intros [H _]. discriminate H.
    + auto.
    + reflexivity.
  - destruct (match_at ic r pv (String c s)); split.
    + discriminate.
    + intros [H _]. discriminate H.
    + intros H. split; [reflexivity | now apply IH].
    + intros [_ H]. now apply IH.
Qed.

Lemma findall_nil (ic : bool) (r : regex) (s : string) :
  findall ic r s = [] <-> no_match ic r None s.
Proof.
  unfold findall. rewrite <- scan_nil.
  destruct (scan ic r 0 None s); simpl; split; congruence.
Qed.

Lemma sub_no_match (ic : bool) (r : regex) (repl : string) :
  forall (s : string) (pv : option ascii),
    no_match ic r pv s -> sub_from ic r repl 0 pv s = s.
Proof.
  induction s as [|c s IH]; intros pv [H Hs]; cbn [sub_from].
  - reflexivity.
  - rewrite H. f_equal. now apply IH.
Qed.

(** A text without three backticks in a row has no fenced block. *)
Lemma no_backticks_no_fenced_block :
  forall (s : string) (pv : option ascii),
    contains fence s = false -> no_match false fenced_pattern pv s.
Proof.
  induction s as [|c s IH]; intros pv H; cbn [no_match].
  - split; [|exact I]. apply fenced_none_iff. left. reflexivity.
  - cbn [contains] in H. apply orb_false_iff in H as [H1 H2]. split.
    + apply fenced_none_iff. left. exact H1.
    + now apply IH.
Qed.

(** ** C1: responses without a fenced block *)

(** C1, as stated, fails for the response parser of the pipeline: on a
    text without any fenced block [_parse_architecture_response] returns
    the empty string as code, not the trimmed text. *)
Lemma parser_code_empty_without_fence :
  findall false fenced_pattern plain_answer = []
  /\ code (_parse_architecture_response plain_answer "terraform") = EmptyString
  /\ strip plain_answer = "Use an S3 bucket behind CloudFront.".
Proof. repeat split; vm_compute; reflexivity. Qed.

(** C1 (amended): for every text in which the fenced-block pattern finds
    nothing, [extract_code_block] returns the whole text, trimmed, when it
    is called without a language hint or with a hint that is a plain
    identifier; [_parse_architecture_response] returns the empty string as
    code and the trimmed text as explanation; and removing the fenced
    blocks leaves the text unchanged. *)
Theorem no_fenced_block_parsing (text : string)
    (language : option language_hint) (output_format : string) :
  findall false fenced_pattern text = [] ->
  extract_code_block text language = strip text
  /\ code (_parse_architecture_response text output_format) = EmptyString
  /\ explanation (_parse_architecture_response text output_format)
     = Some (strip text)
  /\ sub false fenced_pattern EmptyString text = text.
Proof.
  intros H. apply findall_nil in H.
  assert (Hblock : forall hint, findall false (block_pattern hint) text = [])
    by (intros hint; apply findall_nil; now apply no_match_block).
  assert (Hsub : sub false fenced_pattern EmptyString text = text)
    by (now apply sub_no_match).
  repeat split.
  - unfold extract_code_block.
    destruct language as [l|]; [destruct (is_empty (hint_text l))|];
      rewrite !Hblock; reflexivity.
  - unfold _parse_architecture_response, code_pattern. cbn [code].
    rewrite !Hblock. reflexivity.
  - unfold _parse_architecture_response. cbn [explanation].
    rewrite Hsub. reflexivity.
  - exact Hsub.
Qed.

Lemma no_fenced_block_parsing_witness :
  extract_code_block plain_answer (Some hcl_hint) = strip plain_answer
  /\ code (_parse_architecture_response plain_answer "terraform") = EmptyString
  /\ explanation (_parse_architecture_response plain_answer "terraform")
     = Some (strip plain_answer)
  /\ sub false fenced_pattern EmptyString plain_answer = plain_answer.
Proof.
  apply (no_fenced_block_parsing plain_answer (Some hcl_hint) "terraform").
  vm_compute. reflexivity.
Defined.

(** ** C8: detected resources *)

Lemma list_of_set_NoDup (xs : list string) : List.NoDup (list_of_set xs).
Proof. unfold list_of_set. apply NoDup_ListNoDup, NoDup_elements. Qed.

Lemma list_of_set_In (xs : list string) (x : string) :
  In x (list_of_set xs) <-> In x xs.
Proof.
  unfold list_of_set. rewrite <- !list_elem_of_In.
  rewrite elem_of_elements, elem_of_list_to_set. reflexivity.
Qed.

(** C8, as stated, fails: the parser keeps both spellings of a keyword
    that occurs in two letter cases, so its result has two members that are
    equal once case is ignored. *)
Lemma detected_resources_case_variants :
  ~ List.NoDup (map lower (detected_resources
                        (_parse_architecture_response two_spellings "terraform"))).
Proof.
  assert (E : map lower (detected_resources
                (_parse_architecture_response two_spellings "terraform"))
              = ["ec2"; "ec2"]) by (vm_compute; reflexivity).
  rewrite E. intros H. apply List.NoDup_cons_iff in H as [Hin _].
  apply Hin. left. reflexivity.
Qed.

(** C8 (amended): for every input text, the list of labels returned by the
    response parser, by [extract_resources_from_code] and by
    [identify_resources] has no member twice, members being compared as
    exact strings; the parser's list has the members of the matches found,
    no more and no fewer. *)
Theorem detected_resources_no_duplicates :
  (forall response fmt : string,
      let found := detected_resources (_parse_architecture_response response fmt) in
      List.NoDup found
      /\ forall x, In x found
                   <-> In x (findall true (keyword_pattern parser_keywords) response))
  /\ (forall code fmt : string,
         List.NoDup (extract_resources_from_code code fmt))
  /\ (forall (W : Type) (client : LLMClient W) (t : templates)
             (prepare : bytes -> exn + image_data) (image_path : string)
             (w w' : world W) (found : list string),
         identify_resources client t prepare image_path w = (inr found, w') ->
         List.NoDup found).
Proof.
  split; [| split].
  - intros response fmt. cbn. split.
    + apply list_of_set_NoDup.
    + intros x. apply list_of_set_In.
  - intros code fmt. unfold extract_resources_from_code.
    apply list_of_set_NoDup.
  - intros W client t prepare image_path w w' found.
    unfold identify_resources, World.bind, read_image, call_generate,
      World.ret.
    destruct (uploads w !! image_path); [|discriminate].
    destruct (prepare b); [discriminate|].
    destruct (generate client _ _ _ _ _) as [[e|r] p]; [discriminate|].
    intros [= <- _]. apply list_of_set_NoDup.
Qed.

Lemma detected_resources_no_duplicates_witness :
  List.NoDup ["S3"; "ec2"; "EC2"].
Proof.
  apply (proj2 (proj2 detected_resources_no_duplicates)
           (list string) scripted sample_templates sample_prepare sample_image
           (sample_world ["S3 in front of ec2, then EC2 and S3 again"])
           (log_call (EvGenerate "List the resources in this diagram."
                        (Some [{| base64 := "iVBORw0KGgo=";
                                  mime_type := "image/png";
                                  metadata := None |}])
                        (1 # 10) (Some 1000%Z))
                     [] (sample_world []))).
  vm_compute. reflexivity.
Defined.

(** ** The generation run *)

Section Run.
Context {W : Type}.
Variable client : LLMClient W.
Variable t : templates.
Variable prepare : bytes -> exn + image_data.

Lemma refine_output_run (initial : parsed) (reason : option string)
    (output_format : string) (w : world W) :
  let request := create_refinement_prompt (code initial)
                   (str_of_optional reason) output_format in
  _refine_output client initial reason output_format w
  = match generate client request None (1 # 10) (Some 4000%Z)
                   (provider_state w) with
    | (inr r2, p2) =>
        (inr (merged initial
                (_parse_architecture_response (content r2) output_format)),
         log_call (EvGenerate request None (1 # 10) (Some 4000%Z)) p2 w)
    | (inl e, p2) =>
        (inl e, log_call (EvGenerate request None (1 # 10) (Some 4000%Z)) p2 w)
    end.
Proof.
  cbv zeta. unfold _refine_output, World.bind, call_generate, World.ret.
  destruct (generate client _ _ _ _ _) as [[e|r2] p2]; reflexivity.
Qed.

(** The whole run when the first answer fails validation. *)
Lemma refined_run (image_path output_format : string)
    (include_explanation : bool) (w : world W) (data : bytes)
    (d : image_data) (p0 p1 : W) (prompt : string) (r1 : LLMResponse)
    (reason : option string) :
  uploads w !! image_path = Some data ->
  In output_format formats ->
  is_available client (provider_state w) = (true, p0) ->
  supports_images client = true ->
  prepare data = inr d ->
  get_architecture_prompt t output_format None = inr prompt ->
  generate client prompt (Some [as_image_input d]) (1 # 10) (Some 4000%Z) p0
  = (inr r1, p1) ->
  validate_llm_response (content r1) output_format = inr (false, reason) ->
  let initial := _parse_architecture_response (content r1) output_format in
  let request := create_refinement_prompt (code initial)
                   (str_of_optional reason) output_format in
  let w1 := log_call (EvGenerate prompt (Some [as_image_input d]) (1 # 10)
                        (Some 4000%Z)) p1
              (log_call EvIsAvailable p0 w) in
  generate_from_image client t prepare image_path output_format
                      include_explanation w
  = match generate client request None (1 # 10) (Some 4000%Z) p1 with
    | (inr r2, p2) =>
        (inr (finished output_format include_explanation
                (merged initial
                   (_parse_architecture_response (content r2) output_format))),
         log_call (EvGenerate request None (1 # 10) (Some 4000%Z)) p2 w1)
    | (inl e, p2) =>
        (inl (ValueError ("Failed to generate Infrastructure as Code: "
                          ++ str_of_exn e)),
         log_call (EvGenerate request None (1 # 10) (Some 4000%Z)) p2 w1)
    end.
Proof.
  intros Hfile Hfmt Havail Himg Hprep Hprompt Hgen Hval. cbv zeta.
  apply in_list_In in Hfmt.
  unfold generate_from_image. rewrite Hfile, Hfmt. cbn [negb].
  unfold try_except, generate_body.
  unfold World.bind at 1. unfold call_is_available. rewrite Havail.
  cbn [negb]. rewrite Himg. cbn [negb].
  unfold World.bind at 1. unfold analyze_architecture_diagram.
  unfold World.bind at 1. unfold read_image. cbn [uploads log_call].
  rewrite Hfile, Hprep.
  unfold World.bind at 1. unfold World.lift at 1. rewrite Hprompt.
  unfold World.bind at 1. unfold call_generate at 1.
  cbn [provider_state log_call]. fold (as_image_input d). rewrite Hgen.
  unfold World.ret at 1.
  unfold World.bind at 1. unfold World.lift at 1.
  cbn [raw_response _parse_architecture_response]. rewrite Hval.
  cbn [negb]. unfold World.bind at 1. rewrite refine_output_run.
  cbn [provider_state log_call].
  destruct (generate client _ None _ _ p1) as [[e|r2] p2]; [reflexivity|].
  unfold World.ret, finished, merged. cbn [code explanation detected_resources
    format raw_response].
  destruct include_explanation; reflexivity.
Qed.

(** C2: when the first answer of the provider fails validation, the run
    makes exactly one more call to [generate] (the refinement request, sent
    without image), and no other; whatever that call answers is parsed,
    merged and returned without being validated, so also an answer that
    would fail validation again. *)
Theorem single_refinement_after_failed_validation
    (image_path output_format : string) (include_explanation : bool)
    (w : world W) (data : bytes) (d : image_data) (p0 p1 : W)
    (prompt : string) (r1 : LLMResponse) (reason : option string) :
  uploads w !! image_path = Some data ->
  In output_format formats ->
  is_available client (provider_state w) = (true, p0) ->
  supports_images client = true ->
  prepare data = inr d ->
  get_architecture_prompt t output_format None = inr prompt ->
  generate client prompt (Some [as_image_input d]) (1 # 10) (Some 4000%Z) p0
  = (inr r1, p1) ->
  validate_llm_response (content r1) output_format = inr (false, reason) ->
  let initial := _parse_architecture_response (content r1) output_format in
  let request := create_refinement_prompt (code initial)
                   (str_of_optional reason) output_format in
  let run := generate_from_image client t prepare image_path output_format
                                 include_explanation w in
  generate_calls (calls (snd run))
  = (generate_calls (calls w)
     ++ [EvGenerate prompt (Some [as_image_input d]) (1 # 10) (Some 4000%Z);
         EvGenerate request None (1 # 10) (Some 4000%Z)])%list
  /\ forall (r2 : LLMResponse) (p2 : W),
       generate client request None (1 # 10) (Some 4000%Z) p1 = (inr r2, p2) ->
       fst run
       = inr (finished output_format include_explanation
                (merged initial
                   (_parse_architecture_response (content r2) output_format))).
Proof.
  intros Hfile Hfmt Havail Himg Hprep Hprompt Hgen Hval. cbv zeta.
  rewrite (refined_run image_path output_format include_explanation w data d
             p0 p1 prompt r1 reason Hfile Hfmt Havail Himg Hprep Hprompt Hgen
             Hval).
  split.
  - assert (Hcalls : forall x p2,
               generate_calls
                 (calls (log_call x p2
                           (log_call (EvGenerate prompt (Some [as_image_input d])
                                        (1 # 10) (Some 4000%Z)) p1
                              (log_call EvIsAvailable p0 w))))
               = (generate_calls (calls w)
                  ++ [EvGenerate prompt (Some [as_image_input d]) (1 # 10)
                        (Some 4000%Z)]
                  ++ generate_calls [x])%list).
    { intros x p2. unfold generate_calls, log_call. cbn [calls].
      rewrite !List.filter_app. cbn [List.filter is_generate].
      rewrite app_nil_r. rewrite <- app_assoc. reflexivity. }
    destruct (generate client _ None _ _ p1) as [[e|r2] p2]; cbn [snd];
      rewrite Hcalls; reflexivity.
  - intros r2 p2 Hgen2. rewrite Hgen2. reflexivity.
Qed.

(** C9: in a run that goes through the refinement step and whose second
    call is answered, the returned [detected_resources] are those of the
    parse of the first answer; the resources mentioned in the second answer
    play no part, while [code] (post-processed) and [explanation] (unless
    switched off) are those of the parse of the second answer. *)
Theorem refinement_keeps_initial_resources
    (image_path output_format : string) (include_explanation : bool)
    (w : world W) (data : bytes) (d : image_data) (p0 p1 p2 : W)
    (prompt : string) (r1 r2 : LLMResponse) (reason : option string) :
  uploads w !! image_path = Some data ->
  In output_format formats ->
  is_available client (provider_state w) = (true, p0) ->
  supports_images client = true ->
  prepare data = inr d ->
  get_architecture_prompt t output_format None = inr prompt ->
  generate client prompt (Some [as_image_input d]) (1 # 10) (Some 4000%Z) p0
  = (inr r1, p1) ->
  validate_llm_response (content r1) output_format = inr (false, reason) ->
  let initial := _parse_architecture_response (content r1) output_format in
  let refined := _parse_architecture_response (content r2) output_format in
  generate client
    (create_refinement_prompt (code initial) (str_of_optional reason)
       output_format)
    None (1 # 10) (Some 4000%Z) p1
  = (inr r2, p2) ->
  exists result : parsed,
    fst (generate_from_image client t prepare image_path output_format
                             include_explanation w)
    = inr result
    /\ detected_resources result = detected_resources initial
    /\ code result = _post_process_code (code refined) output_format
    /\ explanation result
       = (if include_explanation then explanation refined else None).
Proof.
  intros Hfile Hfmt Havail Himg Hprep Hprompt Hgen Hval. cbv zeta.
  intros Hgen2.
  rewrite (refined_run image_path output_format include_explanation w data d
             p0 p1 prompt r1 reason Hfile Hfmt Havail Himg Hprep Hprompt Hgen
             Hval).
  rewrite Hgen2. cbn [fst]. eexists. split; [reflexivity|].
  repeat split.
Qed.

End Run.

Lemma single_refinement_after_failed_validation_witness :
  let initial := _parse_architecture_response prose_answer "terraform" in
  let request := create_refinement_prompt (code initial)
                   "Response does not contain code blocks" "terraform" in
  let run := generate_from_image scripted sample_templates sample_prepare
               sample_image "terraform" true
               (sample_world [prose_answer; second_prose_answer]) in
  generate_calls (calls (snd run))
  = [EvGenerate "Generate Terraform for this diagram."
       (Some [as_image_input sample_data]) (1 # 10) (Some 4000%Z);
     EvGenerate request None (1 # 10) (Some 4000%Z)]
  /\ forall (r2 : LLMResponse) (p2 : list string),
       generate scripted request None (1 # 10) (Some 4000%Z)
                [second_prose_answer] = (inr r2, p2) ->
       fst run
       = inr (finished "terraform" true
                (merged initial
                   (_parse_architecture_response (content r2) "terraform"))).
Proof.
  apply (single_refinement_after_failed_validation
           scripted sample_templates sample_prepare
           sample_image "terraform" true
           (sample_world [prose_answer; second_prose_answer])
           [] sample_data
           [prose_answer; second_prose_answer] [second_prose_answer]
           "Generate Terraform for this diagram."
           (answer prose_answer)
           (Some "Response does not contain code blocks")).
  - vm_compute. reflexivity.
  - left. reflexivity.
  - reflexivity.
  - reflexivity.
  - reflexivity.
  - reflexivity.
  - reflexivity.
  - vm_compute. reflexivity.
Defined.

Lemma refinement_keeps_initial_resources_witness :
  exists result : parsed,
    fst (generate_from_image scripted sample_templates sample_prepare
           sample_image "terraform" true
           (sample_world [prose_answer; refined_answer]))
    = inr result
    /\ detected_resources result = ["S3"]
    /\ code result
       = _post_process_code
           (code (_parse_architecture_response refined_answer "terraform"))
           "terraform"
    /\ explanation result
       = explanation (_parse_architecture_response refined_answer "terraform").
Proof.
  apply (refinement_keeps_initial_resources
           scripted sample_templates sample_prepare
           sample_image "terraform" true
           (sample_world [prose_answer; refined_answer])
           [] sample_data
           [prose_answer; refined_answer] [refined_answer] []
           "Generate Terraform for this diagram."
           (answer prose_answer) (answer refined_answer)
           (Some "Response does not contain code blocks")).
  - vm_compute. reflexivity.
  - left. reflexivity.
  - reflexivity.
  - reflexivity.
  - reflexivity.
  - reflexivity.
  - reflexivity.
  - vm_compute. reflexivity.
  - vm_compute. reflexivity.
Defined.

(** The second answer of that run names RDS; the result does not. *)
Example refined_mentions_are_dropped :
  detected_resources (_parse_architecture_response refined_answer "terraform")
  = ["RDS"]
  /\ exists result w',
       generate_from_image scripted sample_templates sample_prepare
         sample_image "terraform" true
         (sample_world [prose_answer; refined_answer]) = (inr result, w')
       /\ detected_resources result = ["S3"].
Proof.
  split; [vm_compute; reflexivity|].
  eexists. eexists. split; [vm_compute; reflexivity | reflexivity].
Qed.

(** ** The generation and upload boundaries *)

Lemma Qle_bool_size (n m : Z) :
  Qle_bool (n # 1048576) (inject_Z m) = true <-> (n <= m * 1048576)%Z.
Proof.
  rewrite Qle_bool_iff. unfold Qle. cbn [Qnum Qden inject_Z].
  rewrite Z.mul_1_r. reflexivity.
Qed.

Section Boundary.
Context {W : Type}.
Variable client : LLMClient W.
Variable t : templates.
Variable prepare : bytes -> exn + image_data.
Variable cfg : config.
Variable Image_open : bytes -> exn + image_metadata.
Variable fnmatch : string -> string -> bool.
Variable storage_fails : string -> bool.

(** C3 (amended): a generation request whose format is neither terraform
    nor cloudformation never reaches the provider: the world is left as it
    was, not even the availability probe being made.  When the lookup of
    the image identifier returns, the request fails with status 404 and
    the not-found message if no stored file matches, and with status 400
    and the invalid-format message otherwise.  The prompt builder, for its
    part, raises [ValueError] on every format it does not know. *)
Theorem invalid_format_fails_before_provider
    (request : GenerateCodeRequest) (w : world W) :
  ~ In (output_format request) formats ->
  let run := generate_code client t prepare fnmatch request w in
  snd run = w
  /\ calls (snd run) = calls w
  /\ (forall image_files : list string,
         fst (glob_uploads fnmatch (image_id request ++ "_*") w)
         = inr image_files ->
         (image_files = [] ->
          fst run = inl (HTTPException 404
                           ("Image with ID " ++ image_id request
                            ++ " not found")))
         /\ (image_files <> [] ->
             fst run = inl (HTTPException 400
               "Invalid output format. Must be 'terraform' or 'cloudformation'")))
  /\ (forall (fmt : string) (context : option string),
         ~ In (lower fmt) formats ->
         get_architecture_prompt t fmt context
         = inl (ValueError ("Unsupported output format: " ++ fmt))).
Proof.
  intros Hfmt. cbv zeta. apply in_list_not_In in Hfmt.
  assert (Hprompt : forall (fmt : string) (context : option string),
             ~ In (lower fmt) formats ->
             get_architecture_prompt t fmt context
             = inl (ValueError ("Unsupported output format: " ++ fmt))).
  { intros fmt context Hl. unfold get_architecture_prompt.
    destruct (String.eqb (lower fmt) "terraform") eqn:E1.
    { apply String.eqb_eq in E1. exfalso. apply Hl. rewrite E1.
      left. reflexivity. }
    destruct (String.eqb (lower fmt) "cloudformation") eqn:E2.
    { apply String.eqb_eq in E2. exfalso. apply Hl. rewrite E2.
      right. left. reflexivity. }
    reflexivity. }
  unfold generate_code, World.bind, glob_uploads.
  destruct (glob_refusal (image_id request ++ "_*")) as [e|].
  - cbn [fst snd]. split; [reflexivity|]. split; [reflexivity|].
    split; [|exact Hprompt]. intros image_files H. discriminate H.
  - destruct (List.filter _ _) as [|image_path files] eqn:Hglob.
    + unfold World.raise. cbn [fst snd].
      split; [reflexivity|]. split; [reflexivity|].
      split; [|exact Hprompt]. intros image_files [= <-].
      split; [reflexivity | congruence].
    + rewrite Hfmt. cbn [negb]. unfold World.raise. cbn [fst snd].
      split; [reflexivity|]. split; [reflexivity|].
      split; [|exact Hprompt]. intros image_files [= <-].
      split; [discriminate | reflexivity].
Qed.

(** C4: an upload that breaks one of the bounds (more bytes than the
    configured ceiling, an extension outside the allow-list, or a decoded
    width or height outside 100..4096) fails with status 400 and the
    validator's reason, which names the bound that was checked first and
    found broken; the world is left as it was, so no file is written and
    no background task registered. *)
Theorem rejected_upload_writes_nothing
    (content : bytes) (filename uuid4 : string) (w : world W) :
  (max_size_mb cfg * 1048576 < Z.of_nat (List.length content))%Z
  \/ ~ In (strip_dots (lower (path_suffix filename))) (allowed_types cfg)
  \/ (exists image : image_metadata,
         Image_open content = inr image
         /\ ~ ((100 <= img_width image <= 4096)%Z
               /\ (100 <= img_height image <= 4096)%Z)) ->
  exists reason : string,
    upload_image cfg Image_open storage_fails (inr content) filename uuid4 w
    = (inl (HTTPException 400 reason), w)
    /\ validate_image_file cfg Image_open content filename
       = (false, Some reason, None)
    /\ (reason = "File size (" ++ format_2f (Z.of_nat (List.length content) # 1048576)
                 ++ "MB) exceeds maximum (" ++ str_of_Z (max_size_mb cfg)
                 ++ "MB)"
        \/ reason = "File type '" ++ strip_dots (lower (path_suffix filename))
                    ++ "' not allowed. Allowed types: "
                    ++ join ", " (allowed_types cfg)
        \/ reason = "Image too small. Minimum dimension: 100px"
        \/ reason = "Image too large. Maximum dimension: 4096px").
Proof.
  intros Hbad.
  assert (Hv : exists reason,
             validate_image_file cfg Image_open content filename
             = (false, Some reason, None)
             /\ (reason = "File size ("
                          ++ format_2f (Z.of_nat (List.length content) # 1048576)
                          ++ "MB) exceeds maximum ("
                          ++ str_of_Z (max_size_mb cfg) ++ "MB)"
                 \/ reason = "File type '"
                             ++ strip_dots (lower (path_suffix filename))
                             ++ "' not allowed. Allowed types: "
                             ++ join ", " (allowed_types cfg)
                 \/ reason = "Image too small. Minimum dimension: 100px"
                 \/ reason = "Image too large. Maximum dimension: 4096px")).
  { unfold validate_image_file.
    destruct (Qle_bool (Z.of_nat (List.length content) # 1048576)
                       (inject_Z (max_size_mb cfg))) eqn:Hsize; cbn [negb].
    2:{ eexists. split; [reflexivity | left; reflexivity]. }
    apply Qle_bool_size in Hsize.
    destruct (in_list (strip_dots (lower (path_suffix filename)))
                      (allowed_types cfg)) eqn:Hext; cbn [negb].
    2:{ eexists. split; [reflexivity | right; left; reflexivity]. }
    apply in_list_In in Hext.
    destruct Hbad as [Hbad | [Hbad | (image & Hopen & Hdim)]];
      [lia | contradiction |].
    rewrite Hopen. unfold min_dimension, UploadValidators.max_dimension.
    destruct (img_width image <? 100)%Z eqn:W1; cbn [orb].
    { eexists. split; [reflexivity | right; right; left; reflexivity]. }
    destruct (img_height image <? 100)%Z eqn:H1; cbn [orb].
    { eexists. split; [reflexivity | right; right; left; reflexivity]. }
    destruct (4096 <? img_width image)%Z eqn:W2; cbn [orb].
    { eexists. split; [reflexivity | right; right; right; reflexivity]. }
    destruct (4096 <? img_height image)%Z eqn:H2; cbn [orb].
    { eexists. split; [reflexivity | right; right; right; reflexivity]. }
    exfalso. apply Hdim. lia. }
  destruct Hv as (reason & Hv & Hshape).
  exists reason. split; [| split; assumption].
  unfold upload_image. rewrite Hv. reflexivity.
Qed.

End Boundary.

Lemma invalid_format_fails_before_provider_witness :
  let w := sample_world [prose_answer] in
  let run := generate_code scripted sample_templates sample_prepare
               prefix_glob json_request w in
  snd run = w
  /\ calls (snd run) = calls w
  /\ (forall image_files : list string,
         fst (glob_uploads prefix_glob (image_id json_request ++ "_*") w)
         = inr image_files ->
         (image_files = [] ->
          fst run = inl (HTTPException 404
                           ("Image with ID " ++ image_id json_request
                            ++ " not found")))
         /\ (image_files <> [] ->
             fst run = inl (HTTPException 400
               "Invalid output format. Must be 'terraform' or 'cloudformation'")))
  /\ (forall (fmt : string) (context : option string),
         ~ In (lower fmt) formats ->
         get_architecture_prompt sample_templates fmt context
         = inl (ValueError ("Unsupported output format: " ++ fmt))).
Proof.
  apply (invalid_format_fails_before_provider
           scripted sample_templates sample_prepare prefix_glob
           json_request (sample_world [prose_answer])).
  vm_compute. intros [H | [H | []]]; discriminate H.
Defined.

(** C3, as stated, fails when the image identifier resolves to no stored
    file: the lookup comes first, and the request for a format the
    service does not offer is answered with 404 and the not-found
    message, not with the invalid-format condition. *)
Lemma unknown_image_hides_invalid_format :
  ~ In (output_format unknown_json_request) formats
  /\ generate_code scripted sample_templates sample_prepare prefix_glob
                   unknown_json_request (sample_world [prose_answer])
     = (inl (HTTPException 404 "Image with ID 0000 not found"),
        sample_world [prose_answer]).
Proof.
  split; [|vm_compute; reflexivity].
  vm_compute. intros [H | [H | []]]; discriminate H.
Qed.

(** On the sample world the request is turned down with status 400. *)
Example json_request_rejected :
  generate_code scripted sample_templates sample_prepare prefix_glob
                json_request (sample_world [prose_answer])
  = (inl (HTTPException 400
            "Invalid output format. Must be 'terraform' or 'cloudformation'"),
     sample_world [prose_answer]).
Proof. vm_compute. reflexivity. Qed.

Lemma rejected_upload_writes_nothing_witness :
  exists reason : string,
    upload_image sample_config sample_decoder never_fails (inr narrow_image)
                 "diagram.png" "7f3b" (sample_world [])
    = (inl (HTTPException 400 reason), sample_world [])
    /\ validate_image_file sample_config sample_decoder narrow_image
                           "diagram.png"
       = (false, Some reason, None)
    /\ (reason = "File size ("
                 ++ format_2f (Z.of_nat (List.length narrow_image) # 1048576)
                 ++ "MB) exceeds maximum ("
                 ++ str_of_Z (max_size_mb sample_config) ++ "MB)"
        \/ reason = "File type '"
                    ++ strip_dots (lower (path_suffix "diagram.png"))
                    ++ "' not allowed. Allowed types: "
                    ++ join ", " (allowed_types sample_config)
        \/ reason = "Image too small. Minimum dimension: 100px"
        \/ reason = "Image too large. Maximum dimension: 4096px").
Proof.
  apply (rejected_upload_writes_nothing
           sample_config sample_decoder never_fails
           narrow_image "diagram.png" "7f3b" (sample_world [])).
  right. right. eexists. split; [reflexivity|].
  cbn. lia.
Defined.

(** The same file with a header inside the bounds is stored, and its
    preprocessing is queued. *)
Example accepted_upload_is_stored :
  exists (response : UploadResponse) (w' : world (list string)),
    upload_image sample_config sample_decoder never_fails
                 (inr [Byte.x08; Byte.x05; Byte.x00])
                 "diagram.png" "7f3b" (sample_world [])
    = (inr response, w')
    /\ uploads w' !! "7f3b_diagram.png" = Some [Byte.x08; Byte.x05; Byte.x00]
    /\ tasks w' = [("7f3b_diagram.png", "7f3b")].
Proof.
  eexists. eexists. split; [vm_compute; reflexivity|].
  split; vm_compute; reflexivity.
Qed.

(** ** Binary floating point and the resize arithmetic *)

Section Floats.
Local Open Scope Q_scope.

(** [round_half_even] is within one half of its argument. *)
Lemma round_half_even_near (s : Q) :
  s - (1 # 2) <= inject_Z (round_half_even s) <= s + (1 # 2).
Proof.
  destruct s as [n d]. unfold round_half_even. cbn [Qnum Qden].
  pose proof (Z.div_mod n (Zpos d) ltac:(lia)) as Hdm.
  pose proof (Z.mod_pos_bound n (Zpos d) ltac:(lia)) as Hr.
  set (k := (n / Zpos d)%Z) in *. set (r := (n mod Zpos d)%Z) in *.
  assert (Hle : forall z : Z,
             (2 * Zpos d * z <= 2 * n + Zpos d)%Z ->
             (2 * n - Zpos d <= 2 * Zpos d * z)%Z ->
             (n # d) - (1 # 2) <= inject_Z z <= (n # d) + (1 # 2)).
  { intros z H1 H2. unfold Qle, Qminus, Qplus, Qopp, inject_Z.
    cbn [Qnum Qden]. split; lia. }
  destruct (2 * r <? Zpos d)%Z eqn:E1; [apply Hle; lia|].
  destruct (Zpos d <? 2 * r)%Z eqn:E2; [apply Hle; lia|].
  destruct (Z.even k); apply Hle; lia.
Qed.

Lemma two_pow_pos (e : Z) : 0 < two_pow e.
Proof. unfold two_pow. apply Qpower_0_lt. reflexivity. Qed.

Lemma two_pow_add (x y : Z) : two_pow (x + y) == two_pow x * two_pow y.
Proof. unfold two_pow. apply Qpower_plus. discriminate. Qed.

Lemma two_pow_inject (e : Z) : (0 <= e)%Z -> two_pow e == inject_Z (2 ^ e).
Proof. intros H. unfold two_pow. symmetry. apply (Zpower_Qpower 2 e H). Qed.

(** A positive rational is at least the power of two its bit lengths
    give. *)
Lemma two_pow_log2_le (q : Q) :
  0 < q ->
  two_pow (Z.log2 (Qnum q) - Z.log2 (Zpos (Qden q)) - 1) <= q.
Proof.
  intros Hq. destruct q as [n d]. cbn [Qnum Qden].
  assert (Hn : (0 < n)%Z) by (unfold Qlt in Hq; cbn in Hq; lia).
  set (a := Z.log2 n). set (b := Z.log2 (Zpos d)).
  assert (Ha : (0 <= a)%Z) by apply Z.log2_nonneg.
  assert (Hb : (0 <= b)%Z) by apply Z.log2_nonneg.
  destruct (Z.log2_spec n Hn) as [Hn1 _]. fold a in Hn1.
  destruct (Z.log2_spec (Zpos d) ltac:(lia)) as [_ Hd2]. fold b in Hd2.
  apply (Qmult_le_r _ _ (two_pow (b + 1))); [apply two_pow_pos|].
  rewrite <- two_pow_add.
  replace (a - b - 1 + (b + 1))%Z with a by lia.
  rewrite !two_pow_inject by lia.
  unfold Qle, Qmult, inject_Z. cbn [Qnum Qden].
  replace (Z.succ b) with (b + 1)%Z in Hd2 by lia.
  assert (0 < 2 ^ a)%Z by (apply Z.pow_pos_nonneg; lia).
  nia.
Qed.

Lemma two_pow_52 : two_pow 52 == 4503599627370496.
Proof. reflexivity. Qed.

Lemma round_pos_error (q : Q) :
  0 < q -> q * (1 - u64) <= round_pos q <= q * (1 + u64).
Proof.
  intros Hq. unfold round_pos.
  set (e0 := (Z.log2 (Qnum q) - Z.log2 (Zpos (Qden q)) - 52)%Z).
  set (s0 := q * two_pow (- e0)).
  assert (Hs0 : s0 * two_pow e0 == q).
  { unfold s0. rewrite <- Qmult_assoc, <- two_pow_add.
    replace (- e0 + e0)%Z with 0%Z by lia. change (two_pow 0) with 1.
    apply Qmult_1_r. }
  assert (H51 : two_pow 51 <= s0).
  { unfold s0.
    apply (Qle_trans _ (two_pow (Z.log2 (Qnum q) - Z.log2 (Zpos (Qden q)) - 1)
                        * two_pow (- e0))).
    - rewrite <- two_pow_add. unfold e0.
      match goal with |- _ <= two_pow ?x => replace x with 51%Z by lia end.
      apply Qle_refl.
    - apply Qmult_le_compat_r; [now apply two_pow_log2_le|].
      apply Qlt_le_weak, two_pow_pos. }
  assert (Hfin : forall (e : Z) (s : Q),
             s * two_pow e == q -> two_pow 52 <= s ->
             q * (1 - u64) <= inject_Z (round_half_even s) * two_pow e
                           <= q * (1 + u64)).
  { intros e s Hs H52.
    pose proof (round_half_even_near s) as [Hm1 Hm2].
    pose proof (two_pow_pos e) as Hp.
    rewrite two_pow_52 in H52.
    set (m := inject_Z (round_half_even s)) in *.
    set (P := two_pow e) in *.
    rewrite <- Hs. unfold u64. split.
    - assert (X : s * P * (1 - (1 # 9007199254740992))
                  == (s * (1 - (1 # 9007199254740992))) * P) by ring.
      rewrite X. apply Qmult_le_compat_r; lra.
    - assert (X : s * P * (1 + (1 # 9007199254740992))
                  == (s * (1 + (1 # 9007199254740992))) * P) by ring.
      rewrite X. apply Qmult_le_compat_r; lra. }
  destruct (Qle_bool (two_pow 52) s0) eqn:E.
  - apply Hfin; [exact Hs0 | now apply Qle_bool_iff].
  - apply Hfin.
    + rewrite <- Hs0.
      replace e0 with (1 + (e0 - 1))%Z at 2 by lia.
      rewrite two_pow_add. change (two_pow 1) with 2. ring.
    + apply (Qle_trans _ (two_pow 51 * 2)); [apply Qle_refl|].
      apply Qmult_le_compat_r; [exact H51 | discriminate].
Qed.

Lemma round_binary64_pos (q : Q) : 0 < q -> round_binary64 q = round_pos q.
Proof.
  intros Hq. unfold round_binary64.
  destruct (Qeq_bool q 0) eqn:E0.
  - apply Qeq_bool_iff in E0. rewrite E0 in Hq. discriminate Hq.
  - destruct (Qle_bool q 0) eqn:E1; [|reflexivity].
    apply Qle_bool_iff in E1. exfalso. apply (Qlt_not_le _ _ Hq E1).
Qed.

Lemma round_binary64_zero (q : Q) : q == 0 -> round_binary64 q = 0.
Proof.
  intros Hq. unfold round_binary64.
  apply Qeq_bool_iff in Hq. rewrite Hq. reflexivity.
Qed.

Lemma int_of_float_floor (z : Q) :
  0 <= z -> inject_Z (int_of_float z) <= z < inject_Z (int_of_float z) + 1.
Proof.
  intros Hz. unfold int_of_float.
  assert (Hn : (0 <= Qnum z)%Z).
  { unfold Qle in Hz. cbn in Hz. lia. }
  rewrite Z.quot_div_nonneg by lia.
  destruct z as [n d]. cbn [Qnum Qden].
  change (n / Zpos d)%Z with (Qfloor (n # d)).
  split; [apply Qfloor_le|].
  pose proof (Qlt_floor (n # d)) as H. rewrite inject_Z_plus in H. exact H.
Qed.

Lemma inject_Z_pos (z : Z) : (0 < z)%Z -> 0 < inject_Z z.
Proof. intros H. unfold Qlt. cbn. lia. Qed.

(** [int(side * (2048 / longest))] is the exact proportion
    [2048 * side / longest], give or take one pixel. *)
Lemma scaled_bounds (a b : Z) :
  (0 <= a <= b)%Z -> (0 < b)%Z -> (a < 2 ^ 31)%Z ->
  (2048 * a - b <= scaled a b * b <= 2048 * a)%Z.
Proof.
  intros Hab Hb Ha31. unfold scaled, int_truediv, int_times_float.
  unfold ImageProcessor.max_dimension.
  set (B := inject_Z b). set (A := inject_Z a).
  assert (HB : 0 < B) by (now apply inject_Z_pos).
  set (x := inject_Z 2048 / B).
  assert (Hx : 0 < x).
  { unfold x. apply Qlt_shift_div_l; [exact HB|]. rewrite Qmult_0_l.
    reflexivity. }
  assert (HxB : x * B == 2048).
  { unfold x. field. intros E. rewrite E in HB. discriminate HB. }
  rewrite (round_binary64_pos x Hx).
  pose proof (round_pos_error x Hx) as [Hy1 Hy2].
  set (y := round_pos x) in *.
  destruct (Z.eq_dec a 0%Z) as [-> | Hne].
  - rewrite round_binary64_zero by (unfold A; ring).
    change (int_of_float 0) with 0%Z. lia.
  - assert (HA : 0 < A) by (apply inject_Z_pos; lia).
    assert (HA31 : A <= 2147483648).
    { unfold A. change 2147483648 with (inject_Z 2147483648).
      rewrite <- Zle_Qle. change (2 ^ 31)%Z with 2147483648%Z in Ha31. lia. }
    assert (Hy : 0 < y).
    { apply (Qlt_le_trans _ (x * (1 - u64))); [|exact Hy1].
      apply Qmult_lt_0_compat; [exact Hx | reflexivity]. }
    assert (Hp : 0 < A * y) by (now apply Qmult_lt_0_compat).
    rewrite (round_binary64_pos _ Hp).
    pose proof (round_pos_error _ Hp) as [Hz1 Hz2].
    set (z := round_pos (A * y)) in *.
    assert (Hz : 0 <= z).
    { apply (Qle_trans _ (A * y * (1 - u64))); [|exact Hz1].
      apply Qmult_le_0_compat; [apply Qlt_le_weak, Hp | discriminate]. }
    pose proof (int_of_float_floor z Hz) as [Hr1 Hr2].
    set (r := int_of_float z) in *. set (R := inject_Z r) in *.
    (* upper: z <= 2048 A (1+u)^2 / B *)
    assert (Hup : z * B <= A * 2048 * ((1 + u64) * (1 + u64))).
    { apply (Qle_trans _ (A * y * (1 + u64) * B)).
      - apply Qmult_le_compat_r; [exact Hz2 | apply Qlt_le_weak, HB].
      - assert (X : A * y * (1 + u64) * B == y * (A * (1 + u64) * B))
          by ring.
        assert (Y : A * 2048 * ((1 + u64) * (1 + u64))
                    == x * (1 + u64) * (A * (1 + u64) * B))
          by (rewrite <- HxB; ring).
        rewrite X, Y. apply Qmult_le_compat_r; [exact Hy2|].
        apply Qmult_le_0_compat; [|apply Qlt_le_weak, HB].
        apply Qmult_le_0_compat; [apply Qlt_le_weak, HA | discriminate]. }
    assert (Hlo : A * 2048 * ((1 - u64) * (1 - u64)) <= z * B).
    { apply (Qle_trans _ (A * y * (1 - u64) * B)).
      - assert (X : A * y * (1 - u64) * B == y * (A * (1 - u64) * B))
          by ring.
        assert (Y : A * 2048 * ((1 - u64) * (1 - u64))
                    == x * (1 - u64) * (A * (1 - u64) * B))
          by (rewrite <- HxB; ring).
        rewrite X, Y. apply Qmult_le_compat_r; [exact Hy1|].
        apply Qmult_le_0_compat; [|apply Qlt_le_weak, HB].
        apply Qmult_le_0_compat; [apply Qlt_le_weak, HA | discriminate].
      - apply Qmult_le_compat_r; [exact Hz1 | apply Qlt_le_weak, HB]. }
    assert (HRB1 : R * B <= z * B)
      by (apply Qmult_le_compat_r; [exact Hr1 | apply Qlt_le_weak, HB]).
    assert (HRB2 : z * B < (R + 1) * B)
      by (apply Qmult_lt_compat_r; [exact HB | exact Hr2]).
    unfold u64 in Hup, Hlo.
    assert (U : R * B < 2048 * A + 1) by lra.
    assert (L : 2048 * A - 1 < R * B + B) by lra.
    unfold R, A, B in U, L.
    rewrite <- !inject_Z_mult in U, L.
    change 1 with (inject_Z 1) in U, L.
    change 2048 with (inject_Z 2048) in U, L.
    rewrite <- ?inject_Z_mult, <- ?inject_Z_plus, <- ?inject_Z_opp in U, L.
    unfold Qminus in L. rewrite <- ?inject_Z_opp, <- ?inject_Z_plus in L.
    rewrite <- Zlt_Qlt in U, L. lia.
Qed.

End Floats.

(** ** C7: the processed copy *)

Section Processing.
Variable P : PIL.
Hypothesis contract : PIL_contract P.

Lemma resize_within_bound (i : Img P) :
  (width P i <= 2048)%Z -> (height P i <= 2048)%Z -> _resize_image P i = inr i.
Proof.
  unfold width, height, _resize_image, ImageProcessor.max_dimension.
  destruct (size P i) as [w h]. cbn [fst snd]. intros Hw Hh.
  apply Z.leb_le in Hw, Hh. rewrite Hw, Hh. reflexivity.
Qed.

Lemma resize_spec (i i' : Img P) :
  (0 <= width P i < 2 ^ 31)%Z -> (0 <= height P i < 2 ^ 31)%Z ->
  _resize_image P i = inr i' ->
  mode P i' = mode P i
  /\ (width P i' <= 2048)%Z /\ (height P i' <= 2048)%Z
  /\ ((width P i <= 2048)%Z -> (height P i <= 2048)%Z -> size P i' = size P i)
  /\ ((2048 < width P i)%Z -> (height P i < width P i)%Z ->
      width P i' = 2048%Z
      /\ (2048 * height P i - width P i <= height P i' * width P i
          <= 2048 * height P i)%Z)
  /\ ((2048 < height P i)%Z -> (width P i <= height P i)%Z ->
      height P i' = 2048%Z
      /\ (2048 * width P i - height P i <= width P i' * height P i
          <= 2048 * width P i)%Z).
Proof.
  unfold width, height, _resize_image, ImageProcessor.max_dimension.
  destruct (size P i) as [w h] eqn:Es. cbn [fst snd]. intros Hw Hh.
  destruct ((w <=? 2048)%Z && (h <=? 2048)%Z)%bool eqn:Eb.
  - intros [= <-]. rewrite Es. cbn [fst snd].
    apply andb_true_iff in Eb as [E1 E2]. apply Z.leb_le in E1, E2.
    repeat split; try lia.
  - intros Hr. apply (resize_ok P contract) in Hr as [Hm Hsz].
    rewrite Hsz. split; [exact Hm|].
    apply andb_false_iff in Eb.
    destruct (h <? w)%Z eqn:Ehw; cbn [fst snd].
    + apply Z.ltb_lt in Ehw.
      assert (Hbig : (2048 < w)%Z).
      { destruct Eb as [E | E]; apply Z.leb_gt in E; lia. }
      pose proof (scaled_bounds h w ltac:(lia) ltac:(lia) ltac:(lia)) as Hs.
      repeat split; try lia; try nia.
    + apply Z.ltb_ge in Ehw.
      assert (Hbig : (2048 < h)%Z).
      { destruct Eb as [E | E]; apply Z.leb_gt in E; lia. }
      pose proof (scaled_bounds w h ltac:(lia) ltac:(lia) ltac:(lia)) as Hs.
      repeat split; try lia; try nia.
Qed.

Lemma enhance_spec (i i' : Img P) :
  _enhance_image P i = inr i' -> mode P i' = mode P i /\ size P i' = size P i.
Proof.
  unfold _enhance_image, bindE.
  destruct (enhance_contrast P i (12 # 10)) as [e|i1] eqn:E1; [discriminate|].
  destruct (enhance_sharpness P i1 (11 # 10)) as [e|i2] eqn:E2; [discriminate|].
  intros E3.
  apply (contrast_ok P contract) in E1 as [M1 S1].
  apply (sharpness_ok P contract) in E2 as [M2 S2].
  apply (autocontrast_ok P contract) in E3 as [M3 S3].
  split; congruence.
Qed.

Lemma remove_transparency_spec (i i' : Img P) :
  _remove_transparency P i = inr i' ->
  size P i' = size P i
  /\ (mode P i = "RGBA" ->
      mode P i' = "RGB"
      /\ paste_alpha P (new_image P "RGB" (size P i) (255, 255, 255)%Z) i
         = inr i')
  /\ (mode P i <> "RGBA" -> i' = i).
Proof.
  unfold _remove_transparency.
  destruct (String.eqb (mode P i) "RGBA") eqn:E; cbn [negb].
  - apply String.eqb_eq in E. intros Hp. pose proof Hp as Hp'.
    apply (paste_ok P contract) in Hp as [Hm Hs].
    destruct (new_ok P contract "RGB" (size P i) (255, 255, 255)%Z)
      as [Hnm Hns].
    repeat split; intros; congruence.
  - apply String.eqb_neq in E. intros [= <-].
    repeat split; intros; congruence.
Qed.

Lemma enhance_modes (i i' : Img P) :
  _enhance_image P i = inr i' -> mode P i = "L" \/ mode P i = "RGB".
Proof.
  unfold _enhance_image, bindE.
  destruct (enhance_contrast P i (12 # 10)) as [e|i1] eqn:E1; [discriminate|].
  destruct (enhance_sharpness P i1 (11 # 10)) as [e|i2] eqn:E2; [discriminate|].
  intros E3.
  apply (contrast_ok P contract) in E1 as [M1 _].
  apply (sharpness_ok P contract) in E2 as [M2 _].
  apply (autocontrast_modes P contract) in E3.
  rewrite <- M1, <- M2. exact E3.
Qed.

(** The conversion that opens [preprocess_image] leaves a picture in
    mode RGB or RGBA, of the size it had. *)
Lemma converted_spec (img converted : Img P) :
  (if negb (in_list (mode P img) ["RGB"; "RGBA"])
   then convert P img "RGB" else inr img) = inr converted ->
  size P converted = size P img
  /\ (mode P converted = "RGB"
      \/ (mode P converted = "RGBA" /\ mode P img = "RGBA")).
Proof.
  destruct (in_list (mode P img) ["RGB"; "RGBA"]) eqn:Em; cbn [negb].
  - intros [= <-]. split; [reflexivity|].
    apply in_list_In in Em. destruct Em as [E | [E | []]]; auto.
  - intros H. apply (convert_ok P contract) in H as [Hm Hs]. auto.
Qed.

(** C7: a picture with an alpha band gets no processed copy.  A picture in
    mode RGBA is not converted; [_enhance_image] hands it to
    [ImageOps.autocontrast], which raises on that mode, so that
    [_remove_transparency] is never reached: [preprocess_image] raises
    and stores nothing. *)
Theorem rgba_picture_gets_no_processed_copy (W : Type)
    (image_path image_id : string) (w : world W) (data : bytes)
    (img : Img P) :
  uploads w !! image_path = Some data ->
  Image_open P data = inr img ->
  mode P img = "RGBA" ->
  exists e : exn, preprocess_image P image_path image_id w = (inl e, w).
Proof.
  intros Hfile Hopen Hmode. unfold preprocess_image.
  rewrite Hfile, Hopen. cbn [bindE].
  destruct (process P img) as [e|out] eqn:Hproc;
    [cbn [bindE]; eexists; reflexivity|].
  exfalso.
  pose proof (open_range P contract data img Hopen) as [Hrw Hrh].
  unfold process in Hproc.
  assert (Hin : in_list (mode P img) ["RGB"; "RGBA"] = true)
    by (rewrite Hmode; reflexivity).
  rewrite Hin in Hproc. cbn [negb bindE] in Hproc.
  destruct (_resize_image P img) as [e|resized] eqn:H2; [discriminate|].
  cbn [bindE] in Hproc.
  destruct (_enhance_image P resized) as [e|enhanced] eqn:H3; [discriminate|].
  pose proof (resize_spec img resized Hrw Hrh H2) as (Hm2 & _).
  apply enhance_modes in H3. rewrite Hm2, Hmode in H3.
  destruct H3 as [H3 | H3]; discriminate H3.
Qed.

(** X25: whenever preprocessing produces a processed copy, the copy is
    what the steps make of the opened picture: the conversion, then
    [_resize_image], then [_enhance_image], whose result
    [_remove_transparency] returns as it is, nothing being pasted.  The
    picture was not in mode RGBA and the copy is in mode RGB; neither side
    exceeds 2048 pixels; a picture within the bound keeps its size and is
    not resized; a larger one has its longer side at 2048 and its shorter
    side within one pixel below the exact proportion, as the
    floating-point arithmetic of the source computes it. *)
Theorem processed_copy_is_rgb_and_bounded (W : Type)
    (image_path image_id path : string) (w w' : world W) :
  preprocess_image P image_path image_id w = (inr path, w') ->
  exists (img converted resized out : Img P) (data encoded : bytes),
    uploads w !! image_path = Some data
    /\ Image_open P data = inr img
    /\ (if negb (in_list (mode P img) ["RGB"; "RGBA"])
        then convert P img "RGB" else inr img) = inr converted
    /\ _resize_image P converted = inr resized
    /\ _enhance_image P resized = inr out
    /\ _remove_transparency P out = inr out
    /\ save_png P out = inr encoded
    /\ path = image_id ++ "_processed.png"
    /\ uploads w' = <[path := encoded]> (uploads w)
    /\ mode P img <> "RGBA"
    /\ mode P out = "RGB"
    /\ (width P out <= 2048)%Z /\ (height P out <= 2048)%Z
    /\ ((width P img <= 2048)%Z -> (height P img <= 2048)%Z ->
        size P out = size P img /\ resized = converted)
    /\ ((2048 < width P img)%Z -> (height P img < width P img)%Z ->
        width P out = 2048%Z
        /\ (2048 * height P img - width P img
            <= height P out * width P img <= 2048 * height P img)%Z)
    /\ ((2048 < height P img)%Z -> (width P img <= height P img)%Z ->
        height P out = 2048%Z
        /\ (2048 * width P img - height P img
            <= width P out * height P img <= 2048 * width P img)%Z).
Proof.
  unfold preprocess_image.
  destruct (uploads w !! image_path) as [data|] eqn:Hfile; [|discriminate].
  destruct (Image_open P data) as [e|img] eqn:Hopen; [discriminate|].
  cbn [bindE].
  destruct (process P img) as [e|out] eqn:Hproc; [discriminate|].
  cbn [bindE].
  destruct (save_png P out) as [e|encoded] eqn:Hsave; [discriminate|].
  intros [= <- <-].
  pose proof (open_range P contract data img Hopen) as [Hrw Hrh].
  unfold process, bindE in Hproc.
  destruct (if negb (in_list (mode P img) ["RGB"; "RGBA"])
            then convert P img "RGB" else inr img) as [e|i1] eqn:H1;
    [discriminate|].
  destruct (_resize_image P i1) as [e|i2] eqn:H2; [discriminate|].
  destruct (_enhance_image P i2) as [e|i3] eqn:H3; [discriminate|].
  pose proof (converted_spec img i1 H1) as [Hs1 Hm1].
  assert (Hw1 : width P i1 = width P img) by (unfold width; now rewrite Hs1).
  assert (Hh1 : height P i1 = height P img) by (unfold height; now rewrite Hs1).
  pose proof (resize_spec i1 i2) as Hr.
  rewrite Hw1, Hh1 in Hr. specialize (Hr Hrw Hrh H2).
  destruct Hr as (Hm2 & Hbw & Hbh & Hsame & Hland & Hport).
  pose proof (enhance_modes i2 i3 H3) as Hmodes.
  pose proof (enhance_spec i2 i3 H3) as [Hm3 Hs3].
  assert (Hrgb1 : mode P i1 = "RGB").
  { destruct Hm1 as [E | [E _]]; [exact E|]. exfalso.
    rewrite Hm2, E in Hmodes. destruct Hmodes as [X | X]; discriminate X. }
  assert (Hrgb3 : mode P i3 = "RGB") by congruence.
  assert (Hnot : mode P img <> "RGBA").
  { intros E. destruct Hm1 as [X | [X _]]; [|congruence].
    assert (Hin : in_list (mode P img) ["RGB"; "RGBA"] = true)
      by (rewrite E; reflexivity).
    rewrite Hin in H1. cbn [negb] in H1. injection H1 as <-.
    rewrite E in X. discriminate X. }
  pose proof (remove_transparency_spec i3 out Hproc) as (_ & _ & Hother).
  assert (Hout : out = i3)
    by (apply Hother; rewrite Hrgb3; discriminate).
  subst out.
  assert (Hw : width P i3 = width P i2) by (unfold width; now rewrite Hs3).
  assert (Hh : height P i3 = height P i2) by (unfold height; now rewrite Hs3).
  exists img, i1, i2, i3, data, encoded.
  split; [reflexivity|]. split; [exact Hopen|]. split; [exact H1|].
  split; [exact H2|]. split; [exact H3|]. split; [exact Hproc|].
  split; [exact Hsave|]. split; [reflexivity|]. split; [reflexivity|].
  split; [exact Hnot|]. split; [exact Hrgb3|].
  rewrite Hw, Hh.
  split; [exact Hbw|]. split; [exact Hbh|].
  split.
  { intros A B. split.
    - rewrite Hs3, <- Hs1. exact (Hsame A B).
    - assert (R : _resize_image P i1 = inr i1)
        by (apply resize_within_bound; [rewrite Hw1 | rewrite Hh1]; assumption).
      congruence. }
  split; assumption.
Qed.

End Processing.

Lemma toy_contract : PIL_contract toy_pil.
Proof.
  constructor; cbn -[in_list].
  - intros data [m [w h]] H. unfold toy_open in H.
    destruct data as [|w1 [|w0 [|h1 [|h0 [|md [|x rest]]]]]]; try discriminate.
    injection H as _ <- <-. cbn [fst snd].
    pose proof (Byte.to_N_bounded w1). pose proof (Byte.to_N_bounded w0).
    pose proof (Byte.to_N_bounded h1). pose proof (Byte.to_N_bounded h0).
    change (2 ^ 31)%Z with 2147483648%Z. lia.
  - intros i m i' [= <-]. auto.
  - intros i sz i' [= <-]. auto.
  - intros i f i' [= <-]. auto.
  - intros i f i' [= <-]. auto.
  - intros i c i' H.
    destruct (in_list (fst i) ["L"; "RGB"]); [|discriminate H].
    injection H as <-. auto.
  - intros i c i' H.
    destruct (in_list (fst i) ["L"; "RGB"]) eqn:E; [|discriminate H].
    apply in_list_In in E. destruct E as [E | [E | []]]; auto.
  - auto.
  - intros bg i r [= <-]. auto.
Qed.

Lemma rgba_picture_gets_no_processed_copy_witness :
  exists e : exn,
    preprocess_image toy_pil sample_image "7f3a" (image_world wide_rgba_file)
    = (inl e, image_world wide_rgba_file).
Proof.
  apply (rgba_picture_gets_no_processed_copy toy_pil toy_contract unit
           sample_image "7f3a" (image_world wide_rgba_file) wide_rgba_file
           ("RGBA", (4096, 1500)%Z));
    vm_compute; reflexivity.
Defined.

Lemma processed_copy_is_rgb_and_bounded_witness :
  exists (img converted resized out : Img toy_pil) (data encoded : bytes),
    uploads (image_world wide_la_file) !! sample_image = Some data
    /\ Image_open toy_pil data = inr img
    /\ (if negb (in_list (mode toy_pil img) ["RGB"; "RGBA"])
        then convert toy_pil img "RGB" else inr img) = inr converted
    /\ _resize_image toy_pil converted = inr resized
    /\ _enhance_image toy_pil resized = inr out
    /\ _remove_transparency toy_pil out = inr out
    /\ save_png toy_pil out = inr encoded
    /\ "7f3a_processed.png" = "7f3a" ++ "_processed.png"
    /\ uploads (snd (preprocess_image toy_pil sample_image "7f3a"
                       (image_world wide_la_file)))
       = <["7f3a_processed.png" := encoded]>
           (uploads (image_world wide_la_file))
    /\ mode toy_pil img <> "RGBA"
    /\ mode toy_pil out = "RGB"
    /\ (width toy_pil out <= 2048)%Z /\ (height toy_pil out <= 2048)%Z
    /\ ((width toy_pil img <= 2048)%Z -> (height toy_pil img <= 2048)%Z ->
        size toy_pil out = size toy_pil img /\ resized = converted)
    /\ ((2048 < width toy_pil img)%Z ->
        (height toy_pil img < width toy_pil img)%Z ->
        width toy_pil out = 2048%Z
        /\ (2048 * height toy_pil img - width toy_pil img
            <= height toy_pil out * width toy_pil img
            <= 2048 * height toy_pil img)%Z)
    /\ ((2048 < height toy_pil img)%Z ->
        (width toy_pil img <= height toy_pil img)%Z ->
        height toy_pil out = 2048%Z
        /\ (2048 * width toy_pil img - height toy_pil img
            <= width toy_pil out * height toy_pil img
            <= 2048 * width toy_pil img)%Z).
Proof.
  apply (processed_copy_is_rgb_and_bounded toy_pil toy_contract unit
           sample_image "7f3a" "7f3a_processed.png"
           (image_world wide_la_file)
           (snd (preprocess_image toy_pil sample_image "7f3a"
                   (image_world wide_la_file)))).
  vm_compute. reflexivity.
Defined.

(** A 4096 by 1500 picture comes out as 2048 by 750, in mode RGB, when it
    is RGB or grey with alpha (which the conversion drops); the same
    picture in mode RGBA stops at the contrast normalisation.  A square of
    2215 pixels comes out one pixel narrower than high, the product
    [2215 * (2048 / 2215)] falling just short of 2048 in binary64. *)
Example processed_sizes :
  (bindE (toy_open wide_rgb_file) (process toy_pil)
   = inr ("RGB", (2048, 750)%Z))
  /\ (bindE (toy_open wide_la_file) (process toy_pil)
      = inr ("RGB", (2048, 750)%Z))
  /\ (bindE (toy_open wide_rgba_file) (process toy_pil)
      = inl (OtherError "OSError: not supported for mode RGBA"))
  /\ (bindE (toy_open square_file) (process toy_pil)
      = inr ("RGB", (2047, 2048)%Z)).
Proof. repeat split; vm_compute; reflexivity. Qed.

(** The model of the arithmetic on sample sizes, shorter side first. *)
Example scaled_samples :
  map (fun sides : Z * Z => scaled (fst sides) (snd sides))
      [(1500, 3000); (3000, 3000); (4095, 4096); (2215, 2215); (561, 2244);
       (100, 4096); (0, 5000)]%Z
  = [1024; 2048; 2047; 2047; 511; 50; 0]%Z.
Proof. vm_compute. reflexivity. Qed.

(** On these sizes [round_binary64] gives what the Standard Library's
    IEEE 754 operations give. *)
Example rounding_agrees_with_SpecFloat :
  forallb (fun sides : Z * Z =>
             Qeq_bool (sf_int_times_quotient (fst sides) 2048 (snd sides))
                      (int_times_float (fst sides)
                                       (int_truediv 2048 (snd sides))))
          [(1500, 3000); (3000, 3000); (4095, 4096); (2215, 2215);
           (561, 2244); (100, 4096); (18651, 19660); (1, 2049);
           (2147483647, 2147483647); (1073741823, 2147483647)]%Z
  = true.
Proof. vm_compute. reflexivity. Qed.

Import Chars FormatterTools PromptExamples Environment Operations MoreSamples.

(** * Further properties *)

(** ** The generation run, continued *)

Section RunMore.
Context {W : Type}.
Variable client : LLMClient W.
Variable t : templates.
Variable prepare : bytes -> exn + image_data.

(** X1: when the first answer passes validation the run is over after that
    one call to [generate]: the post-processed parse of the answer is
    returned and no refinement request is sent. *)
Theorem valid_answer_is_returned_without_refinement
    (image_path output_format : string) (include_explanation : bool)
    (w : world W) (data : bytes) (d : image_data) (p0 p1 : W)
    (prompt : string) (r1 : LLMResponse) (reason : option string) :
  uploads w !! image_path = Some data ->
  In output_format formats ->
  is_available client (provider_state w) = (true, p0) ->
  supports_images client = true ->
  prepare data = inr d ->
  get_architecture_prompt t output_format None = inr prompt ->
  generate client prompt (Some [as_image_input d]) (1 # 10) (Some 4000%Z) p0
  = (inr r1, p1) ->
  validate_llm_response (content r1) output_format = inr (true, reason) ->
  let first_call :=
    EvGenerate prompt (Some [as_image_input d]) (1 # 10) (Some 4000%Z) in
  generate_from_image client t prepare image_path output_format
                      include_explanation w
  = (inr (finished output_format include_explanation
            (_parse_architecture_response (content r1) output_format)),
     log_call first_call p1 (log_call EvIsAvailable p0 w))
  /\ generate_calls (calls (log_call first_call p1 (log_call EvIsAvailable p0 w)))
     = (generate_calls (calls w) ++ [first_call])%list.
Proof.
  intros Hfile Hfmt Havail Himg Hprep Hprompt Hgen Hval. cbv zeta.
  apply in_list_In in Hfmt. split.
  - unfold generate_from_image. rewrite Hfile, Hfmt. cbn [negb].
    unfold try_except, generate_body.
    unfold World.bind at 1. unfold call_is_available. rewrite Havail.
    cbn [negb]. rewrite Himg. cbn [negb].
    unfold World.bind at 1. unfold analyze_architecture_diagram.
    unfold World.bind at 1. unfold read_image. cbn [uploads log_call].
    rewrite Hfile, Hprep.
    unfold World.bind at 1. unfold World.lift at 1. rewrite Hprompt.
    unfold World.bind at 1. unfold call_generate at 1.
    cbn [provider_state log_call]. fold (as_image_input d). rewrite Hgen.
    unfold World.ret at 1.
    unfold World.bind at 1. unfold World.lift at 1.
    cbn [raw_response _parse_architecture_response]. rewrite Hval.
    cbn [negb]. unfold World.bind at 1. unfold World.ret, finished.
    cbn [code explanation detected_resources format raw_response].
    destruct include_explanation; reflexivity.
  - unfold generate_calls, log_call. cbn [calls].
    rewrite !List.filter_app. cbn [List.filter is_generate].
    rewrite app_nil_r. reflexivity.
Qed.

(** X2: when the provider is not available, or its model takes no images,
    the run fails with [ValueError] right after the availability probe: no
    call to [generate] is made. *)
Theorem unusable_provider_is_never_called
    (image_path output_format : string) (include_explanation : bool)
    (w : world W) (data : bytes) (available : bool) (p0 : W) :
  uploads w !! image_path = Some data ->
  In output_format formats ->
  is_available client (provider_state w) = (available, p0) ->
  available = false \/ supports_images client = false ->
  generate_from_image client t prepare image_path output_format
                      include_explanation w
  = (inl (ValueError
            ("Failed to generate Infrastructure as Code: "
             ++ (if available
                 then provider_name client ++ " does not support image analysis"
                 else "LLM service is not available"))),
     log_call EvIsAvailable p0 w)
  /\ generate_calls (calls (log_call EvIsAvailable p0 w))
     = generate_calls (calls w).
Proof.
  intros Hfile Hfmt Havail Hbad. apply in_list_In in Hfmt. split.
  - unfold generate_from_image. rewrite Hfile, Hfmt. cbn [negb].
    unfold try_except, generate_body.
    unfold World.bind at 1. unfold call_is_available. rewrite Havail.
    destruct available; cbn [negb].
    + destruct Hbad as [Hbad | Hbad]; [discriminate Hbad|].
      rewrite Hbad. reflexivity.
    + reflexivity.
  - unfold generate_calls, log_call. cbn [calls].
    rewrite List.filter_app. cbn [List.filter is_generate].
    apply app_nil_r.
Qed.

(** X3: an empty first answer is not refined: the assertion of the
    validator fires, is caught with everything else, and the run fails with
    [ValueError] after its single call to [generate]. *)
Theorem empty_answer_fails_without_refinement
    (image_path output_format : string) (include_explanation : bool)
    (w : world W) (data : bytes) (d : image_data) (p0 p1 : W)
    (prompt : string) (r1 : LLMResponse) :
  uploads w !! image_path = Some data ->
  In output_format formats ->
  is_available client (provider_state w) = (true, p0) ->
  supports_images client = true ->
  prepare data = inr d ->
  get_architecture_prompt t output_format None = inr prompt ->
  generate client prompt (Some [as_image_input d]) (1 # 10) (Some 4000%Z) p0
  = (inr r1, p1) ->
  content r1 = EmptyString ->
  let first_call :=
    EvGenerate prompt (Some [as_image_input d]) (1 # 10) (Some 4000%Z) in
  generate_from_image client t prepare image_path output_format
                      include_explanation w
  = (inl (ValueError
            "Failed to generate Infrastructure as Code: Response cannot be empty"),
     log_call first_call p1 (log_call EvIsAvailable p0 w))
  /\ generate_calls (calls (log_call first_call p1 (log_call EvIsAvailable p0 w)))
     = (generate_calls (calls w) ++ [first_call])%list.
Proof.
  intros Hfile Hfmt Havail Himg Hprep Hprompt Hgen Hempty. cbv zeta.
  apply in_list_In in Hfmt. split.
  - unfold generate_from_image. rewrite Hfile, Hfmt. cbn [negb].
    unfold try_except, generate_body.
    unfold World.bind at 1. unfold call_is_available. rewrite Havail.
    cbn [negb]. rewrite Himg. cbn [negb].
    unfold World.bind at 1. unfold analyze_architecture_diagram.
    unfold World.bind at 1. unfold read_image. cbn [uploads log_call].
    rewrite Hfile, Hprep.
    unfold World.bind at 1. unfold World.lift at 1. rewrite Hprompt.
    unfold World.bind at 1. unfold call_generate at 1.
    cbn [provider_state log_call]. fold (as_image_input d). rewrite Hgen.
    unfold World.ret at 1.
    unfold World.bind at 1. unfold World.lift at 1.
    cbn [raw_response _parse_architecture_response]. rewrite Hempty.
    reflexivity.
  - unfold generate_calls, log_call. cbn [calls].
    rewrite !List.filter_app. cbn [List.filter is_generate].
    rewrite app_nil_r. reflexivity.
Qed.

End RunMore.

Lemma valid_answer_is_returned_without_refinement_witness :
  generate_from_image scripted sample_templates sample_prepare sample_image
                      "terraform" true (sample_world [refined_answer])
  = (inr (finished "terraform" true
            (_parse_architecture_response (content (answer refined_answer))
                                          "terraform")),
     log_call sample_first_call [] (log_call EvIsAvailable [refined_answer]
                                      (sample_world [refined_answer])))
  /\ generate_calls
       (calls (log_call sample_first_call []
                 (log_call EvIsAvailable [refined_answer]
                    (sample_world [refined_answer]))))
     = (generate_calls (calls (sample_world [refined_answer]))
        ++ [sample_first_call])%list.
Proof.
  apply (valid_answer_is_returned_without_refinement
           scripted sample_templates sample_prepare sample_image "terraform"
           true (sample_world [refined_answer]) [] sample_data
           [refined_answer] [] "Generate Terraform for this diagram."
           (answer refined_answer) None).
  - vm_compute. reflexivity.
  - left. reflexivity.
  - reflexivity.
  - reflexivity.
  - reflexivity.
  - reflexivity.
  - reflexivity.
  - vm_compute. reflexivity.
Defined.

Lemma unusable_provider_is_never_called_witness :
  generate_from_image offline sample_templates sample_prepare sample_image
                      "terraform" true (sample_world [refined_answer])
  = (inl (ValueError
            ("Failed to generate Infrastructure as Code: "
             ++ "LLM service is not available")),
     log_call EvIsAvailable [refined_answer] (sample_world [refined_answer]))
  /\ generate_calls
       (calls (log_call EvIsAvailable [refined_answer]
                 (sample_world [refined_answer])))
     = generate_calls (calls (sample_world [refined_answer])).
Proof.
  apply (unusable_provider_is_never_called
           offline sample_templates sample_prepare sample_image "terraform"
           true (sample_world [refined_answer]) [] false [refined_answer]).
  - vm_compute. reflexivity.
  - left. reflexivity.
  - reflexivity.
  - left. reflexivity.
Defined.

Lemma empty_answer_fails_without_refinement_witness :
  generate_from_image scripted sample_templates sample_prepare sample_image
                      "terraform" true
                      (sample_world [EmptyString; refined_answer])
  = (inl (ValueError
            "Failed to generate Infrastructure as Code: Response cannot be empty"),
     log_call sample_first_call [refined_answer]
       (log_call EvIsAvailable [EmptyString; refined_answer]
          (sample_world [EmptyString; refined_answer])))
  /\ generate_calls
       (calls (log_call sample_first_call [refined_answer]
                 (log_call EvIsAvailable [EmptyString; refined_answer]
                    (sample_world [EmptyString; refined_answer]))))
     = (generate_calls (calls (sample_world [EmptyString; refined_answer]))
        ++ [sample_first_call])%list.
Proof.
  apply (empty_answer_fails_without_refinement
           scripted sample_templates sample_prepare sample_image "terraform"
           true (sample_world [EmptyString; refined_answer]) [] sample_data
           [EmptyString; refined_answer] [refined_answer]
           "Generate Terraform for this diagram." (answer EmptyString)).
  - vm_compute. reflexivity.
  - left. reflexivity.
  - reflexivity.
  - reflexivity.
  - reflexivity.
  - reflexivity.
  - reflexivity.
  - reflexivity.
Defined.

(** ** The generation boundary, continued *)

Lemma keeps_storage_ret {W A} (a : A) : keeps_storage (@World.ret W A a).
Proof. intros w. split; reflexivity. Qed.

Lemma keeps_storage_raise {W A} (e : exn) : keeps_storage (@World.raise W A e).
Proof. intros w. split; reflexivity. Qed.

Lemma keeps_storage_lift {W A} (r : exn + A) : keeps_storage (@World.lift W A r).
Proof. intros w. split; reflexivity. Qed.

Lemma keeps_storage_bind {W A B} (c : M W A) (k : A -> M W B) :
  keeps_storage c -> (forall a, keeps_storage (k a)) ->
  keeps_storage (World.bind c k).
Proof.
  intros Hc Hk w. unfold World.bind. specialize (Hc w).
  destruct (c w) as [[e|a] w1]; cbn [snd] in *; [exact Hc|].
  destruct (Hk a w1) as [H1 H2]. destruct Hc as [H3 H4].
  split; congruence.
Qed.

Lemma keeps_storage_try {W A} (c : M W A) (h : exn -> M W A) :
  keeps_storage c -> (forall e, keeps_storage (h e)) ->
  keeps_storage (try_except c h).
Proof.
  intros Hc Hh w. unfold try_except. specialize (Hc w).
  destruct (c w) as [[e|a] w1]; cbn [snd] in *; [|exact Hc].
  destruct (Hh e w1) as [H1 H2]. destruct Hc as [H3 H4].
  split; congruence.
Qed.

Section BoundaryMore.
Context {W : Type}.
Variable client : LLMClient W.
Variable t : templates.
Variable prepare : bytes -> exn + image_data.
Variable fnmatch : string -> string -> bool.

Lemma keeps_storage_is_available : keeps_storage (call_is_available client).
Proof.
  intros w. unfold call_is_available.
  destruct (is_available client (provider_state w)). split; reflexivity.
Qed.

Lemma keeps_storage_generate (prompt : string)
    (images : option (list ImageInput)) (temperature : Q)
    (max_tokens : option Z) :
  keeps_storage (call_generate client prompt images temperature max_tokens).
Proof.
  intros w. unfold call_generate.
  destruct (generate client prompt images temperature max_tokens
                     (provider_state w)).
  split; reflexivity.
Qed.

Lemma keeps_storage_read_image (image_path : string) :
  keeps_storage (@read_image W prepare image_path).
Proof.
  intros w. unfold read_image.
  destruct (uploads w !! image_path); split; reflexivity.
Qed.

Lemma keeps_storage_generate_from_image (image_path output_format : string)
    (include_explanation : bool) :
  keeps_storage (generate_from_image client t prepare image_path output_format
                                     include_explanation).
Proof.
  intros w. unfold generate_from_image.
  destruct (uploads w !! image_path); [|split; reflexivity].
  destruct (negb (in_list output_format formats)); [split; reflexivity|].
  revert w. apply keeps_storage_try; [|intros e; apply keeps_storage_raise].
  unfold generate_body.
  apply keeps_storage_bind; [apply keeps_storage_is_available|].
  intros available.
  destruct (negb available); [apply keeps_storage_raise|].
  destruct (negb (supports_images client)); [apply keeps_storage_raise|].
  apply keeps_storage_bind.
  { unfold analyze_architecture_diagram.
    apply keeps_storage_bind; [apply keeps_storage_read_image|]. intros d.
    apply keeps_storage_bind; [apply keeps_storage_lift|]. intros prompt.
    apply keeps_storage_bind; [apply keeps_storage_generate|]. intros r.
    apply keeps_storage_ret. }
  intros result.
  apply keeps_storage_bind; [apply keeps_storage_lift|].
  intros [is_valid error_msg].
  apply keeps_storage_bind; [|intros r; apply keeps_storage_ret].
  destruct (negb is_valid); [|apply keeps_storage_ret].
  unfold _refine_output.
  apply keeps_storage_bind; [apply keeps_storage_generate|].
  intros r. apply keeps_storage_ret.
Qed.





(** X5: answering a generation request writes no file and registers no
    background task, whatever the provider answers. *)
Theorem generate_code_keeps_storage (request : GenerateCodeRequest) :
  keeps_storage (generate_code client t prepare fnmatch request).
Proof.
  unfold generate_code.
  apply keeps_storage_bind.
  { intros w. unfold glob_uploads.
    destruct (glob_refusal (image_id request ++ "_*")); split; reflexivity. }
  intros [|image_path files]; [apply keeps_storage_raise|].
  destruct (negb (in_list (output_format request) formats));
    [apply keeps_storage_raise|].
  apply keeps_storage_try.
  - apply keeps_storage_bind; [apply keeps_storage_generate_from_image|].
    intros r. apply keeps_storage_ret.
  - intros [m|m|s d|m]; apply keeps_storage_raise.
Qed.

End BoundaryMore.

(** An identifier that starts with a slash: the lookup raises, the route
    has no handler for it, and the format is not even looked at. *)
Example rooted_request_is_unhandled :
  generate_code scripted sample_templates sample_prepare prefix_glob
                rooted_request (sample_world [prose_answer])
  = (inl (OtherError
            "NotImplementedError: Non-relative patterns are unsupported"),
     sample_world [prose_answer]).
Proof. vm_compute. reflexivity. Qed.

(** ** The upload boundary, continued *)

Section UploadMore.
Context {W : Type}.
Variable cfg : config.
Variable Image_open : bytes -> exn + image_metadata.
Variable storage_fails : string -> bool.

Lemma validate_image_file_accepts (content : bytes) (filename : string)
    (image : image_metadata) :
  (Z.of_nat (List.length content) <= max_size_mb cfg * 1048576)%Z ->
  In (strip_dots (lower (path_suffix filename))) (allowed_types cfg) ->
  Image_open content = inr image ->
  (100 <= img_width image <= 4096)%Z ->
  (100 <= img_height image <= 4096)%Z ->
  validate_image_file cfg Image_open content filename
  = (true, None, Some (reported_metadata content image)).
Proof.
  intros Hsize Hext Hopen Hw Hh. unfold validate_image_file.
  apply Qle_bool_size in Hsize. rewrite Hsize. cbn [negb].
  apply in_list_In in Hext. rewrite Hext. cbn [negb]. rewrite Hopen.
  unfold min_dimension, UploadValidators.max_dimension.
  assert (E1 : (img_width image <? 100)%Z = false) by (apply Z.ltb_ge; lia).
  assert (E2 : (img_height image <? 100)%Z = false) by (apply Z.ltb_ge; lia).
  assert (E3 : (4096 <? img_width image)%Z = false) by (apply Z.ltb_ge; lia).
  assert (E4 : (4096 <? img_height image)%Z = false) by (apply Z.ltb_ge; lia).
  rewrite E1, E2, E3, E4. reflexivity.
Qed.

(** X7: [validate_image_file] accepts a file exactly when its size is
    within the ceiling, its extension is on the allow-list, the imaging
    library decodes it, and both decoded sides lie in 100..4096. *)
Theorem validate_image_file_accepts_iff (content : bytes) (filename : string) :
  fst (fst (validate_image_file cfg Image_open content filename)) = true
  <-> (Z.of_nat (List.length content) <= max_size_mb cfg * 1048576)%Z
      /\ In (strip_dots (lower (path_suffix filename))) (allowed_types cfg)
      /\ exists image : image_metadata,
           Image_open content = inr image
           /\ (100 <= img_width image <= 4096)%Z
           /\ (100 <= img_height image <= 4096)%Z.
Proof.
  split.
  - unfold validate_image_file.
    destruct (Qle_bool (Z.of_nat (List.length content) # 1048576)
                       (inject_Z (max_size_mb cfg))) eqn:Hsize; cbn [negb];
      [|discriminate].
    apply Qle_bool_size in Hsize.
    destruct (in_list (strip_dots (lower (path_suffix filename)))
                      (allowed_types cfg)) eqn:Hext; cbn [negb];
      [|discriminate].
    apply in_list_In in Hext.
    destruct (Image_open content) as [e|image]; [discriminate|].
    unfold min_dimension, UploadValidators.max_dimension.
    destruct (img_width image <? 100)%Z eqn:E1; [discriminate|].
    destruct (img_height image <? 100)%Z eqn:E2; [discriminate|].
    destruct (4096 <? img_width image)%Z eqn:E3; [discriminate|].
    destruct (4096 <? img_height image)%Z eqn:E4; [discriminate|].
    intros _. apply Z.ltb_ge in E1, E2, E3, E4.
    split; [exact Hsize|]. split; [exact Hext|].
    exists image. split; [reflexivity|]. lia.
  - intros (Hsize & Hext & image & Hopen & Hw & Hh).
    now rewrite (validate_image_file_accepts content filename image).
Qed.

(** X6: a file within all bounds is stored under the drawn identifier
    followed by the sanitised name, reads back unchanged, leaves every
    other file alone, and its preprocessing is queued as the one new
    background task; the provider is not involved. *)
Theorem valid_upload_is_stored (content : bytes) (filename uuid4 : string)
    (image : image_metadata) (w : world W) :
  (Z.of_nat (List.length content) <= max_size_mb cfg * 1048576)%Z ->
  In (strip_dots (lower (path_suffix filename))) (allowed_types cfg) ->
  Image_open content = inr image ->
  (100 <= img_width image <= 4096)%Z ->
  (100 <= img_height image <= 4096)%Z ->
  storage_fails (uuid4 ++ "_" ++ sanitize_filename filename) = false ->
  let file_path := uuid4 ++ "_" ++ sanitize_filename filename in
  exists w' : world W,
    upload_image cfg Image_open storage_fails (inr content) filename uuid4 w
    = (inr {| u_image_id := uuid4;
              u_filename := sanitize_filename filename;
              u_metadata := Some (reported_metadata content image);
              u_preview_url := "/api/v1/preview/" ++ uuid4 |}, w')
    /\ uploads w' !! file_path = Some content
    /\ (forall other, other <> file_path ->
                      uploads w' !! other = uploads w !! other)
    /\ tasks w' = (tasks w ++ [(file_path, uuid4)])%list
    /\ calls w' = calls w
    /\ provider_state w' = provider_state w.
Proof.
  intros Hsize Hext Hopen Hw Hh Hstore. cbv zeta.
  unfold upload_image.
  rewrite (validate_image_file_accepts content filename image
             Hsize Hext Hopen Hw Hh).
  unfold World.bind, try_except, write_file. rewrite Hstore.
  unfold add_task, World.ret. cbn [uploads tasks calls provider_state].
  eexists. split; [reflexivity|].
  cbn [uploads tasks calls provider_state].
  split; [apply lookup_insert_eq|].
  split; [intros other Hne; now apply lookup_insert_ne|].
  repeat split.
Qed.

(** X8: when the file system refuses the file, an upload within all bounds
    is answered with status 500 and leaves no trace: nothing is stored and
    no background task is registered. *)
Theorem refused_write_is_500 (content : bytes) (filename uuid4 : string)
    (image : image_metadata) (w : world W) :
  (Z.of_nat (List.length content) <= max_size_mb cfg * 1048576)%Z ->
  In (strip_dots (lower (path_suffix filename))) (allowed_types cfg) ->
  Image_open content = inr image ->
  (100 <= img_width image <= 4096)%Z ->
  (100 <= img_height image <= 4096)%Z ->
  storage_fails (uuid4 ++ "_" ++ sanitize_filename filename) = true ->
  upload_image cfg Image_open storage_fails (inr content) filename uuid4 w
  = (inl (HTTPException 500 "Failed to save file"), w).
Proof.
  intros Hsize Hext Hopen Hw Hh Hstore.
  unfold upload_image.
  rewrite (validate_image_file_accepts content filename image
             Hsize Hext Hopen Hw Hh).
  unfold World.bind, try_except, write_file. rewrite Hstore.
  reflexivity.
Qed.

End UploadMore.

Lemma validate_image_file_accepts_iff_witness :
  fst (fst (validate_image_file sample_config sample_decoder good_image
                                "Diagram.PNG")) = true.
Proof.
  apply (proj2 (validate_image_file_accepts_iff sample_config sample_decoder
                  good_image "Diagram.PNG")).
  split; [vm_compute; discriminate|].
  split; [vm_compute; left; reflexivity|].
  exists good_header. split; [reflexivity|]. cbn. lia.
Defined.

Lemma valid_upload_is_stored_witness :
  exists w' : world (list string),
    upload_image sample_config sample_decoder never_fails (inr good_image)
                 "../Diagram.PNG" "7f3b" (sample_world [])
    = (inr {| u_image_id := "7f3b";
              u_filename := sanitize_filename "../Diagram.PNG";
              u_metadata := Some (reported_metadata good_image good_header);
              u_preview_url := "/api/v1/preview/" ++ "7f3b" |}, w')
    /\ uploads w' !! ("7f3b" ++ "_" ++ sanitize_filename "../Diagram.PNG")
       = Some good_image
    /\ (forall other,
           other <> "7f3b" ++ "_" ++ sanitize_filename "../Diagram.PNG" ->
           uploads w' !! other = uploads (sample_world []) !! other)
    /\ tasks w'
       = app (tasks (sample_world []))
             [("7f3b" ++ "_" ++ sanitize_filename "../Diagram.PNG", "7f3b")]
    /\ calls w' = calls (sample_world [])
    /\ provider_state w' = provider_state (sample_world []).
Proof.
  apply (valid_upload_is_stored sample_config sample_decoder never_fails
           good_image "../Diagram.PNG" "7f3b" good_header (sample_world [])).
  - vm_compute. discriminate.
  - vm_compute. left. reflexivity.
  - reflexivity.
  - cbn. lia.
  - cbn. lia.
  - reflexivity.
Defined.

Lemma refused_write_is_500_witness :
  upload_image sample_config sample_decoder always_fails (inr good_image)
               "Diagram.PNG" "7f3b" (sample_world [])
  = (inl (HTTPException 500 "Failed to save file"), sample_world []).
Proof.
  apply (refused_write_is_500 sample_config sample_decoder always_fails
           good_image "Diagram.PNG" "7f3b" good_header (sample_world [])).
  - vm_compute. discriminate.
  - vm_compute. left. reflexivity.
  - reflexivity.
  - cbn. lia.
  - cbn. lia.
  - reflexivity.
Defined.

(** ** Strings, continued *)

Lemma startswith_empty (s : string) : startswith s EmptyString = true.
Proof. destruct s; reflexivity. Qed.

Lemma append_nil_r (s : string) : s ++ EmptyString = s.
Proof.
  induction s as [|c s IH]; [reflexivity|]. rewrite append_cons. now f_equal.
Qed.

Lemma length_append (a b : string) :
  String.length (a ++ b) = String.length a + String.length b.
Proof.
  induction a as [|c a IH]; [reflexivity|].
  rewrite append_cons. cbn [String.length]. now rewrite IH.
Qed.

Lemma all_chars_app (p : ascii -> bool) (a b : string) :
  all_chars p (a ++ b) = (all_chars p a && all_chars p b)%bool.
Proof.
  induction a as [|c a IH]; [reflexivity|].
  rewrite append_cons. cbn [all_chars]. rewrite IH. apply andb_assoc.
Qed.

Lemma all_chars_substring (p : ascii -> bool) (s : string) :
  all_chars p s = true ->
  forall n m, all_chars p (substring n m s) = true.
Proof.
  induction s as [|c s IH]; intros H n m.
  - destruct n, m; reflexivity.
  - cbn [all_chars] in H. apply andb_true_iff in H as [Hc Hs].
    destruct n as [|n]; cbn [substring].
    + destruct m as [|m]; [reflexivity|]. cbn [all_chars].
      now rewrite Hc, IH.
    + now apply IH.
Qed.

Lemma all_chars_weaken (p q : ascii -> bool) (s : string) :
  (forall c, p c = true -> q c = true) ->
  all_chars p s = true -> all_chars q s = true.
Proof.
  intros Hpq. induction s as [|c s IH]; [reflexivity|]. cbn [all_chars].
  intros H. apply andb_true_iff in H as [Hc Hs].
  now rewrite (Hpq c Hc), IH.
Qed.

Lemma all_chars_map (p : ascii -> bool) (f : ascii -> ascii) (s : string) :
  all_chars p (map_chars f s) = all_chars (fun c => p (f c)) s.
Proof.
  induction s as [|c s IH]; [reflexivity|]. cbn [map_chars all_chars].
  now rewrite IH.
Qed.

Lemma all_chars_not_contains (p : ascii -> bool) (c : ascii) (s : string) :
  all_chars p s = true -> p c = false -> contains (chr c) s = false.
Proof.
  intros Hs Hc. induction s as [|d s IH]; [reflexivity|].
  cbn [all_chars] in Hs. apply andb_true_iff in Hs as [Hd Hs].
  cbn [contains]. rewrite (IH Hs). unfold chr. cbn [startswith].
  destruct (Ascii.eqb c d) eqn:E; [|reflexivity].
  apply Ascii.eqb_eq in E. congruence.
Qed.

(** Replacing one character by an underscore works character by
    character. *)
Lemma replace_char_map (c : ascii) (s : string) :
  replace s (chr c) "_"
  = map_chars (fun d => if Ascii.eqb c d then "_"%char else d) s.
Proof.
  unfold replace, chr.
  induction s as [|d s IH]; [reflexivity|].
  cbn [replace_from map_chars startswith String.length Nat.sub].
  rewrite startswith_empty, andb_true_r.
  destruct (Ascii.eqb c d); rewrite IH; reflexivity.
Qed.

(** The parts [split] produces do not contain the separator, and inherit
    what holds of every character of the text. *)
Lemma split_parts (p : ascii -> bool) (sep : ascii) (s : string) :
  all_chars p s = true ->
  Forall (fun part =>
            all_chars (fun c => (p c && negb (Ascii.eqb c sep))%bool) part
            = true)
         (split sep s).
Proof.
  induction s as [|c s IH]; intros H.
  - repeat constructor.
  - cbn [all_chars] in H. apply andb_true_iff in H as [Hc Hs].
    specialize (IH Hs). cbn [split].
    destruct (Ascii.eqb c sep) eqn:E.
    + constructor; [reflexivity | exact IH].
    + destruct (split sep s) as [|w ws].
      * repeat constructor. cbn [all_chars]. now rewrite Hc, E.
      * inversion IH as [|? ? Hw Hws]; subst. constructor; [|exact Hws].
        cbn [all_chars]. now rewrite Hc, E, Hw.
Qed.

Lemma all_chars_true (s : string) : all_chars (fun _ => true) s = true.
Proof. induction s as [|c s IH]; [reflexivity | exact IH]. Qed.

Lemma path_name_no_slash (p : string) :
  all_chars (fun c => negb (Ascii.eqb c "/")) (path_name p) = true.
Proof.
  unfold path_name, path_parts.
  assert (H : Forall (fun part =>
                        all_chars (fun c => negb (Ascii.eqb c "/")) part = true)
                     (List.filter
                        (fun part => negb (is_empty part || String.eqb part "."))
                        (split "/" p))).
  { apply List.Forall_forall. intros part Hin.
    apply List.filter_In in Hin as [Hin _].
    pose proof (split_parts (fun _ => true) "/" p (all_chars_true p)) as Hs.
    rewrite List.Forall_forall in Hs. specialize (Hs part Hin).
    exact Hs. }
  induction H as [|x l Hx Hl IH]; [reflexivity|].
  destruct l as [|y l']; [exact Hx | exact IH].
Qed.

Lemma replace_chars_map (invalid : list ascii) (s : string) :
  replace_chars invalid s
  = map_chars (fun d => fold_left
                          (fun acc c => if Ascii.eqb c acc then "_"%char else acc)
                          invalid d) s.
Proof.
  unfold replace_chars. revert s.
  induction invalid as [|c invalid IH]; intros s; cbn [fold_left].
  - induction s as [|d s IHs]; [reflexivity|]. cbn [map_chars]. now f_equal.
  - rewrite IH, replace_char_map.
    induction s as [|d s IHs]; [reflexivity|]. cbn [map_chars]. now f_equal.
Qed.

Lemma cleaned_char_safe (d : ascii) :
  (Ascii.eqb d "/" || negb (unsafe_in_filename (cleaned_char d)))%bool = true.
Proof. destruct d as [[] [] [] [] [] [] [] []]; reflexivity. Qed.

Lemma cleaned_name_safe (filename : string) :
  all_chars (fun c => negb (unsafe_in_filename c)) (cleaned_name filename)
  = true.
Proof.
  unfold cleaned_name. rewrite replace_chars_map, all_chars_map.
  apply (all_chars_weaken (fun c => negb (Ascii.eqb c "/")));
    [|apply path_name_no_slash].
  intros c Hc. pose proof (cleaned_char_safe c) as H.
  unfold cleaned_char in H. destruct (Ascii.eqb c "/"); [discriminate Hc|].
  exact H.
Qed.

Lemma splitext_parts (p : ascii -> bool) (s : string) :
  all_chars p s = true ->
  all_chars p (fst (splitext s)) = true /\ all_chars p (snd (splitext s)) = true.
Proof.
  intros H. unfold splitext.
  destruct (rfind "." s) as [i|]; [|split; [exact H | reflexivity]].
  destruct (all_dots (substring 0 i s)); cbn [fst snd];
    [split; [exact H | reflexivity]|].
  split; now apply all_chars_substring.
Qed.

(** X9: the name [sanitize_filename] returns contains no path separator
    and none of the characters it replaces, whatever name is uploaded. *)
Theorem sanitize_filename_safe (filename : string) (c : ascii) :
  In c ["/"; "<"; ">"; ":"; dquote; "|"; "?"; "*"]%char ->
  contains (chr c) (sanitize_filename filename) = false.
Proof.
  intros Hc.
  apply (all_chars_not_contains (fun c => negb (unsafe_in_filename c))).
  - unfold sanitize_filename.
    pose proof (cleaned_name_safe filename) as Hsafe.
    change (replace_chars _ (path_name filename))
      with (cleaned_name filename).
    set (cleaned := cleaned_name filename) in *.
    destruct (255 <? Z.of_nat (String.length cleaned))%Z; [|exact Hsafe].
    destruct (splitext_parts _ cleaned Hsafe) as [H1 H2].
    destruct (splitext cleaned) as [name ext]. cbn [fst snd] in H1, H2.
    rewrite all_chars_app, H2, andb_true_r.
    unfold slice_to. destruct (_ <? 0)%Z; now apply all_chars_substring.
  - unfold unsafe_in_filename. apply negb_false_iff, existsb_exists.
    exists c. split; [exact Hc | apply Ascii.eqb_refl].
Qed.

Lemma sanitize_filename_safe_witness :
  contains (chr "/") (sanitize_filename "../../etc/pass<wd>.png") = false.
Proof.
  apply (sanitize_filename_safe "../../etc/pass<wd>.png" "/").
  left. reflexivity.
Defined.

Lemma length_substring (s : string) :
  forall i n, String.length (substring i n s) = Nat.min n (String.length s - i).
Proof.
  induction s as [|c s IH]; intros i n.
  - destruct i, n; reflexivity.
  - destruct i as [|i]; cbn [substring].
    + destruct n as [|n]; [reflexivity|].
      cbn [String.length]. rewrite IH. cbn [Nat.sub].
      rewrite Nat.sub_0_r. reflexivity.
    + rewrite IH. reflexivity.
Qed.

Lemma rfind_lt (c : ascii) (s : string) (i : nat) :
  rfind c s = Some i -> i < String.length s.
Proof.
  revert i. induction s as [|d s IH]; intros i H; [discriminate|].
  cbn [rfind] in H. cbn [String.length].
  destruct (rfind c s) as [j|].
  - injection H as <-. specialize (IH j eq_refl). lia.
  - destruct (Ascii.eqb d c); [injection H as <-; lia | discriminate].
Qed.

Lemma splitext_length (p : string) :
  String.length (fst (splitext p)) + String.length (snd (splitext p))
  = String.length p.
Proof.
  unfold splitext. destruct (rfind "." p) as [i|] eqn:E;
    [|cbn [fst snd String.length]; lia].
  destruct (all_dots (substring 0 i p)); cbn [fst snd String.length]; [lia|].
  apply rfind_lt in E. rewrite !length_substring. lia.
Qed.

(** X10: the 255-character limit of [sanitize_filename] holds exactly
    when the cleaned name is short enough already or its extension has at
    most 255 characters: a longer extension is kept whole and the result
    exceeds the limit. *)
Theorem sanitize_filename_length (filename : string) :
  String.length (sanitize_filename filename) <= 255
  <-> String.length (cleaned_name filename) <= 255
      \/ String.length (snd (splitext (cleaned_name filename))) <= 255.
Proof.
  unfold sanitize_filename.
  change (replace_chars _ (path_name filename)) with (cleaned_name filename).
  set (cleaned := cleaned_name filename).
  pose proof (splitext_length cleaned) as Hlen.
  destruct (255 <? Z.of_nat (String.length cleaned))%Z eqn:E.
  - apply Z.ltb_lt in E.
    destruct (splitext cleaned) as [name ext]. cbn [fst snd] in *.
    rewrite length_append. unfold slice_to.
    destruct (255 - Z.of_nat (String.length ext) <? 0)%Z eqn:K.
    + apply Z.ltb_lt in K. rewrite length_substring. lia.
    + apply Z.ltb_ge in K. rewrite length_substring. lia.
  - apply Z.ltb_ge in E. split; [intros _; left; lia | intros _; lia].
Qed.

Lemma substring_all (s : string) : substring 0 (String.length s) s = s.
Proof.
  induction s as [|c s IH]; [reflexivity|].
  cbn [String.length substring]. now rewrite IH.
Qed.

Lemma substring_app_r (a b : string) (n : nat) :
  substring (String.length a) n (a ++ b) = substring 0 n b.
Proof.
  induction a as [|c a IH]; [reflexivity|].
  rewrite append_cons. cbn [String.length substring]. exact IH.
Qed.

Lemma endswith_app (a b : string) : endswith (a ++ b) b = true.
Proof.
  unfold endswith. rewrite length_append.
  replace (String.length a + String.length b - String.length b)
    with (String.length a) by lia.
  rewrite substring_app_r, substring_all, String.eqb_refl, andb_true_r.
  apply Nat.leb_le. lia.
Qed.

Lemma substring_split (p : string) :
  forall i, i <= String.length p ->
  substring 0 i p ++ substring i (String.length p - i) p = p.
Proof.
  induction p as [|c p IH]; intros i Hi.
  - destruct i; [reflexivity | cbn in Hi; lia].
  - destruct i as [|i].
    + cbn [substring]. change (EmptyString ++ ?x) with x.
      rewrite Nat.sub_0_r. cbn [String.length substring].
      now rewrite substring_all.
    + cbn [String.length] in *. cbn [substring Nat.sub].
      rewrite append_cons. f_equal. apply IH. lia.
Qed.

Lemma splitext_app (p : string) : fst (splitext p) ++ snd (splitext p) = p.
Proof.
  unfold splitext. destruct (rfind "." p) as [i|] eqn:E;
    [|cbn [fst snd]; apply append_nil_r].
  destruct (all_dots (substring 0 i p)); cbn [fst snd];
    [apply append_nil_r|].
  apply substring_split. apply rfind_lt in E. lia.
Qed.

(** X11: whatever the length, the extension of the cleaned name is the
    end of the name [sanitize_filename] returns. *)
Theorem sanitize_filename_keeps_extension (filename : string) :
  endswith (sanitize_filename filename)
           (snd (splitext (cleaned_name filename))) = true.
Proof.
  unfold sanitize_filename.
  change (replace_chars _ (path_name filename)) with (cleaned_name filename).
  set (cleaned := cleaned_name filename).
  pose proof (splitext_app cleaned) as Happ.
  destruct (255 <? Z.of_nat (String.length cleaned))%Z.
  - destruct (splitext cleaned) as [name ext]. cbn [fst snd] in *.
    apply endswith_app.
  - rewrite <- Happ at 1. apply endswith_app.
Qed.

(** ** [sanitize_resource_name] *)

Lemma S_sub_self (n : nat) : S n - n = 1.
Proof. lia. Qed.

Lemma sub_class (p : ascii -> bool) (s : string) :
  forall pv,
  sub_from false (Cls p) "_" 0 pv s
  = map_chars (fun c => if p c then "_"%char else c) s.
Proof.
  induction s as [|c s IH]; intros pv; [reflexivity|].
  cbn [sub_from map_chars]. unfold match_at. cbn [run]. unfold step1.
  cbn [rest]. destruct (p c).
  - cbn [rest String.length]. rewrite S_sub_self, IH. reflexivity.
  - now rewrite IH.
Qed.

Lemma replaced_is_name_char (c : ascii) :
  name_char (if invalid_name_char c then "_"%char else c) = true.
Proof.
  unfold invalid_name_char. destruct (name_char c) eqn:E; [exact E | reflexivity].
Qed.

Lemma letter_of_name (c : ascii) :
  isalpha c = true -> name_char c = true -> ascii_letter c = true.
Proof. destruct c as [[] [] [] [] [] [] [] []]; vm_compute; congruence. Qed.

(** X12: [sanitize_resource_name] always returns a usable identifier:
    between 1 and 63 characters, all of them letters a-z or A-Z, digits,
    underscore or hyphen, the first one a letter. *)
Theorem sanitize_resource_name_valid (name : string) :
  1 <= String.length (sanitize_resource_name name) <= 63
  /\ all_chars name_char (sanitize_resource_name name) = true
  /\ exists c rest, sanitize_resource_name name = String c rest
                    /\ ascii_letter c = true.
Proof.
  unfold sanitize_resource_name, sub. rewrite sub_class.
  set (f := fun c : ascii => if invalid_name_char c then "_"%char else c).
  assert (Hall : all_chars name_char (map_chars f name) = true).
  { rewrite all_chars_map.
    apply (all_chars_weaken (fun _ => true)); [|apply all_chars_true].
    intros c _. apply replaced_is_name_char. }
  assert (Hstep : forall s, all_chars name_char s = true ->
            s = EmptyString \/
            exists c rest,
              (match s with
               | String c _ =>
                   if negb (isalpha c) then "resource_" ++ s else s
               | EmptyString => s
               end) = String c rest
              /\ ascii_letter c = true
              /\ all_chars name_char (String c rest) = true).
  { intros [|c s] Hs; [now left|]. right.
    destruct (isalpha c) eqn:Ha; cbn [negb].
    - exists c, s. split; [reflexivity|]. split; [|exact Hs].
      cbn [all_chars] in Hs. apply andb_true_iff in Hs as [Hc _].
      now apply letter_of_name.
    - exists "r"%char, ("esource_" ++ String c s).
      split; [reflexivity|]. split; [reflexivity|].
      change (String "r" ("esource_" ++ String c s))
        with ("resource_" ++ String c s).
      rewrite all_chars_app, Hs. reflexivity. }
  destruct (Hstep _ Hall) as [E | (c & rest & E & Hc & Hcs)].
  - rewrite E. cbn. split; [lia|]. split; [reflexivity|].
    exists "r"%char, "esource". split; reflexivity.
  - rewrite E. clear E Hstep Hall.
    destruct (Nat.ltb 63 (String.length (String c rest))) eqn:L.
    + cbn [substring is_empty].
      split; [|split].
      * cbn [String.length]. rewrite length_substring. lia.
      * change (String c (substring 0 62 rest))
          with (substring 0 63 (String c rest)).
        now apply all_chars_substring.
      * exists c, (substring 0 62 rest). split; [reflexivity | exact Hc].
    + apply Nat.ltb_ge in L. cbn [is_empty].
      split; [cbn [String.length] in *; lia|]. split; [exact Hcs|].
      exists c, rest. split; [reflexivity | exact Hc].
Qed.

(** ** The two Terraform formatters *)

Lemma lstrip_all_chars (p : ascii -> bool) (s : string) :
  all_chars p s = true -> all_chars p (lstrip s) = true.
Proof.
  induction s as [|c s IH]; [reflexivity|]. intros H. cbn [lstrip].
  destruct (isspace c); [|exact H].
  cbn [all_chars] in H. apply andb_true_iff in H as [_ H]. now apply IH.
Qed.

Lemma rstrip_all_chars (p : ascii -> bool) (s : string) :
  all_chars p s = true -> all_chars p (rstrip s) = true.
Proof.
  induction s as [|c s IH]; [reflexivity|]. intros H. cbn [rstrip].
  cbn [all_chars] in H. apply andb_true_iff in H as [Hc H].
  destruct (is_empty (rstrip s) && isspace c)%bool; [reflexivity|].
  cbn [all_chars]. now rewrite Hc, IH.
Qed.

Lemma strip_all_chars (p : ascii -> bool) (s : string) :
  all_chars p s = true -> all_chars p (strip s) = true.
Proof. intros H. now apply rstrip_all_chars, lstrip_all_chars. Qed.

Lemma rstrip_idem (s : string) : rstrip (rstrip s) = rstrip s.
Proof.
  induction s as [|c s IH]; [reflexivity|]. cbn [rstrip].
  destruct (is_empty (rstrip s) && isspace c)%bool eqn:E; [reflexivity|].
  cbn [rstrip]. now rewrite IH, E.
Qed.

Lemma lstrip_rstrip_lstrip (s : string) :
  lstrip (rstrip (lstrip s)) = rstrip (lstrip s).
Proof.
  induction s as [|c s IH]; [reflexivity|]. cbn [lstrip].
  destruct (isspace c) eqn:E; [exact IH|].
  cbn [rstrip]. rewrite E, andb_false_r. cbn [lstrip]. now rewrite E.
Qed.

Lemma strip_idem (s : string) : strip (strip s) = strip s.
Proof. unfold strip. now rewrite lstrip_rstrip_lstrip, rstrip_idem. Qed.

Lemma lstrip_indent (n : nat) (t : string) :
  lstrip (repeat_str "  " n ++ t) = lstrip t.
Proof. induction n as [|n IH]; [reflexivity | exact IH]. Qed.

Lemma strip_indent (n : nat) (t : string) :
  strip (repeat_str "  " n ++ t) = strip t.
Proof. unfold strip. now rewrite lstrip_indent. Qed.

Lemma indent_all_chars (p : ascii -> bool) (n : nat) :
  p " "%char = true -> all_chars p (repeat_str "  " n) = true.
Proof.
  intros H. induction n as [|n IH]; [reflexivity|].
  cbn [repeat_str]. rewrite all_chars_app, IH. cbn [all_chars]. now rewrite H.
Qed.

Lemma split_lines_no_nl (s : string) :
  Forall (fun line => all_chars not_nl line = true) (split nl s).
Proof.
  pose proof (split_parts (fun _ => true) nl s (all_chars_true s)) as H.
  exact H.
Qed.

Lemma split_cons (sep : ascii) (s : string) :
  exists w ws, split sep s = w :: ws.
Proof.
  induction s as [|c s (w & ws & IH)]; [now exists EmptyString, []|].
  cbn [split]. destruct (Ascii.eqb c sep); [now eexists; eexists|].
  rewrite IH. now eexists; eexists.
Qed.

Lemma split_app_sep (sep : ascii) (p t : string) :
  all_chars (fun c => negb (Ascii.eqb c sep)) p = true ->
  split sep (p ++ String sep t) = p :: split sep t.
Proof.
  induction p as [|c p IH]; intros H.
  - change (EmptyString ++ String sep t) with (String sep t).
    cbn [split]. now rewrite Ascii.eqb_refl.
  - cbn [all_chars] in H. apply andb_true_iff in H as [Hc Hp].
    rewrite append_cons. cbn [split].
    apply negb_true_iff in Hc. rewrite Hc, (IH Hp). reflexivity.
Qed.

Lemma split_no_sep (sep : ascii) (p : string) :
  all_chars (fun c => negb (Ascii.eqb c sep)) p = true ->
  split sep p = [p].
Proof.
  induction p as [|c p IH]; intros H; [reflexivity|].
  cbn [all_chars] in H. apply andb_true_iff in H as [Hc Hp].
  cbn [split]. apply negb_true_iff in Hc. now rewrite Hc, (IH Hp).
Qed.

(** Joining lines and splitting again gives the lines back. *)
Lemma split_join (lines : list string) :
  lines <> [] ->
  Forall (fun line => all_chars not_nl line = true) lines ->
  split nl (join (chr nl) lines) = lines.
Proof.
  intros Hne H. induction H as [|p ps Hp Hps IH]; [congruence|].
  destruct ps as [|q ps].
  - cbn [join]. now apply split_no_sep.
  - change (join (chr nl) (p :: q :: ps))
      with (p ++ String nl (join (chr nl) (q :: ps))).
    rewrite (split_app_sep nl p _ Hp). f_equal. apply IH. congruence.
Qed.

Lemma indent_lines_strip (lines : list string) :
  forall n, map strip (indent_lines lines n) = map strip lines.
Proof.
  induction lines as [|line lines IH]; intros n; [reflexivity|].
  cbn [indent_lines map]. rewrite IH. f_equal.
  destruct (strip line) eqn:E; [reflexivity|]. cbn [is_empty negb].
  rewrite <- E, strip_indent. apply strip_idem.
Qed.

Lemma indent_lines_no_nl (lines : list string) :
  Forall (fun line => all_chars not_nl line = true) lines ->
  forall n, Forall (fun line => all_chars not_nl line = true)
                   (indent_lines lines n).
Proof.
  induction 1 as [|line lines Hl Hls IH]; intros n; [constructor|].
  cbn [indent_lines]. constructor; [|apply IH].
  destruct (negb (is_empty (strip line))); [|reflexivity].
  rewrite all_chars_app, indent_all_chars by reflexivity.
  now apply strip_all_chars.
Qed.

Lemma indent_lines_cons (lines : list string) (n : nat) :
  lines <> [] -> indent_lines lines n <> [].
Proof. destruct lines; [congruence | discriminate]. Qed.

Lemma split_nonempty (sep : ascii) (s : string) : split sep s <> [].
Proof. destruct (split_cons sep s) as (w & ws & ->). discriminate. Qed.

Lemma formatted_lines (code : string) :
  split nl (_format_terraform_code code) = indent_lines (split nl code) 0.
Proof.
  unfold _format_terraform_code. apply split_join.
  - apply indent_lines_cons, split_nonempty.
  - apply indent_lines_no_nl, split_lines_no_nl.
Qed.

(** X13: [_format_terraform_code] changes nothing but the white space at
    the two ends of each line: it keeps the number of lines, and every
    line, stripped, is the line it was. *)
Theorem format_terraform_code_keeps_lines (code : string) :
  map strip (split nl (_format_terraform_code code))
  = map strip (split nl code).
Proof. rewrite formatted_lines. apply indent_lines_strip. Qed.

(** The formatted text depends on the stripped lines only. *)
Lemma indent_lines_ext (l1 : list string) :
  forall l2 n, map strip l1 = map strip l2 ->
  indent_lines l1 n = indent_lines l2 n.
Proof.
  induction l1 as [|a l1 IH]; intros [|b l2] n E; try discriminate E;
    [reflexivity|].
  cbn [map] in E. injection E as Eab E.
  cbn [indent_lines]. rewrite Eab. f_equal. now apply IH.
Qed.

(** X14: formatting twice is formatting once. *)
Theorem format_terraform_code_idempotent (code : string) :
  _format_terraform_code (_format_terraform_code code)
  = _format_terraform_code code.
Proof.
  unfold _format_terraform_code at 1. rewrite formatted_lines.
  unfold _format_terraform_code. f_equal.
  apply indent_lines_ext, indent_lines_strip.
Qed.

(** *** [format_terraform] *)

Lemma format_lines_strip (lines : list string) :
  forall n marker,
  map strip (format_lines lines n marker) = map strip lines.
Proof.
  induction lines as [|line lines IH]; intros n marker; [reflexivity|].
  cbn [format_lines].
  change (map strip (line :: lines)) with (strip line :: map strip lines).
  destruct marker as [marker|].
  - cbn [map]. now rewrite IH.
  - destruct (if contains "<<" line
              then search_group false heredoc_pattern line else None).
    + cbn [map]. now rewrite IH, strip_indent, strip_idem.
    + destruct (is_empty (strip line)) eqn:E.
      * apply is_empty_true in E. cbn [map]. now rewrite IH, E.
      * cbn [map]. now rewrite IH, strip_indent, strip_idem.
Qed.

Lemma format_lines_no_nl (lines : list string) :
  Forall (fun line => all_chars not_nl line = true) lines ->
  forall n marker,
  Forall (fun line => all_chars not_nl line = true)
         (format_lines lines n marker).
Proof.
  induction 1 as [|line lines Hl Hls IH]; intros n marker; [constructor|].
  cbn [format_lines].
  assert (Hind : forall k, all_chars not_nl
                             (repeat_str "  " k ++ strip line) = true).
  { intros k. rewrite all_chars_app, indent_all_chars by reflexivity.
    now apply strip_all_chars. }
  destruct marker as [marker|].
  - constructor; [exact Hl | apply IH].
  - destruct (if contains "<<" line
              then search_group false heredoc_pattern line else None).
    + constructor; [apply Hind | apply IH].
    + destruct (is_empty (strip line));
        constructor; try apply IH; [reflexivity | apply Hind].
Qed.

Lemma format_lines_cons (lines : list string) (n : nat)
    (marker : option string) :
  lines <> [] -> format_lines lines n marker <> [].
Proof.
  destruct lines as [|line lines]; [congruence|]. intros _.
  cbn [format_lines]. destruct marker.
  - discriminate.
  - destruct (if contains "<<" line
              then search_group false heredoc_pattern line else None);
      [discriminate|].
    destruct (is_empty (strip line)); discriminate.
Qed.

(** X15: [format_terraform] too changes nothing but the white space at
    the ends of lines, heredocs included. *)
Theorem format_terraform_keeps_lines (code : string) :
  map strip (split nl (format_terraform code)) = map strip (split nl code).
Proof.
  unfold format_terraform. rewrite split_join.
  - apply format_lines_strip.
  - apply format_lines_cons, split_nonempty.
  - apply format_lines_no_nl, split_lines_no_nl.
Qed.

Lemma not_contains_all_chars (c : ascii) (s : string) :
  contains (chr c) s = false ->
  all_chars (fun d => negb (Ascii.eqb c d)) s = true.
Proof.
  induction s as [|d s IH]; [reflexivity|]. cbn [contains]. intros H.
  apply orb_false_iff in H as [H1 H2]. cbn [all_chars]. rewrite (IH H2).
  unfold chr in H1. cbn [startswith] in H1.
  rewrite startswith_empty, andb_true_r in H1. now rewrite H1.
Qed.

Lemma startswith_char_false (p : ascii -> bool) (c : ascii) (s : string) :
  all_chars p s = true -> p c = false -> startswith s (chr c) = false.
Proof.
  intros Hs Hc. destruct s as [|d s]; [reflexivity|].
  cbn [all_chars] in Hs. apply andb_true_iff in Hs as [Hd _].
  unfold chr. cbn [startswith]. destruct (Ascii.eqb c d) eqn:E; [|reflexivity].
  apply Ascii.eqb_eq in E. congruence.
Qed.

Lemma endswith_char_false (p : ascii -> bool) (c : ascii) (s : string) :
  all_chars p s = true -> p c = false -> endswith s (chr c) = false.
Proof.
  intros Hs Hc. unfold endswith.
  destruct (String.eqb (substring (String.length s - String.length (chr c))
                                  (String.length (chr c)) s) (chr c)) eqn:E;
    [|apply andb_false_r].
  apply String.eqb_eq in E.
  pose proof (all_chars_substring p s Hs
                (String.length s - String.length (chr c))
                (String.length (chr c))) as H.
  rewrite E in H. cbn [chr all_chars] in H. rewrite Hc in H. discriminate H.
Qed.

Lemma startswith_first_part (c : ascii) (s w : string) (ws : list string) :
  c <> nl -> split nl s = w :: ws ->
  startswith w (chr c) = startswith s (chr c).
Proof.
  intros Hc E. destruct s as [|d s]; cbn [split] in E.
  - injection E as <- _. reflexivity.
  - destruct (Ascii.eqb d nl) eqn:D.
    + injection E as <- _. apply Ascii.eqb_eq in D. subst d.
      unfold chr. cbn [startswith].
      destruct (Ascii.eqb c nl) eqn:C; [|reflexivity].
      apply Ascii.eqb_eq in C. contradiction.
    + destruct (split nl s) as [|w' ws']; injection E as <- _;
        unfold chr; cbn [startswith]; now rewrite !startswith_empty.
Qed.

Lemma heredoc_free_lines (code : string) :
  contains "<<" code = false ->
  Forall (fun line => contains "<<" line = false) (split nl code).
Proof.
  induction code as [|c s IH]; intros H; [repeat constructor|].
  cbn [contains] in H. apply orb_false_iff in H as [H1 H2].
  specialize (IH H2). cbn [split].
  destruct (Ascii.eqb c nl); [constructor; [reflexivity | exact IH]|].
  destruct (split_cons nl s) as (w & ws & E). rewrite E in IH |- *.
  inversion IH as [|? ? Hw Hws]; subst. constructor; [|exact Hws].
  cbn [contains]. rewrite Hw, orb_false_r.
  cbn [startswith] in H1 |- *.
  change (String "<" EmptyString) with (chr "<").
  rewrite (startswith_first_part "<" s w ws); [exact H1 | discriminate | exact E].
Qed.

Lemma lines_all_chars (p : ascii -> bool) (code : string) :
  all_chars p code = true ->
  Forall (fun line => all_chars p line = true) (split nl code).
Proof.
  intros H. pose proof (split_parts p nl code H) as Hs.
  revert Hs. apply List.Forall_impl. intros line Hl.
  eapply all_chars_weaken; [|exact Hl].
  intros c Hc. now apply andb_true_iff in Hc as [Hc _].
Qed.

Lemma format_lines_plain (lines : list string) :
  Forall (fun line => contains "<<" line = false) lines ->
  Forall (fun line => all_chars (fun d => negb (Ascii.eqb "[" d)) line = true)
         lines ->
  Forall (fun line => all_chars (fun d => negb (Ascii.eqb "]" d)) line = true)
         lines ->
  forall n, format_lines lines n None = indent_lines lines n.
Proof.
  induction 1 as [|line lines Hh Hhs IH]; intros Ho Hc n; [reflexivity|].
  inversion Ho as [|? ? Ho1 Hos]; subst.
  inversion Hc as [|? ? Hc1 Hcs]; subst.
  specialize (IH Hos Hcs).
  cbn [format_lines indent_lines]. rewrite Hh.
  destruct (strip line) eqn:E.
  - cbn [is_empty negb]. rewrite IH. reflexivity.
  - rewrite <- E. 
    assert (E' : is_empty (strip line) = false) by now rewrite E.
    rewrite E'. cbn [negb].
    pose proof (startswith_char_false _ "]" (strip line)
                  (strip_all_chars _ _ Hc1) eq_refl) as S1.
    pose proof (endswith_char_false _ "[" (strip line)
                  (strip_all_chars _ _ Ho1) eq_refl) as S2.
    unfold chr in S1, S2. rewrite S1, S2, !orb_false_r, IH. reflexivity.
Qed.

(** X16: on code without heredoc marks and square brackets the two
    Terraform formatters, [CodeFormatter.format_terraform] and the
    generator's [_format_terraform_code], give the same text. *)
Theorem terraform_formatters_agree (code : string) :
  contains "<<" code = false ->
  contains "[" code = false ->
  contains "]" code = false ->
  format_terraform code = _format_terraform_code code.
Proof.
  intros Hh Ho Hc. unfold format_terraform, _format_terraform_code.
  f_equal. apply format_lines_plain.
  - now apply heredoc_free_lines.
  - apply lines_all_chars. now apply (not_contains_all_chars "[").
  - apply lines_all_chars. now apply (not_contains_all_chars "]").
Qed.

Lemma terraform_formatters_agree_witness :
  format_terraform tf_block = _format_terraform_code tf_block.
Proof.
  apply (terraform_formatters_agree tf_block); vm_compute; reflexivity.
Defined.

(** ** The first fenced block of an answer *)

Lemma startswith_app (p s : string) : startswith (p ++ s) p = true.
Proof.
  induction p as [|c p IH]; [apply startswith_empty|].
  rewrite append_cons. cbn [startswith]. now rewrite Ascii.eqb_refl, IH.
Qed.

Lemma drop_app (p s : string) : drop (String.length p) (p ++ s) = s.
Proof. induction p as [|c p IH]; [reflexivity | exact IH]. Qed.

Lemma run_lit_app (p : string) (pv : option ascii) (s : string)
    (cp : option string) (k : mstate -> option mstate) :
  run false (lit p) (MState pv (p ++ s) cp) k = k (MState (last_of p pv) s cp).
Proof.
  rewrite run_lit_eq. cbn [rest]. rewrite startswith_app.
  unfold after_lit. cbn [rest prev cap]. now rewrite drop_app.
Qed.

Lemma run_alt (ic : bool) (r1 r2 : regex) (st : mstate)
    (k : mstate -> option mstate) :
  run ic (Alt r1 r2) st k = orelse (run ic r1 st k) (run ic r2 st k).
Proof. reflexivity. Qed.

Lemma run_grp (ic : bool) (r : regex) (st : mstate)
    (k : mstate -> option mstate) :
  run ic (Grp r) st k
  = run ic r st (fun st' => k (MState (prev st') (rest st')
                                      (Some (consumed (rest st) (rest st'))))).
Proof. reflexivity. Qed.

Lemma star_lazy_step (p : ascii -> bool) (pv : option ascii) (c : ascii)
    (s : string) (cp : option string) (k : mstate -> option mstate) :
  run false (Star false p) (MState pv (String c s) cp) k
  = orelse (k (MState pv (String c s) cp))
           (if p c then run false (Star false p) (MState (Some c) s cp) k
            else None).
Proof. reflexivity. Qed.

Lemma star_greedy_step (p : ascii -> bool) (pv : option ascii) (c : ascii)
    (s : string) (cp : option string) (k : mstate -> option mstate) :
  run false (Star true p) (MState pv (String c s) cp) k
  = orelse (if p c then run false (Star true p) (MState (Some c) s cp) k
            else None)
           (k (MState pv (String c s) cp)).
Proof. reflexivity. Qed.

Lemma consumed_app (a b : string) : consumed (a ++ b) b = a.
Proof.
  unfold consumed. rewrite length_append.
  replace (String.length a + String.length b - String.length b)
    with (String.length a) by lia.
  induction a as [|c a IH]; [destruct b; reflexivity|].
  rewrite append_cons. cbn [String.length substring]. now rewrite IH.
Qed.

(** The lazy [(.*?)] before the closing fence stops at the first fence. *)
Lemma lazy_capture (orig post : string) (cp : option string) :
  forall (body : string) (pv : option ascii),
    all_chars (fun d => negb (Ascii.eqb "`" d)) body = true ->
    run false (Star false any_char) (MState pv (body ++ fence ++ post) cp)
        (fun st' => run false (lit fence)
                        (MState (prev st') (rest st')
                                (Some (consumed orig (rest st'))))
                        Some)
    = Some (MState (Some "`"%char) post
                   (Some (consumed orig (fence ++ post)))).
Proof.
  induction body as [|c body IH]; intros pv H.
  - change (EmptyString ++ fence ++ post)
      with (String "`" (String "`" (String "`" post))).
    rewrite star_lazy_step. cbn [prev rest].
    change (String "`" (String "`" (String "`" post))) with (fence ++ post).
    rewrite run_lit_app. reflexivity.
  - cbn [all_chars] in H. apply andb_true_iff in H as [Hc Hb].
    rewrite append_cons, star_lazy_step. cbn [prev rest].
    rewrite run_lit_eq. cbn [rest].
    change (startswith (String c (body ++ fence ++ post)) fence)
      with (Ascii.eqb "`" c && startswith (body ++ fence ++ post) "``")%bool.
    apply negb_true_iff in Hc. rewrite Hc. cbn [andb orelse any_char].
    now apply IH.
Qed.

Lemma greedy_star_all (p : ascii -> bool) (d : ascii) (s : string)
    (cp : option string) (k : mstate -> option mstate) (res : mstate) :
  p d = false ->
  forall (t : string) (pv : option ascii),
    all_chars p t = true ->
    k (MState (last_of t pv) (String d s) cp) = Some res ->
    run false (Star true p) (MState pv (t ++ String d s) cp) k = Some res.
Proof.
  intros Hd. induction t as [|c t IH]; intros pv Ht Hk.
  - change (EmptyString ++ String d s) with (String d s).
    rewrite star_greedy_step, Hd. exact Hk.
  - cbn [all_chars] in Ht. apply andb_true_iff in Ht as [Hc Ht].
    rewrite append_cons, star_greedy_step, Hc.
    rewrite (IH (Some c) Ht Hk). reflexivity.
Qed.

Lemma has_group_block (hint : regex) : has_group (block_pattern hint) = true.
Proof.
  unfold block_pattern.
  change (seqs [lit fence; hint; Chr nl; Grp (Star false any_char); lit fence])
    with (Seq (lit fence)
              (Seq hint (Seq (Chr nl)
                             (Seq (Grp (Star false any_char)) (lit fence))))).
  cbn [has_group]. destruct (has_group hint); now rewrite ?orb_true_r.
Qed.

(** No block starts before the first backtick. *)
Lemma scan_skip_pre (hint : regex) (t : string) :
  forall (pre : string) (pv : option ascii),
    all_chars (fun d => negb (Ascii.eqb "`" d)) pre = true ->
    scan false (block_pattern hint) 0 pv (pre ++ t)
    = scan false (block_pattern hint) 0 (last_of pre pv) t.
Proof.
  induction pre as [|c pre IH]; intros pv H; [reflexivity|].
  cbn [all_chars] in H. apply andb_true_iff in H as [Hc Hp].
  rewrite append_cons. cbn [scan last_of].
  rewrite block_none; [now apply IH|].
  apply fenced_none_iff. left.
  change (startswith (String c (pre ++ t)) fence)
    with (Ascii.eqb "`" c && startswith (pre ++ t) "``")%bool.
  apply negb_true_iff in Hc. now rewrite Hc.
Qed.

Section FencedBlock.
Variable hint : regex.
Variable tag : string.
Hypothesis hint_reads :
  forall (pv : option ascii) (s : string) (cp : option string)
         (k : mstate -> option mstate) (res : mstate),
    k (MState (last_of tag pv) (String nl s) cp) = Some res ->
    run false hint (MState pv (tag ++ String nl s) cp) k = Some res.

Lemma block_match (pv : option ascii) (body post : string) :
  all_chars (fun d => negb (Ascii.eqb "`" d)) body = true ->
  match_at false (block_pattern hint) pv
           (fence ++ tag ++ String nl (body ++ fence ++ post))
  = Some (MState (Some "`"%char) post (Some body)).
Proof.
  intros Hb. unfold match_at, block_pattern.
  change (seqs [lit fence; hint; Chr nl; Grp (Star false any_char); lit fence])
    with (Seq (lit fence)
              (Seq hint (Seq (Chr nl)
                             (Seq (Grp (Star false any_char)) (lit fence))))).
  rewrite run_seq, run_lit_app, run_seq. apply hint_reads.
  rewrite run_seq.
  change (run false (Chr nl) ?st ?k) with (step1 (chr_eq false nl) st k).
  unfold step1. cbn [rest chr_eq]. rewrite Ascii.eqb_refl.
  rewrite run_seq, run_grp. cbn [rest prev cap].
  rewrite (lazy_capture (body ++ fence ++ post) post None body (Some nl) Hb).
  now rewrite consumed_app.
Qed.

Lemma first_block (pre body post : string) :
  all_chars (fun d => negb (Ascii.eqb "`" d)) pre = true ->
  all_chars (fun d => negb (Ascii.eqb "`" d)) body = true ->
  exists more,
    findall false (block_pattern hint)
            (pre ++ fence ++ tag ++ String nl (body ++ fence ++ post))
    = body :: more.
Proof.
  intros Hp Hb. unfold findall. rewrite has_group_block.
  rewrite (scan_skip_pre hint _ pre None Hp).
  pose proof (block_match (last_of pre None) body post Hb) as Hm.
  revert Hm.
  change (fence ++ tag ++ String nl (body ++ fence ++ post))
    with (String "`" ("``" ++ tag ++ String nl (body ++ fence ++ post))).
  intros Hm. cbn [scan]. rewrite Hm. cbn [map snd cap].
  eexists. reflexivity.
Qed.

End FencedBlock.

Lemma append_nil_l (s : string) : EmptyString ++ s = s.
Proof. reflexivity. Qed.

(** The language tags the parser's pattern names, and no tag at all. *)
Lemma code_hint_reads (tag : string) :
  In tag [EmptyString; "hcl"; "terraform"; "yaml"; "json"] ->
  forall (pv : option ascii) (s : string) (cp : option string)
         (k : mstate -> option mstate) (res : mstate),
    k (MState (last_of tag pv) (String nl s) cp) = Some res ->
    run false (Opt (alts (map lit ["hcl"; "terraform"; "yaml"; "json"])))
        (MState pv (tag ++ String nl s) cp) k = Some res.
Proof.
  intros Hin pv s cp k res Hk. unfold Opt. cbn [alts map].
  rewrite !run_alt, !run_lit_eq. cbn [rest].
  destruct Hin as [<- | [<- | [<- | [<- | [<- | []]]]]];
    rewrite ?append_cons, append_nil_l;
    cbn [startswith Ascii.eqb Bool.eqb andb orelse];
    unfold after_lit; cbn [rest prev cap String.length drop last_of] in *;
    rewrite ?Hk; cbn [orelse run]; (exact Hk || reflexivity).
Qed.

(** Any run of word characters is read as a tag by [extract_code_block]. *)
Lemma word_hint_reads (tag : string) :
  all_chars isword tag = true ->
  forall (pv : option ascii) (s : string) (cp : option string)
         (k : mstate -> option mstate) (res : mstate),
    k (MState (last_of tag pv) (String nl s) cp) = Some res ->
    run false (Opt (Plus isword)) (MState pv (tag ++ String nl s) cp) k
    = Some res.
Proof.
  intros Ht pv s cp k res Hk. unfold Opt, Plus. rewrite run_alt, run_seq.
  change (run false (Cls isword) ?st ?k') with (step1 isword st k').
  unfold step1. cbn [rest].
  destruct tag as [|c tag].
  - rewrite append_nil_l. change (isword nl) with false.
    cbn [orelse run]. exact Hk.
  - cbn [all_chars] in Ht. apply andb_true_iff in Ht as [Hc Ht].
    rewrite append_cons, Hc. cbn [cap].
    rewrite (greedy_star_all isword nl s cp k res eq_refl tag (Some c) Ht Hk).
    reflexivity.
Qed.

(** X17: when the answer holds a fenced block, tagged hcl, terraform,
    yaml or json or not tagged, and there is no backtick before it or
    inside it, the code [_parse_architecture_response] returns is the
    inside of that block, stripped; whatever follows the block. *)
Theorem first_fenced_block_is_the_code
    (pre tag body post output_format : string) :
  contains "`" pre = false ->
  contains "`" body = false ->
  In tag [EmptyString; "hcl"; "terraform"; "yaml"; "json"] ->
  code (_parse_architecture_response
          (pre ++ fence ++ tag ++ NL ++ body ++ fence ++ post) output_format)
  = strip body.
Proof.
  intros Hp Hb Ht.
  apply (not_contains_all_chars "`") in Hp, Hb.
  destruct (first_block _ tag (code_hint_reads tag Ht) pre body post Hp Hb)
    as [more E].
  unfold _parse_architecture_response. cbn [code]. unfold code_pattern.
  change (NL ++ body ++ fence ++ post) with (String nl (body ++ fence ++ post)).
  now rewrite E.
Qed.

Lemma first_fenced_block_is_the_code_witness :
  code (_parse_architecture_response
          ("Here it is:" ++ NL ++ fence ++ "hcl" ++ NL ++ tf_block ++ NL
             ++ fence ++ " Done.") "terraform")
  = strip (tf_block ++ NL).
Proof.
  rewrite <- (first_fenced_block_is_the_code
                ("Here it is:" ++ NL) "hcl" (tf_block ++ NL) " Done."
                "terraform");
    [reflexivity | reflexivity | reflexivity |].
  right. left. reflexivity.
Defined.

(** X18: [extract_code_block] without a language returns the inside of
    the first fenced block, stripped, whatever word tags the block, when
    there is no backtick before the block or inside it. *)
Theorem extract_code_block_first_block (pre tag body post : string) :
  contains "`" pre = false ->
  contains "`" body = false ->
  all_chars isword tag = true ->
  extract_code_block (pre ++ fence ++ tag ++ NL ++ body ++ fence ++ post) None
  = strip body.
Proof.
  intros Hp Hb Ht.
  apply (not_contains_all_chars "`") in Hp, Hb.
  destruct (first_block _ tag (word_hint_reads tag Ht) pre body post Hp Hb)
    as [more E].
  unfold extract_code_block.
  change (NL ++ body ++ fence ++ post) with (String nl (body ++ fence ++ post)).
  now rewrite E.
Qed.

Lemma extract_code_block_first_block_witness :
  extract_code_block
    ("Here it is:" ++ NL ++ fence ++ "python3" ++ NL ++ "x = 1" ++ NL
       ++ fence ++ " Done.") None
  = strip ("x = 1" ++ NL).
Proof.
  rewrite <- (extract_code_block_first_block
                ("Here it is:" ++ NL) "python3" ("x = 1" ++ NL) " Done.");
    reflexivity.
Defined.

(** ** The header comment and the validators *)

Lemma header_starts_with_hash (format_type : string) :
  exists h, forall code,
    add_header_comment code format_type = String "#" (h ++ code).
Proof.
  unfold add_header_comment.
  destruct (String.eqb (lower format_type) "terraform").
  - exists (match terraform_header with
            | String _ h => h
            | EmptyString => EmptyString
            end).
    intros code. rewrite <- append_cons. f_equal.
  - exists (match cloudformation_header with
            | String _ h => h
            | EmptyString => EmptyString
            end).
    intros code. rewrite <- append_cons. f_equal.
Qed.

(** X19: a template that carries the header of [add_header_comment] is
    never accepted by [validate_cloudformation_syntax], whatever the
    template: the header comes before [AWSTemplateFormatVersion]. *)
Theorem headed_template_is_rejected (code format_type : string) :
  fst (validate_cloudformation_syntax (add_header_comment code format_type))
  = false.
Proof.
  destruct (header_starts_with_hash format_type) as [h E]. rewrite E.
  unfold validate_cloudformation_syntax.
  destruct (first_missing required_keys _); [reflexivity|].
  unfold strip. cbn [lstrip]. change (isspace "#") with false. cbv iota.
  cbn [rstrip]. change (isspace "#") with false. rewrite andb_false_r.
  reflexivity.
Qed.

Lemma clash_startswith (p s code : string) :
  clash p s = true -> startswith (s ++ code) p = false.
Proof.
  revert s. induction p as [|a p IH]; intros [|b s] H; try discriminate H.
  rewrite append_cons. cbn [startswith]. cbn [clash] in H.
  destruct (Ascii.eqb a b); [|reflexivity]. now rewrite (IH s H).
Qed.

Lemma inert_contains (p code : string) :
  forall h, inert p h = true -> contains p (h ++ code) = contains p code.
Proof.
  induction h as [|c h IH]; intros H; [reflexivity|].
  cbn [inert] in H. apply andb_true_iff in H as [Hc Hh].
  rewrite (append_cons c h code). cbn [contains].
  rewrite <- (append_cons c h code), (clash_startswith _ _ code Hc).
  exact (IH Hh).
Qed.

Lemma inert_count (p code : string) :
  forall h, inert p h = true -> count (h ++ code) p = count code p.
Proof.
  unfold count. induction h as [|c h IH]; intros H; [reflexivity|].
  cbn [inert] in H. apply andb_true_iff in H as [Hc Hh].
  rewrite (append_cons c h code). cbn [count_from].
  rewrite <- (append_cons c h code), (clash_startswith _ _ code Hc).
  exact (IH Hh).
Qed.

Lemma resource_match_any_prev (pv pv' : option ascii) (s : string) :
  match_at false resource_pattern pv s = match_at false resource_pattern pv' s.
Proof.
  unfold match_at, resource_pattern.
  change (seqs (lit "resource" :: ?l)) with (Seq (lit "resource") (seqs l)).
  rewrite !run_seq, !run_lit_eq. reflexivity.
Qed.

Lemma resource_search_any_prev (s : string) :
  forall pv pv',
    search_from false resource_pattern pv s
    = search_from false resource_pattern pv' s.
Proof.
  induction s as [|c s IH]; intros pv pv'; cbn [search_from];
    rewrite (resource_match_any_prev pv pv'); [reflexivity|].
  destruct (match_at false resource_pattern pv' (String c s)); reflexivity.
Qed.

Lemma inert_search (code : string) :
  forall h pv,
    inert "resource" h = true ->
    search_from false resource_pattern pv (h ++ code)
    = search_from false resource_pattern None code.
Proof.
  induction h as [|c h IH]; intros pv H.
  - apply resource_search_any_prev.
  - cbn [inert] in H. apply andb_true_iff in H as [Hc Hh].
    rewrite (append_cons c h code). cbn [search_from].
    rewrite <- (append_cons c h code).
    assert (E : match_at false resource_pattern pv (String c h ++ code) = None).
    { unfold match_at, resource_pattern.
      change (seqs (lit "resource" :: ?l)) with (Seq (lit "resource") (seqs l)).
      rewrite run_seq, run_lit_eq. cbn [rest].
      now rewrite (clash_startswith _ _ code Hc). }
    rewrite E. exact (IH (Some c) Hh).
Qed.

(** X20: the header of [add_header_comment] does not change what
    [validate_terraform_syntax] says of the code, verdict and message. *)
Theorem header_keeps_terraform_verdict (code format_type : string) :
  validate_terraform_syntax (add_header_comment code format_type)
  = validate_terraform_syntax code.
Proof.
  assert (H : exists h,
             (forall p, In p ["{"; "}"; "resource"; "data"; "module";
                              chr dquote; String backslash (chr dquote)] ->
                        inert p h = true)
             /\ add_header_comment code format_type = h ++ code).
  { unfold add_header_comment.
    destruct (String.eqb (lower format_type) "terraform");
      (eexists; split; [|reflexivity]); intros p Hp;
      repeat (destruct Hp as [<- | Hp]; [vm_compute; reflexivity|]);
      destruct Hp. }
  destruct H as (h & Hin & ->).
  unfold validate_terraform_syntax, search.
  rewrite !(inert_count _ code h), !(inert_contains _ code h),
    (inert_search code h None);
    try (apply Hin; cbn [In]; auto 10).
  reflexivity.
Qed.

(** ** Preprocessing, continued *)

Section ProcessingMore.
Variable P : PIL.
Hypothesis contract : PIL_contract P.

(** X21: preprocessing never enlarges a picture: neither side of the
    processed picture exceeds the same side of the picture that was
    opened. *)
Theorem processing_never_enlarges (data : bytes) (img out : Img P) :
  Image_open P data = inr img ->
  process P img = inr out ->
  (width P out <= width P img)%Z /\ (height P out <= height P img)%Z.
Proof.
  intros Hopen Hproc.
  pose proof (open_range P contract data img Hopen) as [Hrw Hrh].
  fold (width P img) in Hrw. fold (height P img) in Hrh.
  pose proof Hproc as Hproc0.
  unfold process, bindE in Hproc.
  destruct (if negb (in_list (mode P img) ["RGB"; "RGBA"])
            then convert P img "RGB" else inr img) as [e|i1] eqn:H1;
    [discriminate|].
  destruct (_resize_image P i1) as [e|i2] eqn:H2; [discriminate|].
  destruct (_enhance_image P i2) as [e|i3] eqn:H3; [discriminate|].
  assert (Hs1 : size P i1 = size P img).
  { destruct (in_list (mode P img) ["RGB"; "RGBA"]); cbn [negb] in H1.
    - now injection H1 as <-.
    - now apply (convert_ok P contract) in H1 as [_ Hs]. }
  assert (Hw1 : width P i1 = width P img) by (unfold width; now rewrite Hs1).
  assert (Hh1 : height P i1 = height P img) by (unfold height; now rewrite Hs1).
  pose proof (resize_spec P contract i1 i2) as Hr.
  rewrite Hw1, Hh1 in Hr. specialize (Hr Hrw Hrh H2).
  destruct Hr as (_ & Hbw & Hbh & Hsame & Hland & Hport).
  apply (enhance_spec P contract) in H3 as [_ Hs3].
  pose proof (remove_transparency_spec P contract i3 out Hproc) as (Hs4 & _).
  assert (Hw : width P out = width P i2)
    by (unfold width; now rewrite Hs4, Hs3).
  assert (Hh : height P out = height P i2)
    by (unfold height; now rewrite Hs4, Hs3).
  rewrite Hw, Hh.
  destruct (Z_le_gt_dec (width P img) 2048) as [Lw | Gw];
    destruct (Z_le_gt_dec (height P img) 2048) as [Lh | Gh].
  - specialize (Hsame Lw Lh). unfold width, height.
    rewrite Hsame, Hs1. lia.
  - destruct (Hport ltac:(lia) ltac:(lia)) as [E B]. nia.
  - destruct (Hland ltac:(lia) ltac:(lia)) as [E B]. nia.
  - destruct (Z_lt_le_dec (height P img) (width P img)) as [L | L].
    + destruct (Hland ltac:(lia) L) as [E B]. nia.
    + destruct (Hport ltac:(lia) L) as [E B]. nia.
Qed.

End ProcessingMore.

Lemma processing_never_enlarges_witness :
  (width toy_pil ("RGB", (2048, 750)%Z) <= width toy_pil ("RGB", (4096, 1500)%Z))%Z
  /\ (height toy_pil ("RGB", (2048, 750)%Z)
      <= height toy_pil ("RGB", (4096, 1500)%Z))%Z.
Proof.
  apply (processing_never_enlarges toy_pil toy_contract wide_rgb_file
           ("RGB", (4096, 1500)%Z) ("RGB", (2048, 750)%Z));
    vm_compute; reflexivity.
Defined.

(** ** Status and preview after preprocessing *)

Section StatusMore.
Context {W : Type}.
Variable P : PIL.
Variable fnmatch : string -> string -> bool.

(** X22: once [preprocess_image] has stored the processed copy for an
    identifier, and the pattern of the lookup matches that file name,
    [check_status] reports the upload as processed and [preview_image]
    serves the processed copy, not the original; unless the identifier
    gives a pattern that [Path.glob] refuses, in which case both leave
    with the exception of the lookup. *)
Theorem processed_upload_is_reported (image_path image_id path : string)
    (w w' : world W) :
  preprocess_image P image_path image_id w = (inr path, w') ->
  fnmatch path (image_id ++ "_*") = true ->
  match glob_refusal (image_id ++ "_*") with
  | None =>
      check_status fnmatch image_id w'
      = (inr {| s_image_id := image_id; s_status := "processed";
                s_original_exists := true; s_processed_exists := true |}, w')
      /\ preview_image fnmatch image_id w' = (inr path, w')
  | Some e =>
      check_status fnmatch image_id w' = (inl e, w')
      /\ preview_image fnmatch image_id w' = (inl e, w')
  end.
Proof.
  unfold preprocess_image.
  destruct (uploads w !! image_path) as [data|]; [|discriminate].
  destruct (bindE (bindE (Image_open P data) (process P)) (save_png P))
    as [e|encoded]; [discriminate|].
  intros [= <- <-] Hm.
  set (path := image_id ++ "_processed.png") in *.
  set (w' := {| provider_state := provider_state w; calls := calls w;
                uploads := <[path := encoded]> (uploads w);
                tasks := tasks w |}).
  unfold check_status, preview_image, bind, glob_uploads.
  destruct (glob_refusal (image_id ++ "_*")) as [e|];
    [split; reflexivity|].
  assert (Hex : processed_exists image_id w' = true).
  { unfold processed_exists. fold path. unfold w'. cbn [uploads].
    now rewrite lookup_insert_eq. }
  assert (Hin : In path (List.filter (fun name => fnmatch name (image_id ++ "_*"))
                                     (elements (dom (uploads w'))))).
  { apply List.filter_In. split; [|exact Hm].
    apply list_elem_of_In, elem_of_elements, elem_of_dom.
    unfold w'. cbn [uploads]. rewrite lookup_insert_eq. now eexists. }
  destruct (List.filter (fun name => fnmatch name (image_id ++ "_*"))
                        (elements (dom (uploads w')))) as [|f fs];
    [destruct Hin|].
  rewrite Hex. split; reflexivity.
Qed.

End StatusMore.

Lemma processed_upload_is_reported_witness :
  check_status prefix_glob "7f3a"
    (snd (preprocess_image toy_pil sample_image "7f3a"
            (image_world wide_rgb_file)))
  = (inr {| s_image_id := "7f3a"; s_status := "processed";
            s_original_exists := true; s_processed_exists := true |},
     snd (preprocess_image toy_pil sample_image "7f3a"
            (image_world wide_rgb_file)))
  /\ preview_image prefix_glob "7f3a"
       (snd (preprocess_image toy_pil sample_image "7f3a"
               (image_world wide_rgb_file)))
     = (inr "7f3a_processed.png",
        snd (preprocess_image toy_pil sample_image "7f3a"
               (image_world wide_rgb_file))).
Proof.
  apply (processed_upload_is_reported toy_pil prefix_glob sample_image "7f3a"
           "7f3a_processed.png" (image_world wide_rgb_file)
           (snd (preprocess_image toy_pil sample_image "7f3a"
                   (image_world wide_rgb_file))));
    vm_compute; reflexivity.
Defined.

(** ** Configuration *)

(** X23: an environment that [validate_environment] accepts is one from
    which [_initialize_llm_client] builds a client: the start-up check
    covers everything the choice of the provider needs. *)
Theorem validated_environment_has_a_client (e : gmap string string) :
  validate_environment e = inr tt ->
  exists c, _initialize_llm_client e = inr c.
Proof.
  unfold validate_environment, _initialize_llm_client.
  destruct (List.filter _ required_vars); [|discriminate].
  destruct (String.eqb (lower (getenv_or e "LLM_PROVIDER" EmptyString))
                       "ollama").
  - intros _. unfold OllamaClient. eexists. reflexivity.
  - destruct (String.eqb (lower (getenv_or e "LLM_PROVIDER" EmptyString))
                         "openai").
    + destruct (truthy (getenv e "OPENAI_API_KEY")) eqn:K; [|discriminate].
      intros _. unfold OpenAIClient, or_. rewrite K, K. cbn [negb].
      eexists. reflexivity.
    + destruct (String.eqb (lower (getenv_or e "LLM_PROVIDER" EmptyString))
                           "anthropic"); [|discriminate].
      destruct (truthy (getenv e "ANTHROPIC_API_KEY")) eqn:K; [|discriminate].
      intros _. unfold AnthropicClient, or_. rewrite K, K. cbn [negb].
      eexists. reflexivity.
Qed.

Lemma validated_environment_has_a_client_witness :
  exists c,
    _initialize_llm_client
      (list_to_map [("LLM_PROVIDER", "OpenAI"); ("MAX_IMAGE_SIZE_MB", "10");
                    ("ALLOWED_IMAGE_TYPES", "png,jpg");
                    ("OPENAI_API_KEY", "sk-test")])
    = inr c.
Proof.
  apply (validated_environment_has_a_client
           (list_to_map [("LLM_PROVIDER", "OpenAI"); ("MAX_IMAGE_SIZE_MB", "10");
                         ("ALLOWED_IMAGE_TYPES", "png,jpg");
                         ("OPENAI_API_KEY", "sk-test")])).
  vm_compute. reflexivity.
Defined.

(** ** Guidance for the detected resources *)

Lemma upper_lower_char (c : ascii) : upper_char (lower_char c) = upper_char c.
Proof. destruct c as [[] [] [] [] [] [] [] []]; vm_compute; reflexivity. Qed.

Lemma upper_lower (s : string) : upper (lower s) = upper s.
Proof.
  induction s as [|c s IH]; [reflexivity|].
  cbn [lower upper]. now rewrite upper_lower_char, IH.
Qed.

Lemma lambda_has_no_guidance (r : string) :
  lower r = "lambda" -> resource_guidance !! upper r = None.
Proof.
  intros H. rewrite <- upper_lower, H. vm_compute. reflexivity.
Qed.

Lemma example_lines_skip (r : string) (rs2 : list string) :
  resource_guidance !! upper r = None ->
  forall rs1, example_lines (app rs1 (r :: rs2)) = example_lines (app rs1 rs2).
Proof.
  intros H. induction rs1 as [|x rs1 IH]; cbn [app example_lines].
  - now rewrite H.
  - now rewrite IH.
Qed.

Lemma enhance_by_lines (base_prompt : string) (l1 l2 : list string) :
  example_lines l1 = example_lines l2 ->
  enhance_prompt_with_examples base_prompt l1
  = enhance_prompt_with_examples base_prompt l2.
Proof.
  intros E. unfold enhance_prompt_with_examples.
  destruct l1 as [|a l1], l2 as [|b l2]; [reflexivity| | |now rewrite E].
  - rewrite <- E. reflexivity.
  - rewrite E. reflexivity.
Qed.

(** X24: the guidance kept for Lambda is never given: the table is looked
    up with the upper-cased name, its key is spelled Lambda, so that a
    detected resource named lambda, in any letter case, leaves the prompt
    as it is without it. *)
Theorem lambda_guidance_is_never_given (base_prompt r : string)
    (before after : list string) :
  lower r = "lambda" ->
  enhance_prompt_with_examples base_prompt (app before (r :: after))
  = enhance_prompt_with_examples base_prompt (app before after).
Proof.
  intros H. apply enhance_by_lines, example_lines_skip.
  now apply lambda_has_no_guidance.
Qed.

Lemma lambda_guidance_is_never_given_witness :
  enhance_prompt_with_examples "Generate." (app ["S3"] ("Lambda" :: ["EC2"]))
  = enhance_prompt_with_examples "Generate." (app ["S3"] ["EC2"]).
Proof.
  apply (lambda_guidance_is_never_given "Generate." "Lambda" ["S3"] ["EC2"]).
  reflexivity.
Defined.
